(** * Jira data download and analysis: a shallow embedding

    The notebook [jira-data-download-and-analysis.ipynb] downloads issue,
    board, sprint and project records from the Jira REST API page by page,
    turns them into pandas data frames and aggregates them.  This file
    embeds the notebook's helper functions and data-frame cells as Rocq
    functions and states the properties of the specification over them.

    Python values are modelled as follows: a raised exception is the
    [Raised] outcome of a computation, a JSON document is a [json] tree, a
    dictionary with string keys is a [gmap string _], and a pandas
    DataFrame is a list of named columns. *)

From Stdlib Require Import ZArith String Ascii List Lia.
From stdpp Require Import base option list gmap strings pretty.

Local Open Scope string_scope.
Local Open Scope Z_scope.
Local Open Scope list_scope.

(** ** Python exceptions and outcomes *)

(** The exception classes that the notebook can meet.  [UrllibHTTPError] is
    [urllib.error.HTTPError], the class the request client imports and
    names in its first [except] clause; [RequestsHTTPError] is
    [requests.exceptions.HTTPError], the class [raise_for_status] raises
    and the guarded fetchers test for; [RequestsError cls] is any other
    exception of the transport ([ConnectionError], [Timeout], ...);
    [UnicodeEncodeError] is what [bytes(s, "utf-8")] raises on a lone
    surrogate, and [RecursionError] what [json.dumps] raises on an object
    that is nested too deeply.  All of them derive from [Exception]. *)
Inductive exn : Type :=
| TypeError
| AttributeError
| NameError (name : string)
| KeyError (key : string)
| ValueError
| JSONDecodeError
| UrllibHTTPError
| RequestsHTTPError (status : Z)
| RequestsError (cls : string)
| UnicodeEncodeError
| RecursionError.

(** What running a piece of Python yields: a value, an exception that
    propagates, or (for the [while] loops, which are run with fuel) no
    answer yet. *)
Inductive outcome (A : Type) : Type :=
| Returned (a : A)
| Raised (e : exn)
| OutOfFuel.
Arguments Returned {A} a.
Arguments Raised {A} e.
Arguments OutOfFuel {A}.

Definition obind {A B} (m : outcome A) (f : A -> outcome B) : outcome B :=
  match m with
  | Returned a => f a
  | Raised e => Raised e
  | OutOfFuel => OutOfFuel
  end.

Definition returns {A} (m : outcome A) : Prop := exists a, m = Returned a.

(** ** JSON documents and table cells *)

Set Warnings "-register-all".

(** The result of [json.loads]: objects keep their keys in document order
    (a Python dict); numbers are the integers. *)
Inductive json : Type :=
| JNull
| JBool (b : bool)
| JNum (z : Z)
| JStr (s : string)
| JArr (items : list json)
| JObj (fields : list (string * json)).

(** A cell of a data frame: a JSON value, or pandas' missing-value marker.
    [NaN] and [Val JNull] (Python's [None]) are both null for [isnull]. *)
Inductive cell : Type :=
| NaN
| Val (j : json).

Definition isnull (c : cell) : bool :=
  match c with
  | NaN | Val JNull => true
  | Val _ => false
  end.

Definition str_cell (s : string) : cell := Val (JStr s).

(** ** Colours *)

(** A Python dict literal: the bindings are inserted in the order written,
    a later binding of a key replacing an earlier one. *)
Definition dict_literal {V} (bindings : list (string * V)) : gmap string V :=
  list_to_map (reverse bindings).

Definition COLOR_DICT : gmap string string :=
  dict_literal
    [ ("purple", "purple");
      ("dark_blue", "darkblue");
      ("yellow", "orange");
      ("grey", "grey");
      ("dark_purple", "purple");
      ("blue", "blue");
      ("dark_orange", "orange");
      ("dark_yellow", "gold");
      ("blue-gray", "dodgerblue");
      ("green", "green") ].

(** [lambda x: COLOR_DICT.get(x, 'white')] applied to one cell.  Only a
    string can be equal to a key of [COLOR_DICT]; any other hashable value
    (missing, [None], a number, a boolean) takes the default; a list or a
    dict is unhashable, and [dict.get] raises [TypeError] on it. *)
Definition color_get (x : cell) : outcome string :=
  match x with
  | Val (JStr k) => Returned (default "white" (COLOR_DICT !! k))
  | Val (JArr _) | Val (JObj _) => Raised TypeError
  | _ => Returned "white"
  end.

(** The values that can be a dictionary key. *)
Definition hashable (x : cell) : Prop :=
  match x with
  | Val (JArr _) | Val (JObj _) => False
  | _ => True
  end.

Definition color_keywords : list string :=
  [ "purple"; "dark_blue"; "yellow"; "grey"; "dark_purple"; "blue";
    "dark_orange"; "dark_yellow"; "blue-gray"; "green" ].

(** ** The HTTP transport *)

(** The text of a response: a JSON document, or text that [json.loads]
    rejects. *)
Inductive payload : Type :=
| Json (doc : json)
| Garbage (raw : string).

Record Response : Type := mkResponse {
  status_code : Z;
  text : payload
}.

(** One call [requests.get(url, params, headers=headers)]. *)
Record request : Type := mkRequest {
  url : string;
  params : option (list (string * json));
  headers : list (string * string)
}.

(** What [requests.get] does with a request: it hands back a response
    (of any status), or raises. *)
Inductive http_reply : Type :=
| Sent (r : Response)
| Failed (e : exn).

(** [response.raise_for_status()]: the exception it raises, which it does
    for the 4xx and 5xx statuses, or [None] when it returns. *)
Definition raise_for_status (r : Response) : option exn :=
  if (400 <=? status_code r) && (status_code r <? 600)
  then Some (RequestsHTTPError (status_code r))
  else None.

(** ** Computations that talk to the server

    A computation yields an outcome together with the exchanges it had
    with the server, oldest first. *)
Definition exchange : Type := request * http_reply.

Definition M (A : Type) : Type := outcome A * list exchange.

Definition ret {A} (a : A) : M A := (Returned a, []).
Definition throw {A} (e : exn) : M A := (Raised e, []).
Definition lift {A} (m : outcome A) : M A := (m, []).
Definition out_of_fuel {A} : M A := (OutOfFuel, []).

Definition bind {A B} (m : M A) (f : A -> M B) : M B :=
  match m with
  | (Returned a, log) => let '(r, log') := f a in (r, log ++ log')
  | (Raised e, log) => (Raised e, log)
  | (OutOfFuel, log) => (OutOfFuel, log)
  end.

Notation "x <- m ;; k" := (bind m (fun x => k))
  (at level 100, m at next level, right associativity).

Definition result {A} (m : M A) : outcome A := fst m.
Definition exchanges {A} (m : M A) : list exchange := snd m.

(** ** Base64, for the Authorization header *)

Definition b64_alphabet : list ascii :=
  list_ascii_of_string
    "ABCDEFGHIJKLMNOPQRSTUVWXYZabcdefghijklmnopqrstuvwxyz0123456789+/".

Definition b64_digit (n : N) : ascii :=
  nth (N.to_nat n) b64_alphabet "="%char.

Fixpoint b64_groups (bytes : list N) : list ascii :=
  match bytes with
  | [] => []
  | [a] =>
      let n := (a * 65536)%N in
      [ b64_digit (n / 262144); b64_digit ((n / 4096) mod 64);
        "="%char; "="%char ]
  | [a; b] =>
      let n := (a * 65536 + b * 256)%N in
      [ b64_digit (n / 262144); b64_digit ((n / 4096) mod 64);
        b64_digit ((n / 64) mod 64); "="%char ]
  | a :: b :: c :: rest =>
      let n := (a * 65536 + b * 256 + c)%N in
      [ b64_digit (n / 262144); b64_digit ((n / 4096) mod 64);
        b64_digit ((n / 64) mod 64); b64_digit (n mod 64) ]
      ++ b64_groups rest
  end.

(** [base64.b64encode(b).decode("utf-8")] on the bytes [b]. *)
Definition b64encode (b : string) : string :=
  string_of_list_ascii
    (b64_groups (map N_of_ascii (list_ascii_of_string b))).

(** ** Text and bytes

    A Python [str] is held as the bytes it stands for: text as its UTF-8
    encoding, and a value that [os.environ] made of bytes that are not
    UTF-8 (it decodes with the [surrogateescape] handler, which turns
    each such byte into a lone surrogate) as those bytes themselves. *)

Definition continuation_byte (b : N) : bool :=
  ((128 <=? b) && (b <=? 191))%N.

(** The second byte of a three-byte sequence: no overlong form after
    [E0], no surrogate after [ED]. *)
Definition second_of_three (lead b : N) : bool :=
  (if lead =? 224 then (160 <=? b) && (b <=? 191)
   else if lead =? 237 then (128 <=? b) && (b <=? 159)
   else continuation_byte b)%N.

(** The second byte of a four-byte sequence: no overlong form after
    [F0], nothing beyond U+10FFFF after [F4]. *)
Definition second_of_four (lead b : N) : bool :=
  (if lead =? 240 then (144 <=? b) && (b <=? 191)
   else if lead =? 244 then (128 <=? b) && (b <=? 143)
   else continuation_byte b)%N.

(** Well-formed UTF-8. *)
Fixpoint utf8_wellformed (bytes : list N) : bool :=
  match bytes with
  | [] => true
  | b :: rest =>
      if (b <? 128)%N then utf8_wellformed rest
      else if ((194 <=? b) && (b <=? 223))%N then
        match rest with
        | b1 :: rest1 => continuation_byte b1 && utf8_wellformed rest1
        | _ => false
        end
      else if ((224 <=? b) && (b <=? 239))%N then
        match rest with
        | b1 :: b2 :: rest2 =>
            second_of_three b b1 && continuation_byte b2 && utf8_wellformed rest2
        | _ => false
        end
      else if ((240 <=? b) && (b <=? 244))%N then
        match rest with
        | b1 :: b2 :: b3 :: rest3 =>
            second_of_four b b1 && continuation_byte b2 && continuation_byte b3
            && utf8_wellformed rest3
        | _ => false
        end
      else false
  end.

(** [bytes(s, "utf-8")]: the bytes of the text, or [UnicodeEncodeError]
    when the [str] holds a lone surrogate, that is when it was made of
    bytes that are not UTF-8. *)
Definition encode_utf8 (s : string) : outcome string :=
  if utf8_wellformed (map N_of_ascii (list_ascii_of_string s))
  then Returned s
  else Raised UnicodeEncodeError.

(** ** The request client *)

(** The three module-level values read from the environment with
    [os.environ.get]: each is a string, or [None] when the variable is
    not set. *)
Record config : Type := mkConfig {
  user : option string;
  apikey : option string;
  server : option string
}.

(** [a + b] on two values that are each a string or [None]. *)
Definition str_add (a b : option string) : outcome string :=
  match a, b with
  | Some x, Some y => Returned (x +:+ y)
  | _, _ => Raised TypeError
  end.

(** What [jira_auth_get_connect] hands back: the response object, or the
    exception object it caught. *)
Inductive reply_value : Type :=
| RespObj (r : Response)
| ExcObj (e : exn).

(** The object passed as [body].  The client hands it to [json.dumps] and
    never uses the result, so all that the model keeps of the object is
    what [json.dumps] does with it: it returns, or it raises ([TypeError]
    for an object that is not JSON serialisable, such as a set,
    [RecursionError] for one that is nested too deeply for the
    interpreter's stack, [ValueError] for a circular one). *)
Inductive body_object : Type :=
| Serialisable
| Unserialisable (e : exn).

(** [json.dumps(body)]. *)
Definition json_dumps (body : body_object) : outcome unit :=
  match body with
  | Serialisable => Returned tt
  | Unserialisable e => Raised e
  end.

Section Client.

Variable cfg : config.
Variable requests_get : request -> http_reply.

(** [jira_auth_get_connect(url_path, param=..., body=...)].  A body that
    is given is serialised with [json.dumps] and not used afterwards.
    Four statements stand before the [try] and can raise past the
    function: [json.dumps(body)], [server+url_path],
    [user + ":" + apikey] and [bytes(auth_string, "utf-8")].  The [print]
    calls are not modelled. *)
Definition jira_auth_get_connect (url_path : string)
    (param : option (list (string * json))) (body : option body_object)
  : M reply_value :=
  dumped <- lift (match body with
                  | Some b => json_dumps b
                  | None => Returned tt
                  end) ;;
  url <- lift (str_add (server cfg) (Some url_path)) ;;
  user_colon <- lift (str_add (user cfg) (Some ":")) ;;
  auth_string <- lift (str_add (Some user_colon) (apikey cfg)) ;;
  auth_bytes <- lift (encode_utf8 auth_string) ;;
  let signature := b64encode auth_bytes in
  let headers :=
    [ ("Accept", "application/json");
      ("Content-Type", "application/json");
      ("Authorization", "Basic " +:+ signature) ] in
  let req :=
    match param with
    | Some params => mkRequest url (Some params) headers
    | None => mkRequest url None headers
    end in
  (* try: *)
  match requests_get req with
  | Sent response =>
      match raise_for_status response with
      | None => (Returned (RespObj response), [(req, Sent response)])
      | Some UrllibHTTPError =>          (* except HTTPError as http_err *)
          (Returned (ExcObj UrllibHTTPError), [(req, Sent response)])
      | Some err =>                      (* except Exception as err *)
          (Returned (ExcObj err), [(req, Sent response)])
      end
  | Failed UrllibHTTPError =>            (* except HTTPError as http_err *)
      (Returned (ExcObj UrllibHTTPError), [(req, Failed UrllibHTTPError)])
  | Failed err =>                        (* except Exception as err *)
      (Returned (ExcObj err), [(req, Failed err)])
  end.

End Client.

(** ** Operations on JSON values *)

(** [json.loads(text)]. *)
Definition json_loads (t : payload) : outcome json :=
  match t with
  | Json doc => Returned doc
  | Garbage _ => Raised JSONDecodeError
  end.

(** The first binding of a key in a list of bindings. *)
Fixpoint assoc {V} (k : string) (bindings : list (string * V)) : option V :=
  match bindings with
  | [] => None
  | (k', v) :: rest => if String.eqb k k' then Some v else assoc k rest
  end.

(** [doc[key]] with a string key: only a dict can be indexed that way. *)
Definition getitem (doc : json) (key : string) : outcome json :=
  match doc with
  | JObj fields =>
      match assoc key fields with
      | Some v => Returned v
      | None => Raised (KeyError key)
      end
  | _ => Raised TypeError
  end.

(** [acc.extend(block)]: a list gives its elements, a dict its keys, a
    string its characters; nothing else can be iterated. *)
Definition extend (acc : list json) (block : json) : outcome (list json) :=
  match block with
  | JArr items => Returned (acc ++ items)
  | JObj fields => Returned (acc ++ map (fun kv => JStr (fst kv)) fields)
  | JStr s =>
      Returned (acc ++ map (fun c => JStr (String c EmptyString))
                           (list_ascii_of_string s))
  | _ => Raised TypeError
  end.

(** [len(block)]. *)
Definition py_len (block : json) : outcome nat :=
  match block with
  | JArr items => Returned (length items)
  | JObj fields => Returned (length fields)
  | JStr s => Returned (String.length s)
  | _ => Raised TypeError
  end.

(** [response.text], where [response] is what the request client handed
    back: an exception object has no such attribute. *)
Definition get_text (response : reply_value) : outcome payload :=
  match response with
  | RespObj r => Returned (text r)
  | ExcObj _ => Raised AttributeError
  end.

(** Structural equality of JSON values, as [==] on the parsed values. *)
Fixpoint json_eqb (a b : json) : bool :=
  match a, b with
  | JNull, JNull => true
  | JBool x, JBool y => Bool.eqb x y
  | JNum x, JNum y => Z.eqb x y
  | JStr x, JStr y => String.eqb x y
  | JArr xs, JArr ys =>
      (fix go (xs ys : list json) : bool :=
         match xs, ys with
         | [], [] => true
         | x :: xs', y :: ys' => json_eqb x y && go xs' ys'
         | _, _ => false
         end) xs ys
  | JObj xs, JObj ys =>
      (fix go (xs ys : list (string * json)) : bool :=
         match xs, ys with
         | [], [] => true
         | (k, x) :: xs', (k', y) :: ys' =>
             String.eqb k k' && json_eqb x y && go xs' ys'
         | _, _ => false
         end) xs ys
  | _, _ => false
  end.

Definition cell_eqb (a b : cell) : bool :=
  match a, b with
  | NaN, NaN => true
  | Val x, Val y => json_eqb x y
  | _, _ => false
  end.

(** ** Data frames

    A pandas DataFrame with a default (range) index: the number of rows
    and the columns in order, each with its label and its cells.  Labels
    may repeat.  In a well-formed frame every column has [nrows] cells. *)
Record DataFrame : Type := mkDF {
  nrows : nat;
  cols : list (string * list cell)
}.

Definition columns (df : DataFrame) : list string := map fst (cols df).

Definition well_formed (df : DataFrame) : Prop :=
  Forall (fun c => length (snd c) = nrows df) (cols df).

(** [pd.DataFrame()]: no rows, no columns. *)
Definition empty_frame : DataFrame := mkDF 0 [].

(** [f(x)] for every [x] of a list, stopping at the first exception. *)
Fixpoint traverse {A B} (f : A -> outcome B) (l : list A) : outcome (list B) :=
  match l with
  | [] => Returned []
  | x :: rest =>
      obind (f x) (fun y => obind (traverse f rest) (fun ys => Returned (y :: ys)))
  end.

(** *** [pd.json_normalize] *)

(** One record, flattened: a nested object contributes its fields under
    the dotted path, any other value stays as it is. *)
Fixpoint flatten_value (name : string) (v : json) : list (string * json) :=
  match v with
  | JObj sub =>
      (fix go (fs : list (string * json)) : list (string * json) :=
         match fs with
         | [] => []
         | (k, w) :: rest => flatten_value (name +:+ "." +:+ k) w ++ go rest
         end) sub
  | _ => [(name, v)]
  end.

Definition flatten_record (fields : list (string * json)) : list (string * json) :=
  flat_map (fun kv => flatten_value (fst kv) (snd kv)) fields.

(** The records handed to [json_normalize] are JSON objects; on anything
    else it fails while looking for the record's values. *)
Definition as_record (j : json) : outcome (list (string * json)) :=
  match j with
  | JObj fields => Returned (flatten_record fields)
  | _ => Raised AttributeError
  end.

(** The labels of a list, each once, in the order of first appearance. *)
Fixpoint first_seen (seen : list string) (l : list string) : list string :=
  match l with
  | [] => []
  | x :: rest =>
      if bool_decide (x ∈ seen) then first_seen seen rest
      else x :: first_seen (x :: seen) rest
  end.

Definition cell_of (v : option json) : cell :=
  match v with
  | Some j => Val j
  | None => NaN
  end.

(** [pd.DataFrame(records)] on a list of dicts: one column per key, one
    row per dict, [NaN] where a dict lacks the key. *)
Definition frame_of_records (records : list (list (string * json))) : DataFrame :=
  let names := first_seen [] (flat_map (map fst) records) in
  mkDF (length records)
       (map (fun n => (n, map (fun r => cell_of (assoc n (reverse r))) records))
            names).

Definition json_normalize (data : list json) : outcome DataFrame :=
  match data with
  | [] => Returned empty_frame
  | _ => obind (traverse as_record data) (fun records =>
         Returned (frame_of_records records))
  end.

(** *** Selecting, renaming, dropping and setting columns *)

(** [df[name]]: the column with that label.  (Where a label repeats,
    pandas hands back all the columns that carry it; the notebook indexes
    no repeated label, and the first such column stands for them here.) *)
Definition getitem_col (name : string) (df : DataFrame) : outcome (list cell) :=
  match assoc name (cols df) with
  | Some c => Returned c
  | None => Raised (KeyError name)
  end.

(** [df.name]: the same column by attribute access. *)
Definition getattr_col (name : string) (df : DataFrame) : outcome (list cell) :=
  match assoc name (cols df) with
  | Some c => Returned c
  | None => Raised AttributeError
  end.

(** [df[names]] with a list of labels: for each label in turn, every
    column that carries it; a label the frame lacks is a [KeyError]. *)
Definition getitem_list (names : list string) (df : DataFrame) : outcome DataFrame :=
  match filter (fun n => n ∉ columns df) names with
  | missing :: _ => Raised (KeyError missing)
  | [] =>
      Returned (mkDF (nrows df)
        (flat_map (fun n => filter (fun c => fst c = n) (cols df)) names))
  end.

(** [df.rename(columns=d)]: every label that is a key of [d] is replaced,
    the others stay; no column is added, removed or merged. *)
Definition rename (d : gmap string string) (df : DataFrame) : DataFrame :=
  mkDF (nrows df)
       (map (fun c => (default (fst c) (d !! fst c), snd c)) (cols df)).

(** [df.drop(names, axis=1)]. *)
Definition drop (names : list string) (df : DataFrame) : outcome DataFrame :=
  match filter (fun n => n ∉ columns df) names with
  | missing :: _ => Raised (KeyError missing)
  | [] => Returned (mkDF (nrows df) (filter (fun c => fst c ∉ names) (cols df)))
  end.

(** [df[name] = values]: replaces the column of that label, or appends a
    new last column. *)
Definition setitem (name : string) (values : list cell) (df : DataFrame) : DataFrame :=
  if bool_decide (name ∈ columns df)
  then mkDF (nrows df)
            (map (fun c => if bool_decide (fst c = name) then (name, values) else c)
                 (cols df))
  else mkDF (nrows df) (cols df ++ [(name, values)]).

(** [df.values.tolist()]: the rows. *)
Definition values_tolist (df : DataFrame) : list (list cell) :=
  map (fun i => map (fun c => nth i (snd c) NaN) (cols df)) (seq 0 (nrows df)).

(** [df = pd.DataFrame(rows); df.columns = names]: the frame of a list of
    rows takes its width from the longest row, shorter rows being padded
    with [None]; assigning labels of another length is a [ValueError]. *)
Definition frame_of_rows (names : list string) (rows : list (list cell))
  : outcome DataFrame :=
  let width := foldr (fun r w => Nat.max (length r) w) 0%nat rows in
  if bool_decide (width = length names)
  then Returned (mkDF (length rows)
         (imap (fun i n => (n, map (fun r => nth i r (Val JNull)) rows)) names))
  else Raised ValueError.

(** *** [pd.merge(left, right, how='left', left_on=..., right_on=...)] *)

(** Two key cells join when they are equal; pandas also joins a null key
    with a null key. *)
Definition key_match (a b : cell) : bool :=
  (isnull a && isnull b) || cell_eqb a b.

(** The positions of the right keys that join with [a], in order. *)
Definition matches (a : cell) (right_keys : list cell) : list nat :=
  map fst (filter (fun jb => key_match a (snd jb) = true)
                  (imap (fun j b => (j, b)) right_keys)).

(** The row pairs of a left join: every left row in order, once per
    joining right row, or once with no partner. *)
Definition left_join_pairs (left_keys right_keys : list cell)
  : list (nat * option nat) :=
  flat_map (fun ia =>
              match matches (snd ia) right_keys with
              | [] => [(fst ia, None)]
              | js => map (fun j => (fst ia, Some j)) js
              end)
           (imap (fun i a => (i, a)) left_keys).

Definition take_left (pairs : list (nat * option nat)) (c : list cell) : list cell :=
  map (fun p => nth (fst p) c NaN) pairs.

Definition take_right (pairs : list (nat * option nat)) (c : list cell) : list cell :=
  map (fun p => match snd p with
                | Some j => nth j c NaN
                | None => NaN
                end) pairs.

(** A label present on both sides gets the suffix [_x] on the left and
    [_y] on the right; both key columns are kept. *)
(** *** The key check of [pd.merge]

    Before it joins, [pd.merge] compares the dtypes of the two key
    columns, and raises [ValueError] ("You are trying to merge on int64
    and object columns") when one is a column of numbers and the other a
    column of objects that are no numbers.  The dtype of a column is the
    one that the [DataFrame] constructor inferred from its values; every
    table of the notebook is made by that constructor. *)
Inductive dtype : Type :=
| NumberDtype       (* int64 or float64 *)
| BoolDtype
| ObjectDtype.

Definition is_nan_cell (x : cell) : bool :=
  match x with
  | NaN => true
  | _ => false
  end.

Definition is_bool_cell (x : cell) : bool :=
  match x with
  | Val (JBool _) => true
  | _ => false
  end.

Definition is_int_cell (x : cell) : bool :=
  match x with
  | Val (JNum _) => true
  | _ => false
  end.

Definition is_str_cell (x : cell) : bool :=
  match x with
  | Val (JStr _) => true
  | _ => false
  end.

Definition int64_cell (x : cell) : bool :=
  match x with
  | Val (JNum z) => (- 9223372036854775808 <=? z) && (z <=? 9223372036854775807)
  | _ => false
  end.

(** The inferred dtype:
    - booleans and nothing else: [bool];
    - integers, with or without missing values, or missing values of
      which one at least is [NaN]: [int64] or [float64];
    - anything else: [object].  That is a column with a string, a list or
      a dict in it, booleans mixed with other values, [None] and nothing
      else, or no cell at all; an integer beyond the int64 range, which
      Jira does not send, is taken to make an object column too. *)
Definition dtype_of (c : list cell) : dtype :=
  if negb (Nat.eqb (length c) 0) && forallb is_bool_cell c then BoolDtype
  else if forallb (fun x => isnull x || int64_cell x) c
          && existsb (fun x => is_nan_cell x || is_int_cell x) c
       then NumberDtype
       else ObjectDtype.

(** The check.  Two columns of one dtype pass, and so does a boolean
    column with any other.  A column of numbers and a column of objects
    pass when the object column is empty or has an integer in it (pandas
    then calls its content 'integer' or 'mixed-integer'), and fail when
    it has none (its content is 'string' or 'mixed'). *)
Definition merge_keys_compatible (left_keys right_keys : list cell) : bool :=
  match dtype_of left_keys, dtype_of right_keys with
  | NumberDtype, ObjectDtype =>
      Nat.eqb (length right_keys) 0 || existsb is_int_cell right_keys
  | ObjectDtype, NumberDtype =>
      Nat.eqb (length left_keys) 0 || existsb is_int_cell left_keys
  | _, _ => true
  end.

(** The merge: the key columns are looked up ([KeyError]), then checked
    ([ValueError]), then joined. *)
Definition merge_left (left right : DataFrame) (left_on right_on : string)
  : outcome DataFrame :=
  obind (getitem_col left_on left) (fun left_keys =>
  obind (getitem_col right_on right) (fun right_keys =>
  if merge_keys_compatible left_keys right_keys
  then
    let pairs := left_join_pairs left_keys right_keys in
    let overlap n :=
      bool_decide (n ∈ columns left) && bool_decide (n ∈ columns right) in
    Returned (mkDF (length pairs)
      (map (fun c => (if overlap (fst c) then fst c +:+ "_x" else fst c,
                      take_left pairs (snd c))) (cols left)
       ++
       map (fun c => (if overlap (fst c) then fst c +:+ "_y" else fst c,
                      take_right pairs (snd c))) (cols right)))
  else Raised ValueError)).

(** *** Cell-wise updates *)

(** [df.loc[df[target].isnull(), target] = df[source]]: where the target
    cell is null it takes the source cell of the same row. *)
Definition loc_fill_from (target source : string) (df : DataFrame)
  : outcome DataFrame :=
  obind (getitem_col target df) (fun tgt =>
  obind (getitem_col source df) (fun src =>
  Returned (setitem target
              (zip_with (fun t s => if isnull t then s else t) tgt src) df))).

(** [df.name = df.name.fillna(value)]. *)
Definition fillna_attr (name : string) (value : cell) (df : DataFrame)
  : outcome DataFrame :=
  obind (getattr_col name df) (fun c =>
  Returned (setitem name (map (fun x => if isnull x then value else x) c) df)).

(** [df[name] = df[name].apply(f)]. *)
Definition apply_col (name : string) (f : cell -> outcome cell) (df : DataFrame)
  : outcome DataFrame :=
  obind (getitem_col name df) (fun c =>
  obind (traverse f c) (fun c' => Returned (setitem name c' df))).

(** *** Row filters and grouping *)

Fixpoint pick {A} (mask : list bool) (l : list A) : list A :=
  match mask, l with
  | true :: mask', x :: l' => x :: pick mask' l'
  | false :: mask', _ :: l' => pick mask' l'
  | _, _ => []
  end.

Definition filter_rows (mask : list bool) (df : DataFrame) : DataFrame :=
  mkDF (length (pick mask (seq 0 (nrows df))))
       (map (fun c => (fst c, pick mask (snd c))) (cols df)).

(** [df.query("name != 'value'")]: a missing cell differs from every
    string, so its row stays. *)
Definition query_ne (name value : string) (df : DataFrame) : outcome DataFrame :=
  match assoc name (cols df) with
  | Some c =>
      Returned (filter_rows (map (fun x => negb (cell_eqb x (str_cell value))) c) df)
  | None => Raised (NameError name)
  end.

(** The order in which pandas lists the groups: strings by code point,
    numbers by value. *)
Definition cell_leb (a b : cell) : bool :=
  match a, b with
  | Val (JStr x), Val (JStr y) => String.leb x y
  | Val (JNum x), Val (JNum y) => Z.leb x y
  | _, _ => true
  end.

Fixpoint keys_leb (a b : list cell) : bool :=
  match a, b with
  | x :: a', y :: b' =>
      if cell_eqb x y then keys_leb a' b' else cell_leb x y
  | _, _ => true
  end.

Fixpoint keys_eqb (a b : list cell) : bool :=
  match a, b with
  | [], [] => true
  | x :: a', y :: b' => cell_eqb x y && keys_eqb a' b'
  | _, _ => false
  end.

Fixpoint insert_key (k : list cell) (sorted : list (list cell)) : list (list cell) :=
  match sorted with
  | [] => [k]
  | k' :: rest =>
      if keys_eqb k k' then sorted
      else if keys_leb k k' then k :: sorted
      else k' :: insert_key k rest
  end.

(** The distinct group keys, sorted. *)
Definition group_keys (keys : list (list cell)) : list (list cell) :=
  foldl (fun acc k => insert_key k acc) [] keys.

(** The ['sum'] aggregate: null cells are skipped, so they add nothing. *)
Fixpoint agg_sum (values : list cell) : outcome Z :=
  match values with
  | [] => Returned 0
  | x :: rest =>
      obind (agg_sum rest) (fun s =>
      if isnull x then Returned s
      else match x with
           | Val (JNum z) => Returned (z + s)
           | _ => Raised TypeError
           end)
  end.

(** The ['count'] aggregate: the number of cells that are not null. *)
Definition agg_count (values : list cell) : Z :=
  Z.of_nat (length (filter (fun x => isnull x = false) values)).

(** The cells of row [i] in the given columns. *)
Definition row_key (key_cols : list (list cell)) (i : nat) : list cell :=
  map (fun c => nth i c NaN) key_cols.

(** [df.groupby(keys)[value].agg(storypoints='sum',
    issue_count='count').reset_index()].  A row with a null cell in one
    of the key columns belongs to no group. *)
Definition groupby_sum_count (keys : list string) (value : string)
    (sum_name count_name : string) (df : DataFrame) : outcome DataFrame :=
  obind (traverse (fun k => getitem_col k df) keys) (fun key_cols =>
  obind (getitem_col value df) (fun vals =>
  let rows :=
    filter (fun kv => forallb (fun x => negb (isnull x)) (fst kv) = true)
           (map (fun i => (row_key key_cols i, nth i vals NaN))
                (seq 0 (nrows df))) in
  let groups := group_keys (map fst rows) in
  let members g := map snd (filter (fun kv => keys_eqb (fst kv) g = true) rows) in
  obind (traverse (fun g => agg_sum (members g)) groups) (fun sums =>
  Returned (mkDF (length groups)
    (imap (fun j k => (k, map (fun g => nth j g NaN) groups)) keys
     ++ [ (sum_name, map (fun s => Val (JNum s)) sums);
          (count_name, map (fun g => Val (JNum (agg_count (members g)))) groups) ]))))).

(** ** The field whitelist and the column names *)

Definition RELEVANT_FIELDS : list string :=
  [ "fields.project.name";
    "fields.project.id";
    "id";
    "key";
    "fields.summary";
    "fields.description";
    "fields.issuetype.name";
    "fields.customfield_10011";
    "fields.customfield_10017";
    "fields.created";
    "fields.status.name";
    "fields.status.statusCategory.key";
    "fields.status.statusCategory.name";
    "fields.status.statusCategory.colorName";
    "fields.priority.name";
    "fields.customfield_10026";
    "fields.creator.displayName";
    "fields.assignee.displayName";
    "fields.reporter.displayName";
    "fields.issuetype.subtask";
    "fields.fixVersions";
    "fields.parent.id";
    "fields.parent.key";
    "fields.parent.fields.summary";
    "fields.parent.fields.status.name";
    "fields.parent.fields.status.statusCategory.key";
    "fields.parent.fields.status.statusCategory.name";
    "fields.parent.fields.status.statusCategory.colorName";
    "fields.parent.fields.priority.name";
    "fields.parent.fields.issuetype.name";
    "fields.parent.fields.issuetype.subtask";
    "fields.aggregatetimespent";
    "fields.resolution";
    "fields.resolutiondate";
    "fields.lastViewed";
    "fields.labels";
    "fields.aggregatetimeoriginalestimate";
    "fields.aggregatetimeestimate";
    "fields.timeestimate";
    "fields.updated";
    "fields.aggregateprogress.progress";
    "fields.aggregateprogress.total";
    "fields.aggregateprogress.percent";
    "fields.progress.percent";
    "fields.timeoriginalestimate";
    "fields.duedate";
    "fields.progress.progress";
    "fields.progress.total";
    "fields.resolution.name";
    "fields.statuscategorychangedate";
    "fields.status.statusCategory.colorName" ].

Definition COLUMN_NAME_BINDINGS : list (string * string) :=
  [ ("fields.project.name", "project_name");
    ("fields.project.id", "project_id");
    ("id", "issue_id");
    ("key", "issue_key");
    ("fields.summary", "summary");
    ("fields.description", "description");
    ("fields.issuetype.name", "issuetype");
    ("fields.customfield_10011", "epic_name");
    ("fields.customfield_10017", "epic_color");
    ("fields.created", "created");
    ("fields.status.name", "status");
    ("fields.status.statusCategory.key", "status_cat_key");
    ("fields.status.statusCategory.name", "status_cat_name");
    ("fields.status.statusCategory.colorName", "status_cat_color");
    ("fields.priority.name", "prio");
    ("fields.customfield_10026", "storypoints");
    ("fields.creator.displayName", "creator");
    ("fields.assignee.displayName", "assignee");
    ("fields.reporter.displayName", "reporter");
    ("fields.issuetype.subtask", "is_subtask");
    ("fields.fixVersions", "fix_versions");
    ("fields.parent.id", "parent_id");
    ("fields.parent.key", "parent_key");
    ("fields.parent.fields.summary", "parent_summary");
    ("fields.parent.fields.status.name", "parent_status");
    ("fields.parent.fields.status.statusCategory.key", "parent_status_cat_key");
    ("fields.parent.fields.status.statusCategory.name", "parent_status_cat");
    ("fields.parent.fields.status.statusCategory.colorName", "parent_status_cat_color");
    ("fields.parent.fields.priority.name", "parent_prio");
    ("fields.parent.fields.issuetype.name", "parent_issuetype");
    ("fields.parent.fields.issuetype.subtask", "parent_is_subtask");
    ("fields.aggregatetimespent", "aggregatetimespent");
    ("fields.resolution", "resolution");
    ("fields.resolutiondate", "resolution_date");
    ("fields.lastViewed", "last_viewed");
    ("fields.labels", "labels");
    ("fields.aggregatetimeoriginalestimate", "aggregatetimeoriginalestimate");
    ("fields.aggregatetimeestimate", "aggregatetimeestimate");
    ("fields.timeestimate", "timeestimate");
    ("fields.updated", "updated");
    ("fields.aggregateprogress.progress", "aggregateprogress");
    ("fields.aggregateprogress.total", "aggregateprogress_total");
    ("fields.aggregateprogress.percent", "aggregateprogress_percent");
    ("fields.progress.percent", "progress_percent");
    ("fields.timeoriginalestimate", "timeoriginalestimate");
    ("fields.duedate", "duedate");
    ("fields.progress.progress", "progress");
    ("fields.progress.total", "progress_total");
    ("fields.resolution.name", "resolution");
    ("fields.statuscategorychangedate", "status_cat_changedate");
    ("fields.status.statusCategory.colorName", "status_cat_color") ].

Definition COLUMN_NAME_DICT : gmap string string :=
  dict_literal COLUMN_NAME_BINDINGS.

(** ** The issue-enhancement cell *)

(** [df_issues[df_issues.columns[df_issues.columns.isin(RELEVANT_FIELDS)]]]:
    the labels that are in the whitelist, then a selection by those
    labels. *)
Definition project_fields (df : DataFrame) : outcome DataFrame :=
  getitem_list (filter (fun n => n ∈ RELEVANT_FIELDS) (columns df)) df.

(** The first two lines of the cell: projection, then
    [rename(columns=COLUMN_NAME_DICT, inplace=True)]. *)
Definition project_rename (df : DataFrame) : outcome DataFrame :=
  obind (project_fields df) (fun projected =>
  Returned (rename COLUMN_NAME_DICT projected)).

(** The three literal arguments of the epic lines: the columns of
    [df_epics], the columns dropped after the join, and the renaming
    that follows. *)
Definition EPIC_FIELDS : list string := ["issue_id"; "epic_name"; "epic_color"].

Definition EPIC_DROPPED : list string :=
  ["issue_id_y"; "epic_name_y"; "epic_color_y"].

Definition EPIC_RENAMES : gmap string string :=
  dict_literal [ ("issue_id_x", "issue_id");
                 ("epic_name_x", "epic_name");
                 ("epic_color_x", "epic_color") ].

(** The epic lines of the cell, on the projected and renamed table. *)
Definition epic_backfill (df_issues_enhanced : DataFrame) : outcome DataFrame :=
  obind (getitem_list EPIC_FIELDS df_issues_enhanced) (fun df_epics =>
  obind (merge_left df_issues_enhanced df_epics "parent_id" "issue_id") (fun df1 =>
  obind (loc_fill_from "epic_name_x" "epic_name_y" df1) (fun df2 =>
  obind (loc_fill_from "epic_color_x" "epic_color_y" df2) (fun df3 =>
  obind (drop EPIC_DROPPED df3) (fun df4 =>
  let df5 := rename EPIC_RENAMES df4 in
  fillna_attr "epic_name" (str_cell "No Epic") df5))))).

Definition color_replace (x : cell) : outcome cell :=
  obind (color_get x) (fun colour => Returned (str_cell colour)).

(** The colour lines of the cell. *)
Definition replace_colors (df : DataFrame) : outcome DataFrame :=
  obind (apply_col "epic_color" color_replace df) (fun df1 =>
  obind (apply_col "status_cat_color" color_replace df1) (fun df2 =>
  apply_col "parent_status_cat_color" color_replace df2)).

(** The whole cell, from the fetched [df_issues] to [df_issues_enhanced]. *)
Definition enhance_issues (df_issues : DataFrame) : outcome DataFrame :=
  obind (project_rename df_issues) (fun df1 =>
  obind (epic_backfill df1) replace_colors).

(** ** The aggregation cells *)

(** [df.query("issuetype != 'Epic'")[fields].groupby(keys)['storypoints']
    .agg(storypoints='sum', issue_count='count').reset_index()]. *)
Definition storypoints_per (fields keys : list string) (df_issues_enhanced : DataFrame)
  : outcome DataFrame :=
  obind (query_ne "issuetype" "Epic" df_issues_enhanced) (fun no_epics =>
  obind (getitem_list fields no_epics) (fun selected =>
  groupby_sum_count keys "storypoints" "storypoints" "issue_count" selected)).

Definition df_issues_per_type : DataFrame -> outcome DataFrame :=
  storypoints_per ["issuetype"; "status_cat_name"; "storypoints"; "prio"]
                  ["issuetype"; "status_cat_name"; "prio"].

Definition df_issues_per_epic : DataFrame -> outcome DataFrame :=
  storypoints_per ["issuetype"; "epic_name"; "status_cat_name"; "storypoints"; "prio"]
                  ["issuetype"; "epic_name"; "status_cat_name"; "prio"].

Definition df_issues_per_project : DataFrame -> outcome DataFrame :=
  storypoints_per ["project_name"; "issuetype"; "status_cat_name"; "storypoints"]
                  ["project_name"; "issuetype"; "status_cat_name"].

(** ** The paginated fetchers *)

(** [str(x)] as an f-string renders an id.  Ids are scalars; a list or a
    dict, which no id column holds, is rendered by a fixed text. *)
Definition py_format (x : cell) : string :=
  match x with
  | NaN => "nan"
  | Val JNull => "None"
  | Val (JBool true) => "True"
  | Val (JBool false) => "False"
  | Val (JNum z) => pretty z
  | Val (JStr s) => s
  | Val (JArr _) => "[...]"
  | Val (JObj _) => "{...}"
  end.

(** [type(response) is requests.exceptions.HTTPError]. *)
Definition is_requests_HTTPError (response : reply_value) : bool :=
  match response with
  | ExcObj (RequestsHTTPError _) => true
  | _ => false
  end.

Section Fetchers.

Variable cfg : config.
Variable requests_get : request -> http_reply.

(** The [while has_next] loop that the six fetchers share.  They differ
    in the path, in the key of the result array, in the extra query
    parameter, and in two more respects:
    - [guarded]: [jira_get_sprints], [jira_get_backlog_issues] and
      [jira_get_sprint_issues] test
      [type(response) is not requests.exceptions.HTTPError] and [break]
      otherwise; [jira_get_issues], [jira_get_all_projects] and
      [jira_get_boards] have no such test;
    - [json_bound]: [jira_get_backlog_issues] has no [import json], and
      the notebook imports [json] nowhere at top level, so the name is
      unbound in that function.
    When a page is empty [has_next] becomes false and the loop ends
    after the offset has been advanced once more. *)
Fixpoint fetch_pages (fuel : nat) (guarded json_bound : bool)
    (path key : string) (extra : list (string * json)) (block_size : Z)
    (all_items : list json) (start_position : Z) : M (list json) :=
  match fuel with
  | O => out_of_fuel
  | S fuel' =>
      let params :=
        [ ("startAt", JNum start_position); ("maxResults", JNum block_size) ]
        ++ extra in
      response <- jira_auth_get_connect cfg requests_get path (Some params) None ;;
      if guarded && is_requests_HTTPError response
      then ret all_items                                   (* break *)
      else
        items_in_block <-
          lift (if json_bound
                then obind (get_text response) (fun t =>
                     obind (json_loads t) (fun doc => getitem doc key))
                else Raised (NameError "json")) ;;
        all_items' <- lift (extend all_items items_in_block) ;;
        n <- lift (py_len items_in_block) ;;
        if Nat.eqb n 0
        then ret all_items'                                (* has_next = False *)
        else fetch_pages fuel' guarded json_bound path key extra block_size
                         all_items' (start_position + block_size)
  end.

(** One fetcher: the loop from offset 0 with an empty accumulator, then
    [pd.json_normalize]. *)
Definition fetch_frame (fuel : nat) (guarded json_bound : bool)
    (path key : string) (extra : list (string * json)) (block_size : Z)
  : M DataFrame :=
  all_items <- fetch_pages fuel guarded json_bound path key extra block_size [] 0 ;;
  lift (json_normalize all_items).

Definition jira_get_issues (fuel : nat) (jql : string) : M DataFrame :=
  fetch_frame fuel false true "/rest/api/latest/search" "issues"
    (if String.eqb jql "" then [] else [("jql", JStr jql)]) 100.

Definition jira_get_all_projects (fuel : nat) : M DataFrame :=
  fetch_frame fuel false true "/rest/api/latest/project/search" "values" [] 100.

Definition jira_get_boards (fuel : nat) (project_key : string) : M DataFrame :=
  fetch_frame fuel false true "/rest/agile/1.0/board" "values"
    (if String.eqb project_key "" then []
     else [("projectKeyOrId", JStr project_key)]) 100.

Definition jira_get_sprints (fuel : nat) (board_id : cell) : M DataFrame :=
  fetch_frame fuel true true
    ("/rest/agile/1.0/board/" +:+ py_format board_id +:+ "/sprint")
    "values" [] 100.

Definition jira_get_backlog_issues (fuel : nat) (board_id : cell) : M DataFrame :=
  fetch_frame fuel true false
    ("/rest/agile/1.0/board/" +:+ py_format board_id +:+ "/backlog")
    "issues" [] 100.

Definition jira_get_sprint_issues (fuel : nat) (sprint_id : cell) : M DataFrame :=
  fetch_frame fuel true true
    ("/rest/agile/1.0/sprint/" +:+ py_format sprint_id +:+ "/issue")
    "issues" [] 100.

(** *** The board-issues assembly *)

Definition BOARD_ISSUE_FIELDS : list string :=
  [ "id"; "key"; "fields.project.name"; "fields.project.id";
    "fields.issuetype.name"; "fields.status.name";
    "fields.status.statusCategory.name"; "fields.priority.name";
    "fields.customfield_10026" ].

Definition BOARD_ISSUE_COLUMNS : list string :=
  [ "issue_id"; "issue_key"; "project_name"; "project_id"; "issuetype";
    "status"; "status_cat_name"; "prio"; "storypoints"; "sprint_id" ].

(** The [for sprint_id in sprint_ids] loop. *)
Fixpoint sprint_rows (fuel : nat) (sprint_ids : list cell)
    (issue_rows : list (list cell)) : M (list (list cell)) :=
  match sprint_ids with
  | [] => ret issue_rows
  | sprint_id :: rest =>
      fetched <- jira_get_sprint_issues fuel sprint_id ;;
      df_issues <- lift (getitem_list BOARD_ISSUE_FIELDS fetched) ;;
      let df_issues :=
        setitem "sprint" (replicate (nrows df_issues) sprint_id) df_issues in
      sprint_rows fuel rest (issue_rows ++ values_tolist df_issues)
  end.

Definition jira_get_board_issues (fuel : nat) (board_id : cell) : M DataFrame :=
  df_all_sprints <- jira_get_sprints fuel board_id ;;
  sprint_ids <- lift (getattr_col "id" df_all_sprints) ;;
  issue_rows <- sprint_rows fuel sprint_ids [] ;;
  df_board_issues <- lift (frame_of_rows BOARD_ISSUE_COLUMNS issue_rows) ;;
  merged <- lift (merge_left df_board_issues df_all_sprints "sprint_id" "id") ;;
  dropped <- lift (drop ["id"; "self"; "goal"] merged) ;;
  ret (rename (dict_literal
                 [ ("name", "sprint_name"); ("state", "sprint_state");
                   ("startDate", "sprint_start_date");
                   ("endDate", "sprint_end_date");
                   ("completeDate", "sprint_complete_date");
                   ("originBoardId", "board_id") ]) dropped).

End Fetchers.

(** ** A server that pages through a fixed list of records

    The reply to a request with [startAt = k] and [maxResults = n] is a
    200 response whose document holds, under [key], the records from
    position [k] on, at most [n] of them. *)
Definition param_nat (name : string) (req : request) : nat :=
  match params req with
  | Some ps =>
      match assoc name ps with
      | Some (JNum z) => Z.to_nat z
      | _ => 0%nat
      end
  | None => 0%nat
  end.

Definition paging_server (key : string) (records : list json) (req : request)
  : http_reply :=
  Sent (mkResponse 200
          (Json (JObj [ (key, JArr (take (param_nat "maxResults" req)
                                         (List.skipn (param_nat "startAt" req) records))) ]))).

(** A configuration with all three values set. *)
Definition demo_config : config :=
  mkConfig (Some "me@example.org") (Some "secret") (Some "https://jira.example.org").

(** ** Vocabulary of the statements *)

(** The page that an exchange carried under [key], if its reply was a
    response with a JSON document holding a list there. *)
Definition page_of (key : string) (e : exchange) : option (list json) :=
  match snd e with
  | Sent r =>
      match text r with
      | Json doc =>
          match getitem doc key with
          | Returned (JArr items) => Some items
          | _ => None
          end
      | Garbage _ => None
      end
  | Failed _ => None
  end.

(** The [startAt] offset that an exchange asked for. *)
Definition offset_of (e : exchange) : option Z :=
  match params (fst e) with
  | Some ps =>
      match assoc "startAt" ps with
      | Some (JNum z) => Some z
      | _ => None
      end
  | None => None
  end.

Definition is_object (j : json) : Prop :=
  match j with
  | JObj _ => True
  | _ => False
  end.

(** The query parameters of the request for the page at offset [k]. *)
Definition page_params (extra : list (string * json)) (block_size k : Z)
  : list (string * json) :=
  [ ("startAt", JNum k); ("maxResults", JNum block_size) ] ++ extra.

(** The server holds [R] records behind [path]: the request client's call
    for the page at offset [k] comes back with a response whose document
    has, under [key], a list of [min(N, max(0, R - k))] records. *)
Definition serves (cfg : config) (requests_get : request -> http_reply)
    (path key : string) (extra : list (string * json)) (N R : Z) : Prop :=
  forall k, 0 <= k ->
    exists r doc page,
      result (jira_auth_get_connect cfg requests_get path
                (Some (page_params extra N k)) None) = Returned (RespObj r)
      /\ text r = Json doc
      /\ getitem doc key = Returned (JArr page)
      /\ Forall is_object page
      /\ length page = Z.to_nat (Z.min N (Z.max 0 (R - k))).

(** The number of pages that hold at least one of [R] records. *)
Definition full_or_partial_pages (N R : Z) : nat := Z.to_nat ((R + N - 1) / N).

(** The labels that the renamer gives out. *)
Definition OUTPUT_NAMES : list string := map snd COLUMN_NAME_BINDINGS.

(** The epic name of an output row of the backfill that stems from issue
    row [i] joined with the parent row [m], in terms of the epic names
    the table had before. *)
Definition backfilled (names : list cell) (p : nat * option nat) : cell :=
  let own := nth (fst p) names NaN in
  let inherited :=
    match snd p with
    | Some j => nth j names NaN
    | None => NaN
    end in
  if isnull own
  then if isnull inherited then str_cell "No Epic" else inherited
  else own.

(** The label that the join of the epic lines gives to a column of its
    left side and to a column of its right side. *)
Definition left_label (n : string) : string :=
  if bool_decide (n ∈ EPIC_FIELDS) then n +:+ "_x" else n.

Definition right_label (n : string) : string := n +:+ "_y".

(** ** Sample data *)

Definition three_issues : list json :=
  [ JObj [("id", JStr "10001")]; JObj [("id", JStr "10002")];
    JObj [("id", JStr "10003")] ].

(** A server that answers every request with the given status and a text
    that is not JSON. *)
Definition failing_server (status : Z) (req : request) : http_reply :=
  Sent (mkResponse status (Garbage "Internal Server Error")).

(** A transport that cannot reach the server. *)
Definition unreachable_server (req : request) : http_reply :=
  Failed (RequestsError "ConnectionError").

(** A fetched table in which some issues are resolved and some are not:
    flattening then yields both [fields.resolution] (the unresolved
    issues' [null]) and [fields.resolution.name]. *)
Definition mixed_resolution_table : DataFrame :=
  mkDF 2
    [ ("id", [str_cell "10001"; str_cell "10002"]);
      ("self", [str_cell "https://jira.example.org/rest/api/2/issue/10001";
                str_cell "https://jira.example.org/rest/api/2/issue/10002"]);
      ("fields.resolution", [Val JNull; NaN]);
      ("fields.resolution.name", [NaN; str_cell "Done"]) ].

(** Three estimated issues: two done tasks of 3 and 2 points and a done
    bug of 1 point. *)
Definition estimated_table : DataFrame :=
  mkDF 3
    [ ("issuetype", [str_cell "Task"; str_cell "Task"; str_cell "Bug"]);
      ("status_cat_name", [str_cell "Done"; str_cell "Done"; str_cell "Done"]);
      ("storypoints", [Val (JNum 3); Val (JNum 2); Val (JNum 1)]);
      ("prio", [str_cell "High"; str_cell "High"; str_cell "High"]) ].

(** Two done tasks of high priority, one estimated at 3 points and one
    without an estimate. *)
Definition unestimated_table : DataFrame :=
  mkDF 2
    [ ("issuetype", [str_cell "Task"; str_cell "Task"]);
      ("status_cat_name", [str_cell "Done"; str_cell "Done"]);
      ("storypoints", [Val (JNum 3); NaN]);
      ("prio", [str_cell "High"; str_cell "High"]) ].


(** A projected and renamed issue table: an epic, a story below it
    without an epic name of its own, a task without parent, and a story
    below the epic that has an epic name of its own. *)
Definition epic_table : DataFrame :=
  mkDF 4
    [ ("issue_id", [str_cell "10000"; str_cell "10001"; str_cell "10002";
                    str_cell "10003"]);
      ("issuetype", [str_cell "Epic"; str_cell "Story"; str_cell "Task";
                     str_cell "Story"]);
      ("epic_name", [str_cell "Feature X"; NaN; NaN; str_cell "Own Epic"]);
      ("epic_color", [str_cell "purple"; NaN; NaN; str_cell "green"]);
      ("status_cat_color", [str_cell "green"; str_cell "yellow";
                            str_cell "blue-gray"; str_cell "green"]);
      ("parent_id", [NaN; str_cell "10000"; NaN; str_cell "10000"]);
      ("parent_status_cat_color", [NaN; str_cell "green"; NaN; str_cell "green"]) ].

(** A server with one board, 7, that has one sprint, 32, which holds one
    estimated issue. *)
Definition busy_board_server (req : request) : http_reply :=
  if String.eqb (url req) "https://jira.example.org/rest/agile/1.0/board/7/sprint"
  then paging_server "values"
         [ JObj [ ("id", JNum 32);
                  ("self", JStr "https://jira.example.org/rest/agile/1.0/sprint/32");
                  ("state", JStr "active");
                  ("name", JStr "Sprint 1");
                  ("originBoardId", JNum 7);
                  ("goal", JStr "") ] ] req
  else paging_server "issues"
         [ JObj [ ("id", JStr "10001");
                  ("key", JStr "ABC-1");
                  ("fields",
                   JObj [ ("project", JObj [ ("name", JStr "abc"); ("id", JStr "10") ]);
                          ("issuetype", JObj [ ("name", JStr "Task") ]);
                          ("status",
                           JObj [ ("name", JStr "Done");
                                  ("statusCategory", JObj [ ("name", JStr "Done") ]) ]);
                          ("priority", JObj [ ("name", JStr "High") ]);
                          ("customfield_10026", JNum 3) ]) ] ] req.

(** The request client's call for the page at offset [k] comes back with
    a response whose document holds the list [page] under [key]. *)
Definition replies_with (cfg : config) (requests_get : request -> http_reply)
    (path key : string) (extra : list (string * json)) (N k : Z)
    (page : list json) : Prop :=
  exists r doc,
    result (jira_auth_get_connect cfg requests_get path
              (Some (page_params extra N k)) None) = Returned (RespObj r)
    /\ text r = Json doc
    /\ getitem doc key = Returned (JArr page).

(** A server that ignores the offset and sends the same one issue for
    every request. *)
Definition stubborn_server (req : request) : http_reply :=
  Sent (mkResponse 200
          (Json (JObj [ ("issues", JArr [ JObj [("id", JStr "10001")] ]) ]))).

(** A server that sends one full page of sprints and answers every later
    request with status 503. *)
Definition flaky_server (req : request) : http_reply :=
  if Nat.eqb (param_nat "startAt" req) 0
  then paging_server "values" (replicate 100 (JObj [("id", JNum 1)])) req
  else failing_server 503 req.

(** The colours that the colour lines can write: the values of
    [COLOR_DICT] and the default. *)
Definition DISPLAY_COLORS : list string :=
  [ "purple"; "darkblue"; "orange"; "grey"; "blue"; "gold"; "dodgerblue";
    "green"; "white" ].

(** The columns that the colour lines rewrite. *)
Definition COLOR_COLUMNS : list string :=
  [ "epic_color"; "status_cat_color"; "parent_status_cat_color" ].

(** An enhanced issue table of one project: an epic without estimate, two
    estimated stories that are done, and a task that has no status
    category. *)
Definition epic_project_table : DataFrame :=
  mkDF 4
    [ ("project_name", [str_cell "abc"; str_cell "abc"; str_cell "abc"; str_cell "abc"]);
      ("issuetype", [str_cell "Epic"; str_cell "Story"; str_cell "Story";
                     str_cell "Task"]);
      ("status_cat_name", [str_cell "To Do"; str_cell "Done"; str_cell "Done"; NaN]);
      ("storypoints", [NaN; Val (JNum 3); Val (JNum 5); Val (JNum 2)]) ].

(** The six whitelisted fields that the enhancement cell reads after the
    renaming, each with the name it is read by. *)
Definition ENHANCEMENT_INPUTS : list (string * string) :=
  [ ("id", "issue_id");
    ("fields.parent.id", "parent_id");
    ("fields.customfield_10011", "epic_name");
    ("fields.customfield_10017", "epic_color");
    ("fields.status.statusCategory.colorName", "status_cat_color");
    ("fields.parent.fields.status.statusCategory.colorName",
     "parent_status_cat_color") ].

(** A fetched issue table with the six fields: an epic and a story below
    it. *)
Definition fetched_epic_table : DataFrame :=
  mkDF 2
    [ ("id", [str_cell "10000"; str_cell "10001"]);
      ("self", [str_cell "https://jira.example.org/rest/api/latest/issue/10000";
                str_cell "https://jira.example.org/rest/api/latest/issue/10001"]);
      ("fields.issuetype.name", [str_cell "Epic"; str_cell "Story"]);
      ("fields.customfield_10011", [str_cell "Feature X"; NaN]);
      ("fields.customfield_10017", [str_cell "dark_blue"; NaN]);
      ("fields.status.statusCategory.colorName", [str_cell "green"; str_cell "yellow"]);
      ("fields.parent.id", [NaN; str_cell "10000"]);
      ("fields.parent.fields.status.statusCategory.colorName",
       [NaN; str_cell "green"]) ].

(** A server that sends one full page of sprints and then, with status
    200, a page of HTML. *)
Definition garbled_server (req : request) : http_reply :=
  if Nat.eqb (param_nat "startAt" req) 0
  then paging_server "values" (replicate 100 (JObj [("id", JNum 1)])) req
  else Sent (mkResponse 200 (Garbage "<html>Maintenance</html>")).


(** The ids as Jira sends them: every issue id is a string; every parent
    id is a string or missing, and one of them at least is a string. *)
Definition jira_ids (ids parents : list cell) : Prop :=
  Forall (fun x => is_str_cell x = true) ids
  /\ Forall (fun x => is_str_cell x || isnull x = true) parents
  /\ Exists (fun x => is_str_cell x = true) parents.

(** * Properties *)

Lemma COLOR_DICT_None (k : string) :
  k ∉ color_keywords -> COLOR_DICT !! k = None.
Proof.
  intros Hk. unfold COLOR_DICT, dict_literal.
  apply not_elem_of_list_to_map_1.
  intros Hin. apply Hk.
  rewrite list_elem_of_fmap in Hin. destruct Hin as [[k' v] [-> Hin]].
  rewrite elem_of_reverse in Hin. simpl in *.
  repeat (apply elem_of_cons in Hin as [Hin | Hin];
          [ inversion Hin; subst; unfold color_keywords;
            repeat ((apply list_elem_of_here) || (apply list_elem_of_further)) | ]).
  inversion Hin.
Qed.

(** C9, as amended: colour translation is total on the hashable values.
    The ten Jira keywords map to their fixed display colours; every
    other hashable value (another string, the empty string, a missing
    value, [None], a number, a boolean) maps to ['white']; and on a list
    or a dict the lookup raises [TypeError]. *)
Theorem color_translation_total :
  color_get (str_cell "purple") = Returned "purple" /\
  color_get (str_cell "dark_blue") = Returned "darkblue" /\
  color_get (str_cell "yellow") = Returned "orange" /\
  color_get (str_cell "grey") = Returned "grey" /\
  color_get (str_cell "dark_purple") = Returned "purple" /\
  color_get (str_cell "blue") = Returned "blue" /\
  color_get (str_cell "dark_orange") = Returned "orange" /\
  color_get (str_cell "dark_yellow") = Returned "gold" /\
  color_get (str_cell "blue-gray") = Returned "dodgerblue" /\
  color_get (str_cell "green") = Returned "green" /\
  color_get (str_cell "") = Returned "white" /\
  color_get NaN = Returned "white" /\
  color_get (Val JNull) = Returned "white" /\
  (forall x : cell,
      hashable x ->
      (forall k, k ∈ color_keywords -> x <> str_cell k) ->
      color_get x = Returned "white") /\
  (forall x : cell, ~ hashable x -> color_get x = Raised TypeError).
Proof.
  repeat (split; [ vm_compute; reflexivity | ]).
  split.
  - intros x Hhash Hx. destruct x as [ | j ]; [ reflexivity | ].
    destruct j; try reflexivity; try contradiction.
    unfold color_get. rewrite COLOR_DICT_None; [ reflexivity | ].
    intros Hin. exact (Hx s Hin eq_refl).
  - intros x Hx. destruct x as [ | j ]; [ exfalso; exact (Hx I) | ].
    destruct j; try reflexivity; exfalso; exact (Hx I).
Qed.

Lemma color_translation_total_witness :
  hashable (str_cell "magenta")
  /\ (forall k, k ∈ color_keywords -> str_cell "magenta" <> str_cell k)
  /\ color_get (str_cell "magenta") = Returned "white".
Proof.
  assert (H : forall k, k ∈ color_keywords -> str_cell "magenta" <> str_cell k).
  { intros k Hk Heq. inversion Heq; subst. revert Hk. vm_compute.
    intros Hk. repeat (apply elem_of_cons in Hk as [Hk | Hk]; [ discriminate Hk | ]).
    inversion Hk. }
  split; [ exact I | ]. split; [ exact H | ].
  destruct color_translation_total
    as (_ & _ & _ & _ & _ & _ & _ & _ & _ & _ & _ & _ & _ & Hother & _).
  exact (Hother (str_cell "magenta") I H).
Defined.

(** The claim as first stated fails: the translation is not total.  On a
    cell that holds a list, [COLOR_DICT.get] raises [TypeError] instead
    of giving ['white']. *)
Lemma color_of_a_list_raises :
  ~ returns (color_get (Val (JArr [])))
  /\ color_get (Val (JArr [])) = Raised TypeError.
Proof.
  split; [ | reflexivity ]. intros [v Hv]. discriminate Hv.
Qed.

(** ** The request client *)





(** ** The pagination loop *)

Lemma connect_one_exchange (cfg : config) (requests_get : request -> http_reply)
    (url_path : string)
    (param : option (list (string * json))) (body : option body_object)
    (v : reply_value) :
  result (jira_auth_get_connect cfg requests_get url_path param body) = Returned v ->
  exists req rep,
    exchanges (jira_auth_get_connect cfg requests_get url_path param body)
      = [(req, rep)]
    /\ params req = param
    /\ match v with
       | RespObj r => rep = Sent r
       | ExcObj _ => True
       end.
Proof.
  unfold jira_auth_get_connect, encode_utf8.
  destruct body as [[|e0]|]; destruct cfg as [[u|] [a|] [s|]];
    cbn [json_dumps lift bind str_add user apikey server result fst];
    try discriminate;
    (destruct (utf8_wellformed _); cbn [bind result fst]; try discriminate;
     destruct param as [ps|];
     (destruct (requests_get _) as [r|e];
      [ unfold raise_for_status;
        destruct ((400 <=? status_code r) && (status_code r <? 600));
        cbn [result exchanges fst snd app];
        intros [= <-]; eexists _, _; repeat split; reflexivity
      | destruct e; cbn [result exchanges fst snd app];
        intros [= <-]; eexists _, _; repeat split; reflexivity ])).
Qed.

Section Pagination.

Variable cfg : config.
Variable requests_get : request -> http_reply.
Variables (guarded : bool) (path key : string) (extra : list (string * json)).

Local Abbreviation connect N k :=
  (jira_auth_get_connect cfg requests_get path (Some (page_params extra N k)) None).

(** A page with at least one element: the loop goes on with the next
    offset, whatever the length of the page. *)
Lemma fetch_pages_nonempty (fuel : nat) (N k : Z) (acc : list json)
    (r : Response) (doc : json) (page : list json) :
  result (connect N k) = Returned (RespObj r) ->
  text r = Json doc ->
  getitem doc key = Returned (JArr page) ->
  page <> [] ->
  fetch_pages cfg requests_get (S fuel) guarded true path key extra N acc k
  = (result (fetch_pages cfg requests_get fuel guarded true path key extra N
               (acc ++ page) (k + N)),
     exchanges (connect N k)
     ++ exchanges (fetch_pages cfg requests_get fuel guarded true path key extra N
                     (acc ++ page) (k + N))).
Proof.
  intros Hres Htext Hget Hne.
  cbn [fetch_pages]. fold (page_params extra N k).
  destruct (connect N k) as [res log]. simpl in Hres. subst res.
  cbn [bind result exchanges fst snd].
  replace (guarded && is_requests_HTTPError (RespObj r)) with false
    by (destruct guarded; reflexivity).
  cbn [get_text obind]. rewrite Htext. cbn [json_loads obind]. rewrite Hget.
  cbn [lift bind extend py_len].
  destruct page as [|x page']; [ congruence | ].
  cbn [length Nat.eqb].
  destruct (fetch_pages cfg requests_get fuel guarded true path key extra N
              (acc ++ x :: page') (k + N)) as [res' log'].
  simpl. rewrite ?app_nil_r. reflexivity.
Qed.

(** An empty page ends the loop. *)
Lemma fetch_pages_empty (fuel : nat) (N k : Z) (acc : list json)
    (r : Response) (doc : json) :
  result (connect N k) = Returned (RespObj r) ->
  text r = Json doc ->
  getitem doc key = Returned (JArr []) ->
  fetch_pages cfg requests_get (S fuel) guarded true path key extra N acc k
  = (Returned acc, exchanges (connect N k)).
Proof.
  intros Hres Htext Hget.
  cbn [fetch_pages]. fold (page_params extra N k).
  destruct (connect N k) as [res log]. simpl in Hres. subst res.
  cbn [bind result exchanges fst snd].
  replace (guarded && is_requests_HTTPError (RespObj r)) with false
    by (destruct guarded; reflexivity).
  cbn [get_text obind]. rewrite Htext. cbn [json_loads obind]. rewrite Hget.
  simpl. rewrite ?app_nil_r. reflexivity.
Qed.

Lemma pages_zero (N a : Z) : 0 < N -> a <= 0 -> full_or_partial_pages N (Z.max 0 a) = 0%nat.
Proof.
  intros HN Ha. unfold full_or_partial_pages.
  replace (Z.max 0 a) with 0 by lia.
  rewrite Z.div_small by lia. reflexivity.
Qed.

Lemma pages_succ (N a : Z) :
  0 < N -> 0 < a ->
  full_or_partial_pages N (Z.max 0 a)
  = S (full_or_partial_pages N (Z.max 0 (a - N))).
Proof.
  intros HN Ha. unfold full_or_partial_pages.
  replace (Z.max 0 a) with a by lia.
  replace (a + N - 1) with ((a - 1) + 1 * N) by lia.
  rewrite Z.div_add by lia.
  destruct (Z_lt_le_dec a N) as [Hlt | Hge].
  - replace (Z.max 0 (a - N)) with 0 by lia.
    rewrite (Z.div_small (a - 1)) by lia.
    rewrite (Z.div_small (0 + N - 1)) by lia. reflexivity.
  - replace (Z.max 0 (a - N)) with (a - N) by lia.
    replace (a - N + N - 1) with (a - 1) by lia.
    assert (0 <= (a - 1) / N) by (apply Z.div_pos; lia).
    lia.
Qed.

(** The loop against a server that holds [R] records, started at any
    offset: it returns, having appended the records from that offset
    on; it makes one request per page that holds a record, then one
    more, which is at the offset past those pages and comes back
    empty. *)
Lemma fetch_pages_serves (N R : Z) :
  0 < N ->
  serves cfg requests_get path key extra N R ->
  forall (m : nat) (k : Z) (acc : list json) (fuel : nat),
    0 <= k -> R - k <= Z.of_nat m * N -> (m < fuel)%nat ->
    let run := fetch_pages cfg requests_get fuel guarded true path key extra N acc k in
    let pages := full_or_partial_pages N (Z.max 0 (R - k)) in
    exists more,
      result run = Returned (acc ++ more)
      /\ Forall is_object more
      /\ length more = Z.to_nat (Z.max 0 (R - k))
      /\ length (exchanges run) = S pages
      /\ (page_of key <$> last (exchanges run)) = Some (Some [])
      /\ (offset_of <$> last (exchanges run)) = Some (Some (k + Z.of_nat pages * N)).
Proof.
  intros HN Hserves m. induction m as [|m IH]; intros k acc fuel Hk Hleft Hfuel;
    (destruct fuel as [|fuel]; [ lia | ]);
    destruct (Hserves k Hk) as (r & doc & page & Hres & Htext & Hget & Hobj & Hlen);
    destruct (connect_one_exchange cfg requests_get _ _ _ _ Hres) as (req & rep & Hex & Hpar & Hrep);
    subst rep.
  - (* nothing is left from this offset on *)
    assert (page = []) as ->.
    { apply length_zero_iff_nil. lia. }
    exists []. cbn zeta.
    rewrite (fetch_pages_empty fuel N k acc r doc Hres Htext Hget).
    rewrite pages_zero by lia.
    cbn [result exchanges fst snd]. rewrite Hex.
    rewrite app_nil_r. repeat split; try reflexivity; try constructor.
    + simpl. lia.
    + simpl. unfold page_of. simpl. rewrite Htext, Hget. reflexivity.
    + simpl. unfold offset_of. cbn [fst]. rewrite Hpar. simpl.
      do 3 f_equal. lia.
  - destruct (Z_le_gt_dec (R - k) 0) as [Hdone | Hmore].
    + assert (page = []) as ->.
      { apply length_zero_iff_nil. lia. }
      exists []. cbn zeta.
      rewrite (fetch_pages_empty fuel N k acc r doc Hres Htext Hget).
      rewrite pages_zero by lia.
      cbn [result exchanges fst snd]. rewrite Hex.
      rewrite app_nil_r. repeat split; try reflexivity; try constructor.
      * simpl. lia.
      * simpl. unfold page_of. simpl. rewrite Htext, Hget. reflexivity.
      * simpl. unfold offset_of. cbn [fst]. rewrite Hpar. simpl.
        do 3 f_equal. lia.
    + assert (Hne : page <> []).
      { intros ->. simpl in Hlen. lia. }
      destruct (IH (k + N) (acc ++ page) fuel) as
        (more & Hr & Hobj' & Hlen' & Hreqs & Hlast & Hoff); [ lia | lia | lia | ].
      exists (page ++ more). cbn zeta.
      rewrite (fetch_pages_nonempty fuel N k acc r doc page Hres Htext Hget Hne).
      cbn [result exchanges fst snd]. rewrite Hex.
      cbn zeta in Hr, Hreqs, Hlast, Hoff.
      replace (R - (k + N)) with (R - k - N) in * by lia.
      rewrite (pages_succ N (R - k)) by lia.
      set (run' := fetch_pages cfg requests_get fuel guarded true path key extra N
                     (acc ++ page) (k + N)) in *.
      repeat split.
      * rewrite Hr. rewrite app_assoc. reflexivity.
      * apply Forall_app. split; assumption.
      * rewrite length_app, Hlen, Hlen'. lia.
      * simpl. rewrite Hreqs. reflexivity.
      * destruct (exchanges run') as [|e es] eqn:Hes; [ discriminate Hreqs | ].
        simpl in *. exact Hlast.
      * destruct (exchanges run') as [|e es] eqn:Hes; [ discriminate Hreqs | ].
        simpl in *. rewrite Hoff. do 2 f_equal. lia.
Qed.

End Pagination.

(** ** From the accumulated records to the data frame *)

Lemma traverse_as_record (data : list json) :
  Forall is_object data ->
  exists records, traverse as_record data = Returned records
                  /\ length records = length data.
Proof.
  induction 1 as [|j data Hj _ IH].
  - exists []. split; reflexivity.
  - destruct IH as (records & Hrec & Hlen).
    destruct j; try contradiction.
    exists (flatten_record fields :: records). simpl.
    rewrite Hrec. simpl. split; [ reflexivity | congruence ].
Qed.

Lemma json_normalize_rows (data : list json) :
  Forall is_object data ->
  exists df, json_normalize data = Returned df /\ nrows df = length data.
Proof.
  intros Hobj. destruct data as [|j data].
  - exists empty_frame. split; reflexivity.
  - destruct (traverse_as_record _ Hobj) as (records & Hrec & Hlen).
    exists (frame_of_records records). unfold json_normalize.
    rewrite Hrec. simpl. split; [ reflexivity | exact Hlen ].
Qed.

Lemma first_seen_fresh (seen l : list string) (x : string) :
  x ∈ first_seen seen l -> x ∉ seen.
Proof.
  revert seen. induction l as [|y l IH]; intros seen Hx; [ inversion Hx | ].
  cbn [first_seen] in Hx. rewrite bool_decide_decide in Hx.
  destruct (decide (y ∈ seen)) as [Hy | Hy].
  - exact (IH seen Hx).
  - apply elem_of_cons in Hx as [-> | Hx]; [ exact Hy | ].
    intros Hin. apply (IH (y :: seen) Hx). apply list_elem_of_further. exact Hin.
Qed.

Lemma first_seen_NoDup (seen l : list string) : NoDup (first_seen seen l).
Proof.
  revert seen. induction l as [|y l IH]; intros seen; [ constructor | ].
  cbn [first_seen]. rewrite bool_decide_decide.
  destruct (decide (y ∈ seen)); [ apply IH | ].
  apply NoDup_cons. split; [ | apply IH ].
  intros Hin. apply (first_seen_fresh (y :: seen) l y Hin). apply list_elem_of_here.
Qed.

(** The tables that [json_normalize] builds have distinct labels and
    columns of full length. *)
Lemma json_normalize_labels (data : list json) (df : DataFrame) :
  json_normalize data = Returned df ->
  NoDup (columns df) /\ well_formed df.
Proof.
  unfold json_normalize. destruct data as [|j data].
  - intros [= <-]. split; constructor.
  - destruct (traverse as_record (j :: data)) as [records| |]; try discriminate.
    cbn [obind]. intros [= <-]. unfold frame_of_records, columns, well_formed.
    cbn [cols nrows]. rewrite map_map. cbn [fst]. rewrite map_id. split.
    + apply first_seen_NoDup.
    + apply Forall_forall. intros c Hc. apply list_elem_of_In in Hc.
      apply in_map_iff in Hc as (n & <- & _). cbn [snd]. apply length_map.
Qed.

Lemma ceiling_covers (N R : Z) :
  0 < N -> 0 <= R -> R <= Z.of_nat (full_or_partial_pages N R) * N.
Proof.
  intros HN HR. unfold full_or_partial_pages.
  assert (0 <= (R + N - 1) / N) by (apply Z.div_pos; lia).
  rewrite Z2Nat.id by assumption.
  pose proof (Z.div_mod (R + N - 1) N ltac:(lia)) as Hdm.
  pose proof (Z.mod_pos_bound (R + N - 1) N HN) as Hb.
  nia.
Qed.

Lemma exact_pages (N m : Z) :
  0 < N -> 0 <= m -> full_or_partial_pages N (m * N) = Z.to_nat m.
Proof.
  intros HN Hm. unfold full_or_partial_pages.
  replace (m * N + N - 1) with ((N - 1) + m * N) by lia.
  rewrite Z.div_add by lia. rewrite Z.div_small by lia. reflexivity.
Qed.

(** The paging server holds its records in the sense of [serves]. *)
Lemma paging_server_serves (path key : string) (extra : list (string * json))
    (records : list json) (N : Z) :
  0 < N ->
  Forall is_object records ->
  serves demo_config (paging_server key records) path key extra N
         (Z.of_nat (length records)).
Proof.
  intros HN Hobj k Hk.
  eexists _, _, _. split; [ | split; [ | split; [ | split ] ] ].
  - unfold jira_auth_get_connect, demo_config; simpl. reflexivity.
  - reflexivity.
  - simpl. rewrite String.eqb_refl. reflexivity.
  - unfold param_nat. simpl.
    apply Forall_take. rewrite Forall_forall in Hobj.
    apply Forall_forall. intros x Hx. apply Hobj.
    apply list_elem_of_In in Hx. apply list_elem_of_In.
    revert Hx. generalize (Z.to_nat k). intros n. revert records Hobj.
    induction n as [|n IHn]; intros [|y l] Hobj Hin; simpl in *; auto.
    right. eapply IHn; eauto. intros z Hz. apply Hobj. right. exact Hz.
  - unfold param_nat. simpl.
    rewrite length_take, length_skipn. lia.
Qed.

Lemma fetch_frame_exchanges (cfg : config) (requests_get : request -> http_reply)
    (fuel : nat) (guarded json_bound : bool) (path key : string)
    (extra : list (string * json)) (N : Z) :
  exchanges (fetch_frame cfg requests_get fuel guarded json_bound path key extra N)
  = exchanges (fetch_pages cfg requests_get fuel guarded json_bound path key extra N [] 0).
Proof.
  unfold fetch_frame.
  destruct (fetch_pages cfg requests_get fuel guarded json_bound path key extra N [] 0)
    as [[items|e|] log]; simpl; rewrite ?app_nil_r; reflexivity.
Qed.

Lemma fetch_frame_result (cfg : config) (requests_get : request -> http_reply)
    (fuel : nat) (guarded json_bound : bool) (path key : string)
    (extra : list (string * json)) (N : Z) :
  result (fetch_frame cfg requests_get fuel guarded json_bound path key extra N)
  = obind (result (fetch_pages cfg requests_get fuel guarded json_bound path key
                     extra N [] 0))
          json_normalize.
Proof.
  unfold fetch_frame.
  destruct (fetch_pages cfg requests_get fuel guarded json_bound path key extra N [] 0)
    as [[items|e|] log]; reflexivity.
Qed.

(** C1, as amended: for every page size [N > 0] and every number [R] of
    records held by the server, a paginated fetcher with [json] in scope
    returns a table of exactly [R] rows after exactly [ceil(R/N) + 1]
    requests, the last of which comes back with zero elements.  That is
    [floor(R/N) + 1] requests when [N] divides [R] and [floor(R/N) + 2]
    otherwise. *)
Theorem paginated_fetch_requests (cfg : config) (requests_get : request -> http_reply)
    (guarded : bool) (path key : string) (extra : list (string * json)) (N R : Z) :
  0 < N -> 0 <= R ->
  serves cfg requests_get path key extra N R ->
  forall fuel, (full_or_partial_pages N R < fuel)%nat ->
    let run := fetch_frame cfg requests_get fuel guarded true path key extra N in
    exists df,
      result run = Returned df
      /\ Z.of_nat (nrows df) = R
      /\ Z.of_nat (length (exchanges run)) = (R + N - 1) / N + 1
      /\ Z.of_nat (length (exchanges run))
         = R / N + (if R mod N =? 0 then 1 else 2)
      /\ (page_of key <$> last (exchanges run)) = Some (Some []).
Proof.
  intros HN HR Hserves fuel Hfuel run.
  destruct (fetch_pages_serves cfg requests_get guarded path key extra N R HN Hserves
              (full_or_partial_pages N R) 0 [] fuel)
    as (more & Hres & Hobj & Hlen & Hreqs & Hlast & _).
  { lia. }
  { rewrite Z.sub_0_r. apply ceiling_covers; assumption. }
  { exact Hfuel. }
  cbn zeta in *. rewrite Z.sub_0_r in *.
  replace (Z.max 0 R) with R in * by lia.
  destruct (json_normalize_rows more Hobj) as (df & Hdf & Hrows).
  exists df. subst run.
  rewrite fetch_frame_result, fetch_frame_exchanges, Hres. simpl.
  assert (Hceil : 0 <= (R + N - 1) / N) by (apply Z.div_pos; lia).
  assert (Hcount : Z.of_nat (length (exchanges
            (fetch_pages cfg requests_get fuel guarded true path key extra N [] 0)))
          = (R + N - 1) / N + 1).
  { rewrite Hreqs. unfold full_or_partial_pages. lia. }
  repeat split.
  - exact Hdf.
  - rewrite Hrows, Hlen. lia.
  - exact Hcount.
  - rewrite Hcount.
    pose proof (Z.div_mod R N ltac:(lia)) as Hdm.
    pose proof (Z.mod_pos_bound R N HN) as Hb.
    destruct (Z.eqb_spec (R mod N) 0) as [Hz | Hnz].
    + replace (R + N - 1) with ((N - 1) + (R / N) * N) by lia.
      rewrite Z.div_add by lia. rewrite Z.div_small by lia. lia.
    + replace (R + N - 1) with ((R mod N - 1) + (R / N + 1) * N) by lia.
      rewrite Z.div_add by lia. rewrite Z.div_small by lia. lia.
  - exact Hlast.
Qed.

Lemma paginated_fetch_requests_witness :
  exists df,
    result (jira_get_issues demo_config (paging_server "issues" three_issues) 5 "")
      = Returned df
    /\ Z.of_nat (nrows df) = 3.
Proof.
  destruct (paginated_fetch_requests demo_config (paging_server "issues" three_issues)
              false "/rest/api/latest/search" "issues" [] 100 3
              ltac:(lia) ltac:(lia)
              (paging_server_serves "/rest/api/latest/search" "issues" [] three_issues
                 100 ltac:(lia)
                 ltac:(repeat constructor))
              5%nat ltac:(vm_compute; lia))
    as (df & Hres & Hrows & _).
  exists df. split; [ exact Hres | exact Hrows ].
Defined.

(** The claim as first stated fails for a record count that is not a
    multiple of the page size: with 50 records and pages of 100 the
    fetcher makes two requests, not [floor(50/100) + 1 = 1]. *)
Lemma fifty_records_take_two_requests :
  let run :=
    jira_get_issues demo_config
      (paging_server "issues" (replicate 50 (JObj [("id", JStr "10001")]))) 5 "" in
  returns (result run)
  /\ Z.of_nat (length (exchanges run)) = 2
  /\ Z.of_nat (length (exchanges run)) <> 50 / 100 + 1.
Proof.
  vm_compute. split; [ eexists; reflexivity | split; [ reflexivity | discriminate ] ].
Qed.

(** C8: when the record count is an exact multiple [m * N] of the page
    size, the fetcher does not stop after the last full page: it makes
    [m + 1] requests, the last one at offset [m * N], and that one comes
    back with zero elements.  And a page that holds at least one element,
    be it fewer than the page size, does not end the loop: the loop goes
    on to request the next offset. *)
Theorem empty_page_ends_fetch (cfg : config) (requests_get : request -> http_reply)
    (guarded : bool) (path key : string) (extra : list (string * json)) (N : Z) :
  0 < N ->
  (forall m, 0 <= m ->
     serves cfg requests_get path key extra N (m * N) ->
     forall fuel, (Z.to_nat m < fuel)%nat ->
       let run := fetch_frame cfg requests_get fuel guarded true path key extra N in
       returns (result run)
       /\ length (exchanges run) = S (Z.to_nat m)
       /\ (offset_of <$> last (exchanges run)) = Some (Some (m * N))
       /\ (page_of key <$> last (exchanges run)) = Some (Some []))
  /\
  (forall fuel k acc r doc page,
     result (jira_auth_get_connect cfg requests_get path
               (Some (page_params extra N k)) None) = Returned (RespObj r) ->
     text r = Json doc ->
     getitem doc key = Returned (JArr page) ->
     page <> [] ->
     let run := fetch_pages cfg requests_get (S fuel) guarded true path key extra N
                  acc k in
     let next := fetch_pages cfg requests_get fuel guarded true path key extra N
                   (acc ++ page) (k + N) in
     result run = result next
     /\ exists e, page_of key e = Some page
                  /\ exchanges run = e :: exchanges next).
Proof.
  intros HN. split.
  - intros m Hm Hserves fuel Hfuel run.
    destruct (fetch_pages_serves cfg requests_get guarded path key extra N (m * N)
                HN Hserves (Z.to_nat m) 0 [] fuel)
      as (more & Hres & Hobj & Hlen & Hreqs & Hlast & Hoff).
    { lia. }
    { rewrite Z.sub_0_r. rewrite Z2Nat.id by lia. lia. }
    { exact Hfuel. }
    cbn zeta in *. rewrite Z.sub_0_r in *.
    replace (Z.max 0 (m * N)) with (m * N) in * by nia.
    rewrite exact_pages in * by lia.
    destruct (json_normalize_rows more Hobj) as (df & Hdf & Hrows).
    subst run. rewrite fetch_frame_result, fetch_frame_exchanges, Hres.
    repeat split.
    + exists df. exact Hdf.
    + exact Hreqs.
    + rewrite Hoff. rewrite Z2Nat.id by lia. reflexivity.
    + exact Hlast.
  - intros fuel k acc r doc page Hres Htext Hget Hne run next.
    subst run next.
    rewrite (fetch_pages_nonempty cfg requests_get guarded path key extra fuel N k acc
               r doc page Hres Htext Hget Hne).
    destruct (connect_one_exchange cfg requests_get _ _ _ _ Hres)
      as (req & rep & Hex & _ & Hrep).
    subst rep. rewrite Hex.
    split; [ reflexivity | ].
    exists (req, Sent r). split.
    + unfold page_of. simpl. rewrite Htext, Hget. reflexivity.
    + reflexivity.
Qed.

Lemma empty_page_ends_fetch_witness :
  let run :=
    jira_get_issues demo_config
      (paging_server "issues" (replicate 100 (JObj [("id", JStr "10001")]))) 3 "" in
  returns (result run) /\ length (exchanges run) = 2%nat.
Proof.
  destruct (empty_page_ends_fetch demo_config
              (paging_server "issues" (replicate 100 (JObj [("id", JStr "10001")])))
              false "/rest/api/latest/search" "issues" [] 100 ltac:(lia))
    as [Hmultiple Hgoes_on].
  destruct (Hmultiple 1 ltac:(lia)
              (paging_server_serves "/rest/api/latest/search" "issues" []
                 (replicate 100 (JObj [("id", JStr "10001")])) 100
                 ltac:(lia) ltac:(apply Forall_replicate; exact I))
              3%nat ltac:(vm_compute; lia))
    as (Hret & Hreqs & _).
  split; [ exact Hret | exact Hreqs ].
Defined.

(** ** Error values in the fetchers *)

(** C2, on the code: when the request client hands back an error value,
    a fetcher without the [HTTPError] test ([jira_get_issues],
    [jira_get_all_projects], [jira_get_boards]) raises [AttributeError]
    on [response.text] and returns nothing; a fetcher with the test
    returns the records accumulated so far when the error value is a
    [requests.exceptions.HTTPError], and raises [AttributeError] for any
    other error value. *)
Theorem error_value_in_fetch (cfg : config) (requests_get : request -> http_reply)
    (fuel : nat) (path key : string) (extra : list (string * json)) (N k : Z)
    (acc : list json) (e : exn) :
  result (jira_auth_get_connect cfg requests_get path
            (Some (page_params extra N k)) None) = Returned (ExcObj e) ->
  result (fetch_pages cfg requests_get (S fuel) false true path key extra N acc k)
    = Raised AttributeError
  /\ result (fetch_pages cfg requests_get (S fuel) true true path key extra N acc k)
     = (if is_requests_HTTPError (ExcObj e) then Returned acc
        else Raised AttributeError).
Proof.
  intros Hres. cbn [fetch_pages]. fold (page_params extra N k).
  destruct (jira_auth_get_connect cfg requests_get path
              (Some (page_params extra N k)) None) as [res log].
  simpl in Hres. subst res. cbn [bind andb]. split.
  - reflexivity.
  - destruct (is_requests_HTTPError (ExcObj e)); reflexivity.
Qed.

Lemma error_value_in_fetch_witness :
  result (jira_get_issues demo_config (failing_server 500) 5 "")
    = Raised AttributeError
  /\ result (jira_get_sprint_issues demo_config (failing_server 500) 5 (Val (JNum 32)))
     = Returned empty_frame
  /\ result (jira_get_sprint_issues demo_config unreachable_server 5 (Val (JNum 32)))
     = Raised AttributeError.
Proof.
  pose proof (error_value_in_fetch demo_config (failing_server 500) 4
                "/rest/api/latest/search" "issues" [] 100 0 []
                (RequestsHTTPError 500) eq_refl) as [Hissues _].
  pose proof (error_value_in_fetch demo_config (failing_server 500) 4
                "/rest/agile/1.0/sprint/32/issue" "issues" [] 100 0 []
                (RequestsHTTPError 500) eq_refl) as [_ Hsprint].
  pose proof (error_value_in_fetch demo_config unreachable_server 4
                "/rest/agile/1.0/sprint/32/issue" "issues" [] 100 0 []
                (RequestsError "ConnectionError") eq_refl) as [_ Hdown].
  split; [ | split ].
  - unfold jira_get_issues. rewrite fetch_frame_result.
    cbn [String.eqb]. rewrite Hissues. reflexivity.
  - unfold jira_get_sprint_issues. rewrite fetch_frame_result.
    change ("/rest/agile/1.0/sprint/" +:+ py_format (Val (JNum 32)) +:+ "/issue")
      with "/rest/agile/1.0/sprint/32/issue".
    rewrite Hsprint. reflexivity.
  - unfold jira_get_sprint_issues. rewrite fetch_frame_result.
    change ("/rest/agile/1.0/sprint/" +:+ py_format (Val (JNum 32)) +:+ "/issue")
      with "/rest/agile/1.0/sprint/32/issue".
    rewrite Hdown. reflexivity.
Defined.

(** ** Projection and renaming *)

Lemma flat_map_agree {A B} (f g : A -> list B) (l : list A) :
  (forall x, x ∈ l -> f x = g x) -> flat_map f l = flat_map g l.
Proof.
  induction l as [|x l IH]; intros Hfg; simpl; [ reflexivity | ].
  rewrite (Hfg x) by apply list_elem_of_here.
  rewrite IH; [ reflexivity | ].
  intros y Hy. apply Hfg. apply list_elem_of_further. exact Hy.
Qed.

Lemma filter_label_absent (n : string) (cs : list (string * list cell)) :
  n ∉ map fst cs -> filter (fun c => fst c = n) cs = [].
Proof.
  intros Hn. apply elem_of_nil_inv. intros c Hc.
  apply list_elem_of_filter in Hc as [Hlabel Hin].
  apply Hn. subst n. apply list_elem_of_In. apply in_map.
  apply list_elem_of_In. exact Hin.
Qed.

(** Selecting, label by label, the labels of a frame that satisfy [P]
    keeps exactly the columns whose label satisfies [P], when labels do
    not repeat. *)
Lemma select_own_labels (P : string -> Prop) `{forall n, Decision (P n)}
    (cs : list (string * list cell)) :
  NoDup (map fst cs) ->
  flat_map (fun n => filter (fun c => fst c = n) cs) (filter P (map fst cs))
  = filter (fun c => P (fst c)) cs.
Proof.
  induction cs as [|c cs IH]; intros Hnd; [ reflexivity | ].
  simpl in Hnd. apply NoDup_cons in Hnd as [Hfresh Hnd].
  assert (Hrest : flat_map (fun n => filter (fun c0 => fst c0 = n) (c :: cs))
                           (filter P (map fst cs))
                  = filter (fun c0 => P (fst c0)) cs).
  { rewrite <- (IH Hnd). apply flat_map_agree. intros n Hn.
    apply list_elem_of_filter in Hn as [_ Hn].
    rewrite filter_cons_False; [ reflexivity | ].
    intros Heq. apply Hfresh. rewrite Heq. exact Hn. }
  simpl map. rewrite !filter_cons.
  destruct (decide (P (fst c))) as [HP | HP].
  - simpl flat_map. rewrite Hrest.
    rewrite filter_cons_True by reflexivity.
    rewrite (filter_label_absent (fst c) cs Hfresh). reflexivity.
  - exact Hrest.
Qed.

Lemma own_labels_present (P : string -> Prop) `{forall n, Decision (P n)}
    (l : list string) :
  filter (fun n => n ∉ l) (filter P l) = [].
Proof.
  apply elem_of_nil_inv. intros n Hn.
  apply list_elem_of_filter in Hn as [Hout Hn].
  apply list_elem_of_filter in Hn as [_ Hn]. contradiction.
Qed.

Lemma project_fields_keeps (df : DataFrame) :
  NoDup (columns df) ->
  project_fields df
  = Returned (mkDF (nrows df)
                (filter (fun c => fst c ∈ RELEVANT_FIELDS) (cols df))).
Proof.
  intros Hnd. unfold project_fields, getitem_list.
  rewrite own_labels_present. unfold columns.
  rewrite (select_own_labels (fun n => n ∈ RELEVANT_FIELDS) (cols df) Hnd).
  reflexivity.
Qed.

Lemma filter_labels_NoDup (P : string -> Prop) `{forall n, Decision (P n)}
    (cs : list (string * list cell)) :
  NoDup (map fst cs) -> NoDup (map fst (filter (fun c => P (fst c)) cs)).
Proof.
  induction cs as [|c cs IH]; intros Hnd; [ constructor | ].
  simpl in Hnd. apply NoDup_cons in Hnd as [Hfresh Hnd].
  rewrite filter_cons. destruct (decide (P (fst c))); [ | auto ].
  simpl. apply NoDup_cons. split; [ | auto ].
  intros Hin. apply Hfresh.
  apply list_elem_of_In in Hin. apply in_map_iff in Hin as (c' & Heq & Hin).
  apply list_elem_of_In in Hin. apply list_elem_of_filter in Hin as [_ Hin].
  apply list_elem_of_In. apply in_map_iff. exists c'. split; [ exact Heq | ].
  apply list_elem_of_In. exact Hin.
Qed.

(** No output name of the renamer is itself a key of the renamer. *)
Lemma renamed_label_stays (n : string) :
  COLUMN_NAME_DICT !! default n (COLUMN_NAME_DICT !! n) = None
  \/ COLUMN_NAME_DICT !! n = None.
Proof.
  destruct (COLUMN_NAME_DICT !! n) as [n'|] eqn:Hn; [ left | right; reflexivity ].
  unfold COLUMN_NAME_DICT, dict_literal in Hn.
  apply elem_of_list_to_map_2 in Hn. apply elem_of_reverse in Hn.
  unfold COLUMN_NAME_BINDINGS in Hn.
  repeat (apply elem_of_cons in Hn as [Hn | Hn];
          [ inversion Hn; subst; vm_compute; reflexivity | ]).
  inversion Hn.
Qed.

(** C6, as amended: each step of the projector is idempotent on its own.
    Retaining the whitelisted columns of a table whose labels are
    distinct, and then retaining again, yields the table of the first
    retention; renaming a table twice yields the table renamed once. *)
Theorem projection_idempotent (df : DataFrame) :
  (NoDup (columns df) ->
   exists projected,
     project_fields df = Returned projected
     /\ project_fields projected = Returned projected)
  /\ rename COLUMN_NAME_DICT (rename COLUMN_NAME_DICT df)
     = rename COLUMN_NAME_DICT df.
Proof.
  split.
  - intros Hnd. eexists. split; [ apply project_fields_keeps; exact Hnd | ].
    rewrite project_fields_keeps.
    + cbn [nrows cols]. f_equal. f_equal.
      apply list_filter_filter_l. intros c Hc. exact Hc.
    + unfold columns. cbn [cols].
      exact (filter_labels_NoDup (fun n => n ∈ RELEVANT_FIELDS) (cols df) Hnd).
  - unfold rename. cbn [nrows cols]. f_equal. rewrite map_map. apply map_ext.
    intros [n c]. cbn [fst snd]. f_equal.
    destruct (renamed_label_stays n) as [Hout | Hkey].
    + rewrite Hout. reflexivity.
    + rewrite Hkey. cbn [default]. rewrite Hkey. reflexivity.
Qed.

Lemma projection_idempotent_witness :
  NoDup (columns mixed_resolution_table)
  /\ exists projected,
       project_fields mixed_resolution_table = Returned projected
       /\ project_fields projected = Returned projected.
Proof.
  assert (Hnd : NoDup (columns mixed_resolution_table)).
  { apply (bool_decide_unpack _). vm_compute. exact I. }
  split; [ exact Hnd | ].
  exact (proj1 (projection_idempotent mixed_resolution_table) Hnd).
Defined.

(** The claim as first stated fails: the projector's output carries the
    new names, none of which is in the whitelist, so applying the
    projector to its own output leaves no column at all. *)
Lemma projector_twice_drops_everything :
  exists once twice,
    project_rename mixed_resolution_table = Returned once
    /\ project_rename once = Returned twice
    /\ columns once = ["issue_id"; "resolution"; "resolution"]
    /\ columns twice = []
    /\ twice <> once.
Proof.
  eexists _, _.
  split; [ vm_compute; reflexivity | ].
  split; [ vm_compute; reflexivity | ].
  split; [ reflexivity | ].
  split; [ reflexivity | ].
  discriminate.
Qed.

Lemma renamed_resolution (n : string) :
  n ∈ RELEVANT_FIELDS ->
  default n (COLUMN_NAME_DICT !! n) = "resolution"
  <-> n = "fields.resolution" \/ n = "fields.resolution.name".
Proof.
  intros Hn. unfold RELEVANT_FIELDS in Hn.
  repeat (apply elem_of_cons in Hn as [-> | Hn];
          [ split;
            [ intros H; vm_compute in H;
              first [ left; reflexivity | right; reflexivity | discriminate H ]
            | intros [H | H];
              first [ vm_compute; reflexivity | discriminate H ] ]
          | ]).
  inversion Hn.
Qed.

Lemma filter_renamed_label (g : string -> string) (k : string)
    (l : list (string * list cell)) :
  filter (fun c => fst c = k) (map (fun c => (g (fst c), snd c)) l)
  = map (fun c => (g (fst c), snd c)) (filter (fun c => g (fst c) = k) l).
Proof.
  induction l as [|c l IH]; [ reflexivity | ].
  cbn [map]. rewrite !filter_cons. cbn [fst].
  destruct (decide (g (fst c) = k)); cbn [map]; rewrite IH; reflexivity.
Qed.

Lemma assoc_Some_label (k : string) (cs : list (string * list cell)) (v : list cell) :
  assoc k cs = Some v -> k ∈ map fst cs.
Proof.
  induction cs as [|[k' v'] cs IH]; [ discriminate | ].
  cbn [assoc map fst]. destruct (String.eqb_spec k k') as [-> | Hne].
  - intros _. apply list_elem_of_here.
  - intros H. apply list_elem_of_further. exact (IH H).
Qed.

Lemma filter_one_label (k : string) (cs : list (string * list cell)) (v : list cell) :
  NoDup (map fst cs) -> assoc k cs = Some v ->
  filter (fun c => fst c = k) cs = [(k, v)].
Proof.
  induction cs as [|[k' v'] cs IH]; intros Hnd Hk; [ discriminate | ].
  cbn [map fst] in Hnd. apply NoDup_cons in Hnd as [Hfresh Hnd].
  cbn [assoc] in Hk. rewrite filter_cons. cbn [fst].
  destruct (String.eqb_spec k k') as [-> | Hne].
  - injection Hk as ->. rewrite decide_True by reflexivity.
    rewrite (filter_label_absent k' cs Hfresh). reflexivity.
  - rewrite decide_False by congruence. exact (IH Hnd Hk).
Qed.

Lemma filter_agree {A} (P1 P2 : A -> Prop)
    `{!forall x, Decision (P1 x), !forall x, Decision (P2 x)} (l : list A) :
  (forall x, x ∈ l -> P1 x <-> P2 x) -> filter P1 l = filter P2 l.
Proof.
  induction l as [|x l IH]; intros Hiff; [ reflexivity | ].
  assert (Hl : filter P1 l = filter P2 l).
  { apply IH. intros y Hy. apply Hiff. apply list_elem_of_further. exact Hy. }
  pose proof (Hiff x (list_elem_of_here x l)) as Hx.
  rewrite !filter_cons.
  destruct (decide (P1 x)), (decide (P2 x)); rewrite ?Hl; tauto.
Qed.

Lemma label_of_member (c : string * list cell) (cs : list (string * list cell)) :
  c ∈ cs -> fst c ∈ map fst cs.
Proof.
  intros Hin. apply list_elem_of_In. apply in_map.
  apply list_elem_of_In. exact Hin.
Qed.

Lemma filter_two_labels (a b : string) (cs : list (string * list cell))
    (va vb : list cell) :
  a <> b -> NoDup (map fst cs) ->
  assoc a cs = Some va -> assoc b cs = Some vb ->
  filter (fun c => fst c = a \/ fst c = b) cs ≡ₚ [(a, va); (b, vb)].
Proof.
  intros Hab. induction cs as [|[k v] cs IH]; intros Hnd Ha Hb; [ discriminate | ].
  cbn [map fst] in Hnd. apply NoDup_cons in Hnd as [Hfresh Hnd].
  cbn [assoc] in Ha, Hb. rewrite filter_cons. cbn [fst].
  destruct (String.eqb_spec a k) as [-> | Hak].
  - injection Ha as ->.
    destruct (String.eqb_spec b k) as [-> | Hbk]; [ congruence | ].
    rewrite decide_True by (left; reflexivity).
    rewrite (filter_agree _ (fun c => fst c = b)).
    + rewrite (filter_one_label b cs vb Hnd Hb). reflexivity.
    + intros c Hc. split; [ | right; assumption ].
      intros [Hk | Hk]; [ | exact Hk ].
      exfalso. apply Hfresh. rewrite <- Hk. apply label_of_member. exact Hc.
  - destruct (String.eqb_spec b k) as [-> | Hbk].
    + injection Hb as ->.
      rewrite decide_True by (right; reflexivity).
      rewrite (filter_agree _ (fun c => fst c = a)).
      * rewrite (filter_one_label a cs va Hnd Ha). apply Permutation_swap.
      * intros c Hc. split; [ | left; assumption ].
        intros [Hk | Hk]; [ exact Hk | ].
        exfalso. apply Hfresh. rewrite <- Hk. apply label_of_member. exact Hc.
    + rewrite decide_False by (intros [? | ?]; congruence).
      exact (IH Hnd Ha Hb).
Qed.

(** C7, as amended: when the flattened table (labels distinct) has both
    [fields.resolution] and [fields.resolution.name], the projector's
    output has two columns labelled [resolution], one with the cells of
    each source column; neither mapping overrides the other. *)
Theorem resolution_columns_both_kept (df : DataFrame) (c1 c2 : list cell) :
  NoDup (columns df) ->
  getitem_col "fields.resolution" df = Returned c1 ->
  getitem_col "fields.resolution.name" df = Returned c2 ->
  exists out,
    project_rename df = Returned out
    /\ filter (fun c => fst c = "resolution") (cols out)
       ≡ₚ [("resolution", c1); ("resolution", c2)].
Proof.
  intros Hnd H1 H2. unfold project_rename.
  rewrite (project_fields_keeps df Hnd). cbn [obind].
  eexists. split; [ reflexivity | ].
  unfold rename. cbn [cols nrows].
  rewrite (filter_renamed_label (fun n => default n (COLUMN_NAME_DICT !! n))).
  rewrite list_filter_filter.
  rewrite (filter_agree _ (fun c => fst c = "fields.resolution"
                                    \/ fst c = "fields.resolution.name")).
  - unfold getitem_col in H1, H2.
    destruct (assoc "fields.resolution" (cols df)) as [v1|] eqn:Ha; [ | discriminate ].
    destruct (assoc "fields.resolution.name" (cols df)) as [v2|] eqn:Hb;
      [ | discriminate ].
    injection H1 as ->. injection H2 as ->.
    rewrite (filter_two_labels "fields.resolution" "fields.resolution.name"
               (cols df) c1 c2 ltac:(discriminate) Hnd Ha Hb).
    reflexivity.
  - intros c _. split.
    + intros [Hren Hin]. apply (renamed_resolution (fst c) Hin). exact Hren.
    + intros Hab.
      assert (Hin : fst c ∈ RELEVANT_FIELDS).
      { destruct Hab as [-> | ->]; apply (bool_decide_unpack _); vm_compute; exact I. }
      split; [ | exact Hin ].
      apply (renamed_resolution (fst c) Hin). exact Hab.
Qed.

Lemma resolution_columns_both_kept_witness :
  exists out,
    project_rename mixed_resolution_table = Returned out
    /\ filter (fun c => fst c = "resolution") (cols out)
       ≡ₚ [ ("resolution", [Val JNull; NaN]);
            ("resolution", [NaN; str_cell "Done"]) ].
Proof.
  apply (resolution_columns_both_kept mixed_resolution_table).
  - apply (bool_decide_unpack _). vm_compute. exact I.
  - reflexivity.
  - reflexivity.
Defined.

(** The claim as first stated fails: with both source columns present
    the output does not hold exactly one [resolution] column, it holds
    two, each with the cells of its own source column. *)
Lemma two_resolution_columns :
  exists out,
    project_rename mixed_resolution_table = Returned out
    /\ length (filter (fun n => n = "resolution") (columns out)) = 2%nat
    /\ length (filter (fun n => n = "resolution") (columns out)) <> 1%nat
    /\ filter (fun c => fst c = "resolution") (cols out)
       = [ ("resolution", [Val JNull; NaN]);
           ("resolution", [NaN; str_cell "Done"]) ].
Proof.
  eexists. split; [ vm_compute; reflexivity | ].
  split; [ vm_compute; reflexivity | ].
  split; [ vm_compute; discriminate | ].
  vm_compute. reflexivity.
Qed.

(** ** Aggregation *)

(** The specification's example: grouped by type and status, the three
    estimated issues give 1 point in 1 issue for the done bugs and 5
    points in 2 issues for the done tasks. *)
Lemma aggregation_example :
  storypoints_per ["issuetype"; "status_cat_name"; "storypoints"]
                  ["issuetype"; "status_cat_name"] estimated_table
  = Returned (mkDF 2
      [ ("issuetype", [str_cell "Bug"; str_cell "Task"]);
        ("status_cat_name", [str_cell "Done"; str_cell "Done"]);
        ("storypoints", [Val (JNum 1); Val (JNum 5)]);
        ("issue_count", [Val (JNum 1); Val (JNum 2)]) ]).
Proof. vm_compute. reflexivity. Qed.

(** A null cell adds nothing to the sum and nothing to the count. *)
Lemma null_cell_in_aggregates (x : cell) (values : list cell) :
  isnull x = true ->
  agg_sum (x :: values) = agg_sum values
  /\ agg_count (x :: values) = agg_count values.
Proof.
  intros Hx. split.
  - cbn [agg_sum]. rewrite Hx. destruct (agg_sum values); reflexivity.
  - unfold agg_count. rewrite filter_cons_False; [ reflexivity | ].
    rewrite Hx. discriminate.
Qed.

(** The count of a group is the number of its issues exactly when none
    of them lacks an estimate. *)
Lemma count_only_estimated (values : list cell) :
  (agg_count values <= Z.of_nat (length values))
  /\ (agg_count values = Z.of_nat (length values)
       <-> Forall (fun x => isnull x = false) values).
Proof.
  unfold agg_count. induction values as [|x values [IHle IHeq]].
  - split; [ reflexivity | ]. split; [ constructor | reflexivity ].
  - rewrite filter_cons. destruct (decide (isnull x = false)) as [Hx | Hx].
    + cbn [length]. split; [ lia | ]. split.
      * intros Heq. constructor; [ exact Hx | ]. apply IHeq. lia.
      * intros Hall. apply Forall_cons in Hall as [_ Hall].
        apply IHeq in Hall. lia.
    + cbn [length]. split; [ lia | ]. split.
      * intros Heq. lia.
      * intros Hall. apply Forall_cons in Hall as [Hx' _]. contradiction.
Qed.

(** C5, on the code: of two done high-priority tasks, one with 3 story
    points and one without an estimate, the aggregation reports 3 points
    and an issue count of 1: the issue with null story points adds zero
    to the sum and is left out of the count. *)
Theorem unestimated_issue_not_counted :
  df_issues_per_type unestimated_table
  = Returned (mkDF 1
      [ ("issuetype", [str_cell "Task"]);
        ("status_cat_name", [str_cell "Done"]);
        ("prio", [str_cell "High"]);
        ("storypoints", [Val (JNum 3)]);
        ("issue_count", [Val (JNum 1)]) ]).
Proof. vm_compute. reflexivity. Qed.

(** ** The board-issues assembly *)

Lemma getitem_list_cases (names : list string) (df : DataFrame) :
  (returns (getitem_list names df) /\ forall c, c ∈ names -> c ∈ columns df)
  \/ (exists c, c ∈ names /\ (c ∉ columns df)
                /\ getitem_list names df = Raised (KeyError c)).
Proof.
  unfold getitem_list.
  destruct (filter (fun n => n ∉ columns df) names) as [|missing rest] eqn:Hf.
  - left. split; [ eexists; reflexivity | ].
    intros c Hc. destruct (decide (c ∈ columns df)) as [Hin | Hout]; [ exact Hin | ].
    exfalso. exact (filter_nil_not_elem_of _ _ c Hf Hout Hc).
  - right. exists missing.
    assert (Hm : missing ∈ filter (fun n => n ∉ columns df) names).
    { rewrite Hf. apply list_elem_of_here. }
    apply list_elem_of_filter in Hm as [Hout Hin].
    repeat split; assumption.
Qed.

Section BoardIssues.

Variable cfg : config.
Variable requests_get : request -> http_reply.
Variable fuel : nat.

Local Abbreviation sprint_issues sid :=
  (result (jira_get_sprint_issues cfg requests_get fuel sid)).



End BoardIssues.



(** With one estimated issue in the sprint the assembly returns its
    table: the issue's nine fields, the sprint id and the sprint's
    attributes under their new names. *)
Lemma board_issues_of_busy_board :
  exists df,
    result (jira_get_board_issues demo_config busy_board_server 5 (Val (JNum 7)))
      = Returned df
    /\ nrows df = 1%nat
    /\ columns df
       = [ "issue_id"; "issue_key"; "project_name"; "project_id"; "issuetype";
           "status"; "status_cat_name"; "prio"; "storypoints"; "sprint_id";
           "sprint_state"; "sprint_name"; "board_id" ].
Proof.
  eexists. split; [ vm_compute; reflexivity | ]. split; reflexivity.
Qed.

(** ** Column lookup through the frame operations *)

Lemma assoc_app {V} (k : string) (l1 l2 : list (string * V)) :
  assoc k (l1 ++ l2)
  = match assoc k l1 with
    | Some v => Some v
    | None => assoc k l2
    end.
Proof.
  induction l1 as [|[k' v'] l1 IH]; [ reflexivity | ].
  cbn [app assoc]. destruct (String.eqb k k'); [ reflexivity | exact IH ].
Qed.

Lemma assoc_None {V} (k : string) (l : list (string * V)) :
  (forall c, c ∈ l -> fst c <> k) -> assoc k l = None.
Proof.
  induction l as [|[k' v'] l IH]; intros Hne; [ reflexivity | ].
  cbn [assoc]. destruct (String.eqb_spec k k') as [-> | _].
  - exfalso. exact (Hne (k', v') (list_elem_of_here _ _) eq_refl).
  - apply IH. intros c Hc. apply Hne. apply list_elem_of_further. exact Hc.
Qed.

(** Relabelling with [g] and transforming the cells with [h]: the column
    found under [k] afterwards is the one found under [k'] before, when
    [k'] is the only label that [g] sends to [k]. *)
Lemma assoc_relabel {V W} (g : string -> string) (h : V -> W) (k k' : string)
    (l : list (string * V)) :
  (forall c, c ∈ l -> g (fst c) = k <-> fst c = k') ->
  assoc k (map (fun c => (g (fst c), h (snd c))) l) = h <$> assoc k' l.
Proof.
  induction l as [|[n v] l IH]; intros Hg; [ reflexivity | ].
  cbn [map assoc fst snd].
  pose proof (Hg (n, v) (list_elem_of_here _ _)) as Hn. cbn [fst] in Hn.
  assert (IH' : assoc k (map (fun c => (g (fst c), h (snd c))) l) = h <$> assoc k' l).
  { apply IH. intros c Hc. apply Hg. apply list_elem_of_further. exact Hc. }
  destruct (String.eqb_spec k (g n)) as [Hk | Hk],
           (String.eqb_spec k' n) as [Hk' | Hk'].
  - reflexivity.
  - exfalso. apply Hk'. symmetry. apply Hn. symmetry. exact Hk.
  - exfalso. apply Hk. symmetry. apply Hn. symmetry. exact Hk'.
  - exact IH'.
Qed.

Lemma assoc_filter_kept {V} (P : string -> Prop) `{forall n, Decision (P n)}
    (k : string) (l : list (string * V)) :
  P k -> assoc k (filter (fun c => P (fst c)) l) = assoc k l.
Proof.
  intros HP. induction l as [|[n v] l IH]; [ reflexivity | ].
  rewrite filter_cons. cbn [fst assoc].
  destruct (decide (P n)) as [Hn | Hn].
  - cbn [assoc]. destruct (String.eqb k n); [ reflexivity | exact IH ].
  - destruct (String.eqb_spec k n) as [-> | _]; [ contradiction | exact IH ].
Qed.

Lemma assoc_is_Some {V} (k : string) (l : list (string * V)) :
  k ∈ map fst l -> exists v, assoc k l = Some v.
Proof.
  induction l as [|[n v] l IH]; intros Hk; [ inversion Hk | ].
  cbn [map fst] in Hk. cbn [assoc].
  destruct (String.eqb_spec k n) as [-> | Hne]; [ eexists; reflexivity | ].
  apply elem_of_cons in Hk as [Hk | Hk]; [ contradiction | exact (IH Hk) ].
Qed.

Lemma assoc_label {V} (k : string) (l : list (string * V)) (v : V) :
  assoc k l = Some v -> k ∈ map fst l.
Proof.
  induction l as [|[n w] l IH]; [ discriminate | ].
  cbn [assoc map fst]. destruct (String.eqb_spec k n) as [-> | Hne].
  - intros _. apply list_elem_of_here.
  - intros Hk. apply list_elem_of_further. exact (IH Hk).
Qed.

(** [setitem] on a label the frame has. *)
Lemma setitem_present (k : string) (v : list cell) (df : DataFrame) :
  k ∈ columns df ->
  nrows (setitem k v df) = nrows df
  /\ columns (setitem k v df) = columns df
  /\ assoc k (cols (setitem k v df)) = Some v
  /\ forall k', k' <> k -> assoc k' (cols (setitem k v df)) = assoc k' (cols df).
Proof.
  intros Hk. unfold setitem, columns in *.
  rewrite bool_decide_eq_true_2 by exact Hk. cbn [nrows cols].
  split; [ reflexivity | ].
  induction (cols df) as [|[n w] l IH].
  - inversion Hk.
  - cbn [map fst assoc]. rewrite bool_decide_decide. cbn [fst].
    destruct (decide (n = k)) as [-> | Hne].
    + cbn [fst assoc]. rewrite String.eqb_refl.
      destruct (decide (k ∈ map fst l)) as [Hin | Hout].
      * destruct (IH Hin) as (Hcols & _ & Hother).
        split; [ f_equal; exact Hcols | ]. split; [ reflexivity | ].
        intros k' Hk'. destruct (String.eqb_spec k' k); [ contradiction | ].
        apply Hother. exact Hk'.
      * assert (Hsame : map (fun c : string * list cell =>
                           if bool_decide (fst c = k) then (k, v) else c) l = l).
        { clear IH Hk. induction l as [|[n' w'] l IHl]; [ reflexivity | ].
          cbn [map fst] in *. rewrite bool_decide_decide.
          destruct (decide (n' = k)) as [-> | Hn'].
          - exfalso. apply Hout. apply list_elem_of_here.
          - f_equal. apply IHl. intros Hin. apply Hout.
            apply list_elem_of_further. exact Hin. }
        rewrite Hsame. split; [ reflexivity | ]. split; [ reflexivity | ].
        intros k' Hk'. destruct (String.eqb_spec k' k); [ contradiction | reflexivity ].
    + cbn [fst]. cbn [map fst] in Hk.
      apply elem_of_cons in Hk as [Hk | Hk]; [ congruence | ].
      destruct (IH Hk) as (Hcols & Hsame & Hother).
      split; [ f_equal; exact Hcols | ].
      cbn [assoc]. destruct (String.eqb_spec k n) as [-> | _]; [ contradiction | ].
      split; [ exact Hsame | ].
      intros k' Hk'. cbn [assoc].
      destruct (String.eqb k' n); [ reflexivity | apply Hother; exact Hk' ].
Qed.

(** ** The epic backfill *)

(** What the join makes of the renamer's labels. *)
Lemma left_label_facts (n : string) :
  n ∈ OUTPUT_NAMES ->
  (left_label n = "epic_name_x" <-> n = "epic_name")
  /\ (left_label n = "epic_color_x" <-> n = "epic_color")
  /\ (left_label n ∉ EPIC_DROPPED)
  /\ (default (left_label n) (EPIC_RENAMES !! left_label n) = "epic_name"
      <-> left_label n = "epic_name_x").
Proof.
  revert n. apply Forall_forall.
  apply (bool_decide_unpack _). vm_compute. exact I.
Qed.

Lemma right_label_facts (n : string) :
  n ∈ EPIC_FIELDS ->
  (right_label n = "epic_name_y" <-> n = "epic_name")
  /\ (right_label n = "epic_color_y" <-> n = "epic_color")
  /\ (right_label n = "issue_id_y" <-> n = "issue_id")
  /\ right_label n ∈ EPIC_DROPPED
  /\ right_label n <> "epic_name_x"
  /\ right_label n <> "epic_color_x".
Proof.
  revert n. apply Forall_forall.
  apply (bool_decide_unpack _). vm_compute. exact I.
Qed.

Lemma zip_with_maps {A B C D} (f : B -> C -> D) (a : A -> B) (b : A -> C)
    (l : list A) :
  zip_with f (map a l) (map b l) = map (fun x => f (a x) (b x)) l.
Proof.
  induction l as [|x l IH]; [ reflexivity | ].
  cbn [map zip_with]. rewrite IH. reflexivity.
Qed.

Lemma assoc_renamed (d : gmap string string) (k k' : string) (df : DataFrame) :
  (forall c, c ∈ cols df -> default (fst c) (d !! fst c) = k <-> fst c = k') ->
  assoc k (cols (rename d df)) = assoc k' (cols df).
Proof.
  intros Hd. unfold rename. cbn [cols].
  rewrite <- (option_fmap_id (assoc k' (cols df))).
  exact (assoc_relabel (fun n => default n (d !! n)) (fun x => x) k k' (cols df) Hd).
Qed.

Lemma member_of_label (n : string) (l : list (string * list cell)) :
  n ∈ map fst l -> exists c, c ∈ l /\ fst c = n.
Proof.
  intros Hn. apply list_elem_of_In in Hn. apply in_map_iff in Hn as (c & Hc & Hin).
  exists c. split; [ apply list_elem_of_In; exact Hin | exact Hc ].
Qed.

(** *** The key check *)

Lemma dtype_of_with_string (c : list cell) :
  Exists (fun x => is_str_cell x = true) c -> dtype_of c = ObjectDtype.
Proof.
  intros Hstr. apply Exists_exists in Hstr as (x & Hx & Hstr).
  apply list_elem_of_In in Hx.
  destruct x as [|[| b | z | s | l | o]]; try discriminate Hstr.
  unfold dtype_of.
  replace (forallb is_bool_cell c) with false.
  2:{ symmetry. apply Bool.not_true_is_false. intros Hall.
      rewrite forallb_forall in Hall. specialize (Hall _ Hx). discriminate Hall. }
  replace (forallb (fun x => isnull x || int64_cell x) c) with false.
  2:{ symmetry. apply Bool.not_true_is_false. intros Hall.
      rewrite forallb_forall in Hall. specialize (Hall _ Hx). discriminate Hall. }
  rewrite Bool.andb_false_r. reflexivity.
Qed.

Lemma dtype_of_strings (c : list cell) :
  Forall (fun x => is_str_cell x = true) c -> dtype_of c = ObjectDtype.
Proof.
  intros Hall. destruct c as [|x c]; [ reflexivity | ].
  apply dtype_of_with_string. apply Forall_cons in Hall as [Hx _].
  apply Exists_cons_hd. exact Hx.
Qed.


(** Jira's ids pass the check: both key columns are object columns. *)
Lemma jira_ids_compatible (ids parents : list cell) :
  jira_ids ids parents -> merge_keys_compatible parents ids = true.
Proof.
  intros (Hids & _ & Hparent). unfold merge_keys_compatible.
  rewrite (dtype_of_with_string parents Hparent), (dtype_of_strings ids Hids).
  reflexivity.
Qed.


(** A key joins a string exactly when it is that string. *)
Lemma key_match_string (a : cell) (s : string) :
  key_match a (str_cell s) = true <-> a = str_cell s.
Proof.
  unfold key_match, str_cell. cbn [isnull]. rewrite Bool.andb_false_r. cbn [orb].
  destruct a as [|[| b | z | t | l | o]]; cbn [cell_eqb json_eqb];
    try (split; [ discriminate | discriminate ]).
  rewrite String.eqb_eq. split; [ intros ->; reflexivity | intros [= ->]; reflexivity ].
Qed.

Lemma is_str_cell_spec (x : cell) :
  is_str_cell x = true -> exists s, x = str_cell s.
Proof.
  destruct x as [|[| b | z | s | l | o]]; try discriminate.
  intros _. exists s. reflexivity.
Qed.

Section EpicBackfill.

Variable df : DataFrame.
Variables ids parents names colors : list cell.

Hypothesis Hlabels : forall n, n ∈ columns df -> n ∈ OUTPUT_NAMES.
Hypothesis Hids : assoc "issue_id" (cols df) = Some ids.
Hypothesis Hparents : assoc "parent_id" (cols df) = Some parents.
Hypothesis Hnames : assoc "epic_name" (cols df) = Some names.
Hypothesis Hcolors : assoc "epic_color" (cols df) = Some colors.
Hypothesis Hcompatible : merge_keys_compatible parents ids = true.

Local Abbreviation pairs := (left_join_pairs parents ids).

(** The columns of [df_epics]. *)
Local Abbreviation epic_cols :=
  (flat_map (fun n => filter (fun c => fst c = n) (cols df)) EPIC_FIELDS).

(** The columns after the join. *)
Local Abbreviation merged_cols :=
  (map (fun c => (left_label (fst c), take_left pairs (snd c))) (cols df)
   ++ map (fun c => (right_label (fst c), take_right pairs (snd c))) epic_cols).

Lemma epic_fields_present (n : string) : n ∈ EPIC_FIELDS -> n ∈ columns df.
Proof.
  intros Hn. unfold EPIC_FIELDS in Hn.
  repeat (apply elem_of_cons in Hn as [-> | Hn];
          [ eapply assoc_label; eassumption | ]).
  inversion Hn.
Qed.

Lemma df_epics_selected :
  getitem_list EPIC_FIELDS df = Returned (mkDF (nrows df) epic_cols).
Proof.
  unfold getitem_list.
  replace (filter (fun n => n ∉ columns df) EPIC_FIELDS) with (@nil string);
    [ reflexivity | ].
  symmetry. apply elem_of_nil_inv. intros n Hn.
  apply list_elem_of_filter in Hn as [Hout Hn].
  exact (Hout (epic_fields_present n Hn)).
Qed.

Lemma epic_cols_member (c : string * list cell) :
  c ∈ epic_cols -> c ∈ cols df /\ fst c ∈ EPIC_FIELDS.
Proof.
  intros Hc. apply list_elem_of_In in Hc. apply in_flat_map in Hc as (n & Hn & Hc).
  apply list_elem_of_In in Hc. apply list_elem_of_filter in Hc as [Hlabel Hc].
  split; [ exact Hc | ]. rewrite Hlabel. apply list_elem_of_In. exact Hn.
Qed.

Lemma epic_cols_lookup (k : string) :
  k ∈ EPIC_FIELDS -> assoc k epic_cols = assoc k (cols df).
Proof.
  intros Hk. unfold EPIC_FIELDS in *. cbn [flat_map].
  rewrite !assoc_app. cbn [assoc].
  assert (Hother : forall n, n <> k ->
            assoc k (filter (fun c : string * list cell => fst c = n) (cols df)) = None).
  { intros n Hn. apply assoc_None. intros c Hc.
    apply list_elem_of_filter in Hc as [Hlabel _]. congruence. }
  assert (Hsame : assoc k (filter (fun c : string * list cell => fst c = k) (cols df))
                  = assoc k (cols df)).
  { exact (assoc_filter_kept (fun n => n = k) k (cols df) eq_refl). }
  destruct (assoc_is_Some k (cols df) (epic_fields_present k Hk)) as [v Hv].
  repeat (apply elem_of_cons in Hk as [-> | Hk];
          [ rewrite ?Hother by discriminate; rewrite Hsame, Hv; reflexivity | ]).
  inversion Hk.
Qed.


Lemma df_merged :
  merge_left df (mkDF (nrows df) epic_cols) "parent_id" "issue_id"
  = Returned (mkDF (length pairs) merged_cols).
Proof.
  unfold merge_left, getitem_col. cbn [cols].
  rewrite Hparents.
  rewrite (epic_cols_lookup "issue_id") by (apply (bool_decide_unpack _); reflexivity).
  rewrite Hids. cbn [obind]. rewrite Hcompatible. do 2 f_equal. f_equal.
  - apply map_ext_in. intros c Hc. f_equal.
    unfold left_label. apply list_elem_of_In in Hc.
    rewrite (bool_decide_eq_true_2 (fst c ∈ columns df))
      by (apply label_of_member; exact Hc).
    cbn [andb]. unfold columns at 1. cbn [cols].
    destruct (decide (fst c ∈ EPIC_FIELDS)) as [Hin | Hout].
    + rewrite (bool_decide_eq_true_2 _ Hin).
      rewrite bool_decide_eq_true_2; [ reflexivity | ].
      destruct (assoc_is_Some (fst c) (cols df) (label_of_member c (cols df) Hc))
        as [w Hw].
      rewrite <- (epic_cols_lookup (fst c) Hin) in Hw.
      eapply assoc_label. exact Hw.
    + rewrite (bool_decide_eq_false_2 _ Hout).
      rewrite bool_decide_eq_false_2; [ reflexivity | ].
      intros Hin. apply Hout.
      apply list_elem_of_In in Hin. apply in_map_iff in Hin as (c' & Heq & Hc').
      apply list_elem_of_In in Hc'. apply epic_cols_member in Hc' as [_ Hc'].
      rewrite <- Heq. exact Hc'.
  - apply map_ext_in. intros c Hc. f_equal.
    apply list_elem_of_In in Hc. apply epic_cols_member in Hc as [Hc Hfield].
    rewrite (bool_decide_eq_true_2 (fst c ∈ columns df))
      by (apply label_of_member; exact Hc).
    cbn [andb]. unfold columns. cbn [cols].
    rewrite bool_decide_eq_true_2; [ reflexivity | ].
    destruct (assoc_is_Some (fst c) (cols df) (label_of_member c (cols df) Hc))
      as [w Hw].
    rewrite <- (epic_cols_lookup (fst c) Hfield) in Hw.
    eapply assoc_label. exact Hw.
Qed.


Lemma left_label_of (c : string * list cell) :
  c ∈ cols df -> fst c ∈ OUTPUT_NAMES.
Proof. intros Hc. apply Hlabels. apply label_of_member. exact Hc. Qed.

Lemma merged_member (c : string * list cell) :
  c ∈ merged_cols ->
  (exists n, n ∈ OUTPUT_NAMES /\ fst c = left_label n)
  \/ (exists n, n ∈ EPIC_FIELDS /\ fst c = right_label n).
Proof.
  intros Hc. apply elem_of_app in Hc as [Hc | Hc];
    apply list_elem_of_In in Hc; apply in_map_iff in Hc as (c0 & <- & Hc0);
    apply list_elem_of_In in Hc0.
  - left. exists (fst c0). split; [ apply left_label_of; exact Hc0 | reflexivity ].
  - right. exists (fst c0). split; [ | reflexivity ].
    apply epic_cols_member in Hc0 as [_ H0]. exact H0.
Qed.

Lemma merged_left_lookup (k : string) (v : list cell) :
  k ∈ ["epic_name"; "epic_color"] ->
  assoc k (cols df) = Some v ->
  assoc (k +:+ "_x") merged_cols = Some (take_left pairs v).
Proof.
  intros Hk Hv. rewrite assoc_app.
  rewrite (assoc_relabel left_label (take_left pairs) (k +:+ "_x") k (cols df)).
  - rewrite Hv. reflexivity.
  - intros c Hc.
    destruct (left_label_facts (fst c) (left_label_of c Hc)) as (Hn & Hcol & _).
    repeat (apply elem_of_cons in Hk as [-> | Hk]; [ assumption | ]).
    inversion Hk.
Qed.

Lemma merged_right_lookup (k : string) (v : list cell) :
  k ∈ EPIC_FIELDS ->
  assoc k (cols df) = Some v ->
  assoc (k +:+ "_y") merged_cols = Some (take_right pairs v).
Proof.
  intros Hk Hv. rewrite assoc_app.
  rewrite assoc_None.
  - rewrite (assoc_relabel right_label (take_right pairs) (k +:+ "_y") k epic_cols).
    + rewrite (epic_cols_lookup k Hk), Hv. reflexivity.
    + intros c Hc. apply epic_cols_member in Hc as [_ Hc].
      destruct (right_label_facts (fst c) Hc) as (Hn & Hcol & Hid & _).
      unfold EPIC_FIELDS in Hk.
      repeat (apply elem_of_cons in Hk as [-> | Hk]; [ assumption | ]).
      inversion Hk.
  - intros c Hc. apply list_elem_of_In in Hc.
    apply in_map_iff in Hc as (c0 & <- & Hc0). apply list_elem_of_In in Hc0.
    cbn [fst]. intros Heq.
    destruct (left_label_facts (fst c0) (left_label_of c0 Hc0)) as (_ & _ & Hnd & _).
    apply Hnd. rewrite Heq.
    destruct (right_label_facts k Hk) as (_ & _ & _ & Hdropped & _).
    exact Hdropped.
Qed.


(** The epic lines succeed, and the epic names of the result are the
    backfilled names of the joined rows. *)
Lemma epic_backfill_epic_name :
  exists out,
    epic_backfill df = Returned out
    /\ nrows out = length pairs
    /\ getitem_col "epic_name" out = Returned (map (backfilled names) pairs).
Proof.
  unfold epic_backfill.
  rewrite df_epics_selected. cbn [obind]. rewrite df_merged. cbn [obind].
  set (df1 := mkDF (length pairs) merged_cols).
  assert (Hname_x : assoc "epic_name_x" (cols df1) = Some (take_left pairs names)).
  { apply (merged_left_lookup "epic_name" names); [ | exact Hnames ].
    apply (bool_decide_unpack _). reflexivity. }
  assert (Hname_y : assoc "epic_name_y" (cols df1) = Some (take_right pairs names)).
  { apply (merged_right_lookup "epic_name" names); [ | exact Hnames ].
    apply (bool_decide_unpack _). reflexivity. }
  assert (Hcolor_x : assoc "epic_color_x" (cols df1) = Some (take_left pairs colors)).
  { apply (merged_left_lookup "epic_color" colors); [ | exact Hcolors ].
    apply (bool_decide_unpack _). reflexivity. }
  assert (Hcolor_y : assoc "epic_color_y" (cols df1) = Some (take_right pairs colors)).
  { apply (merged_right_lookup "epic_color" colors); [ | exact Hcolors ].
    apply (bool_decide_unpack _). reflexivity. }
  assert (Hid_y : assoc "issue_id_y" (cols df1) = Some (take_right pairs ids)).
  { apply (merged_right_lookup "issue_id" ids); [ | exact Hids ].
    apply (bool_decide_unpack _). reflexivity. }
  (* the epic name *)
  unfold loc_fill_from at 1. unfold getitem_col.
  rewrite Hname_x, Hname_y. cbn [obind].
  set (new_names := zip_with (fun t s => if isnull t then s else t)
                      (take_left pairs names) (take_right pairs names)).
  destruct (setitem_present "epic_name_x" new_names df1
              (assoc_label _ _ _ Hname_x)) as (Hrows2 & Hcols2 & Hset2 & Hkeep2).
  set (df2 := setitem "epic_name_x" new_names df1) in *.
  (* the epic colour *)
  unfold loc_fill_from. unfold getitem_col.
  rewrite (Hkeep2 "epic_color_x"), (Hkeep2 "epic_color_y") by discriminate.
  rewrite Hcolor_x, Hcolor_y. cbn [obind].
  set (new_colors := zip_with (fun t s => if isnull t then s else t)
                       (take_left pairs colors) (take_right pairs colors)).
  destruct (setitem_present "epic_color_x" new_colors df2) as
    (Hrows3 & Hcols3 & Hset3 & Hkeep3).
  { rewrite Hcols2. exact (assoc_label _ _ _ Hcolor_x). }
  set (df3 := setitem "epic_color_x" new_colors df2) in *.
  (* the three right-hand columns are dropped *)
  unfold drop.
  replace (filter (fun n => n ∉ columns df3) EPIC_DROPPED) with (@nil string).
  2:{ symmetry. apply elem_of_nil_inv. intros n Hn.
      apply list_elem_of_filter in Hn as [Hout Hn]. apply Hout.
      rewrite Hcols3, Hcols2. unfold EPIC_DROPPED in Hn.
      repeat (apply elem_of_cons in Hn as [-> | Hn];
              [ eapply assoc_label; eassumption | ]).
      inversion Hn. }
  cbn [obind].
  set (df4 := mkDF (nrows df3) (filter (fun c => fst c ∉ EPIC_DROPPED) (cols df3))).
  (* the renaming and the default *)
  assert (Hepic : assoc "epic_name" (cols (rename EPIC_RENAMES df4)) = Some new_names).
  { rewrite (assoc_renamed EPIC_RENAMES "epic_name" "epic_name_x" df4).
    - subst df4. cbn [cols].
      transitivity (assoc "epic_name_x" (cols df3)).
      { refine (assoc_filter_kept (fun n => n ∉ EPIC_DROPPED) "epic_name_x"
                  (cols df3) _).
        apply (bool_decide_unpack _). reflexivity. }
      rewrite (Hkeep3 "epic_name_x") by discriminate. exact Hset2.
    - intros c Hc. subst df4. cbn [cols] in Hc.
      apply list_elem_of_filter in Hc as [Hkept Hc].
      apply label_of_member in Hc. fold (columns df3) in Hc.
      rewrite Hcols3, Hcols2 in Hc.
      apply member_of_label in Hc as (c1 & Hc1 & Hlabel).
      apply merged_member in Hc1 as [(n & Hn & Hc1) | (n & Hn & Hc1)].
      + rewrite <- Hlabel, Hc1.
        destruct (left_label_facts n Hn) as (_ & _ & _ & Hren). exact Hren.
      + exfalso. apply Hkept. rewrite <- Hlabel, Hc1.
        destruct (right_label_facts n Hn) as (_ & _ & _ & Hdropped & _).
        exact Hdropped. }
  unfold fillna_attr, getattr_col. rewrite Hepic. cbn [obind].
  eexists. split; [ reflexivity | ].
  destruct (setitem_present "epic_name"
              (map (fun x => if isnull x then str_cell "No Epic" else x) new_names)
              (rename EPIC_RENAMES df4) (assoc_label _ _ _ Hepic))
    as (Hrows5 & _ & Hset5 & _).
  split.
  - rewrite Hrows5. cbn [rename nrows df4]. rewrite Hrows3, Hrows2. reflexivity.
  - unfold getitem_col. rewrite Hset5. f_equal.
    subst new_names. unfold take_left, take_right.
    rewrite zip_with_maps, map_map. apply map_ext. intros [i m].
    unfold backfilled. cbn [fst snd].
    destruct (isnull (nth i names NaN)) eqn:Hown; [ reflexivity | ].
    rewrite Hown. reflexivity.
Qed.

End EpicBackfill.

(** *** The rows of the join *)

Lemma matches_spec (a : cell) (right_keys : list cell) (j : nat) :
  j ∈ matches a right_keys
  <-> exists b, right_keys !! j = Some b /\ key_match a b = true.
Proof.
  unfold matches. split.
  - intros Hj. apply list_elem_of_In in Hj. apply in_map_iff in Hj as ([j' b] & Hfst & Hin).
    cbn [fst] in Hfst. subst j'. apply list_elem_of_In in Hin.
    apply list_elem_of_filter in Hin as [Hmatch Hin]. cbn [snd] in Hmatch.
    apply elem_of_lookup_imap in Hin as (i & b' & Heq & Hlook).
    injection Heq as -> ->. exists b'. split; assumption.
  - intros (b & Hlook & Hmatch). apply list_elem_of_In. apply in_map_iff.
    exists (j, b). split; [ reflexivity | ]. apply list_elem_of_In.
    apply list_elem_of_filter. split; [ exact Hmatch | ].
    apply (elem_of_lookup_imap_2 (fun j b => (j, b))). exact Hlook.
Qed.

Lemma left_join_pairs_spec (left_keys right_keys : list cell) (i : nat) (m : option nat) :
  (i, m) ∈ left_join_pairs left_keys right_keys
  <-> exists a, left_keys !! i = Some a
                /\ match m with
                   | Some j => j ∈ matches a right_keys
                   | None => matches a right_keys = []
                   end.
Proof.
  unfold left_join_pairs. split.
  - intros Hin. apply list_elem_of_In in Hin.
    apply in_flat_map in Hin as ([i' a] & Hia & Hin).
    apply list_elem_of_In in Hia.
    apply elem_of_lookup_imap in Hia as (i0 & a0 & Heq & Hlook).
    injection Heq as -> ->. cbn [fst snd] in Hin.
    destruct (matches a0 right_keys) as [|j0 js] eqn:Hm.
    + destruct Hin as [Heq | []]. injection Heq as -> <-.
      exists a0. split; [ exact Hlook | exact Hm ].
    + apply in_map_iff in Hin as (j & Heq & Hj). injection Heq as -> <-.
      exists a0. split; [ exact Hlook | ]. rewrite Hm. apply list_elem_of_In. exact Hj.
  - intros (a & Hlook & Hm). apply list_elem_of_In. apply in_flat_map.
    exists (i, a). split.
    + apply list_elem_of_In. apply (elem_of_lookup_imap_2 (fun i a => (i, a))).
      exact Hlook.
    + cbn [fst snd]. destruct m as [j|].
      * destruct (matches a right_keys) as [|j0 js] eqn:Hjs; [ inversion Hm | ].
        apply (in_map (fun j => (i, Some j))). apply list_elem_of_In. exact Hm.
      * rewrite Hm. left. reflexivity.
Qed.

(** The rows of the backfilled epic name column, in terms of the join:
    every issue row is kept; a name that is not null stays; a null name
    takes the name of a joining row; without a joining row it becomes the
    literal. *)
Lemma epic_name_rows (df : DataFrame) (ids parents names colors : list cell) :
  (forall n, n ∈ columns df -> n ∈ OUTPUT_NAMES) ->
  getitem_col "issue_id" df = Returned ids ->
  getitem_col "parent_id" df = Returned parents ->
  getitem_col "epic_name" df = Returned names ->
  getitem_col "epic_color" df = Returned colors ->
  merge_keys_compatible parents ids = true ->
  exists out out_names,
    epic_backfill df = Returned out
    /\ getitem_col "epic_name" out = Returned out_names
    /\ let pairs := left_join_pairs parents ids in
       nrows out = length pairs
       /\ length out_names = length pairs
       /\ forall i pid own,
            parents !! i = Some pid ->
            names !! i = Some own ->
            (exists p m, pairs !! p = Some (i, m))
            /\ (isnull own = false ->
                forall p m, pairs !! p = Some (i, m) -> out_names !! p = Some own)
            /\ (isnull own = true ->
                forall j id inherited,
                  ids !! j = Some id ->
                  key_match pid id = true ->
                  names !! j = Some inherited ->
                  isnull inherited = false ->
                  (exists p, pairs !! p = Some (i, Some j)
                             /\ out_names !! p = Some inherited)
                  /\ ((forall j' id', ids !! j' = Some id' ->
                                      key_match pid id' = true -> j' = j) ->
                      forall p m, pairs !! p = Some (i, m) ->
                                  out_names !! p = Some inherited))
            /\ (isnull own = true ->
                (forall j id, ids !! j = Some id -> key_match pid id = false) ->
                forall p m, pairs !! p = Some (i, m) ->
                  m = None /\ out_names !! p = Some (str_cell "No Epic")).
Proof.
  intros Hlabels Hids Hparents Hnames Hcolors Hcompatible.
  unfold getitem_col in Hids, Hparents, Hnames, Hcolors.
  destruct (assoc "issue_id" (cols df)) as [ids'|] eqn:Ea; [ | discriminate ].
  destruct (assoc "parent_id" (cols df)) as [parents'|] eqn:Eb; [ | discriminate ].
  destruct (assoc "epic_name" (cols df)) as [names'|] eqn:Ec; [ | discriminate ].
  destruct (assoc "epic_color" (cols df)) as [colors'|] eqn:Ed; [ | discriminate ].
  injection Hids as ->. injection Hparents as ->.
  injection Hnames as ->. injection Hcolors as ->.
  destruct (epic_backfill_epic_name df ids parents names colors Hlabels Ea Eb Ec Ed
              Hcompatible)
    as (out & Hout & Hrows & Hcol).
  exists out, (map (backfilled names) (left_join_pairs parents ids)).
  split; [ exact Hout | ]. split; [ exact Hcol | ].
  cbn zeta. split; [ exact Hrows | ]. split; [ apply length_map | ].
  set (pairs := left_join_pairs parents ids).
  assert (Hrow : forall p i m,
             pairs !! p = Some (i, m) ->
             map (backfilled names) pairs !! p = Some (backfilled names (i, m))).
  { intros p i m Hp. change (map (backfilled names) pairs)
      with (backfilled names <$> pairs).
    rewrite list_lookup_fmap, Hp. reflexivity. }
  intros i pid own Hpid Hown.
  assert (Hnth : nth i names NaN = own) by (apply nth_lookup_Some; exact Hown).
  split; [ | split; [ | split ] ].
  - destruct (matches pid ids) as [|j js] eqn:Hm.
    + assert (Hin : (i, None) ∈ pairs).
      { apply left_join_pairs_spec. exists pid. split; [ exact Hpid | exact Hm ]. }
      apply list_elem_of_lookup_1 in Hin as [p Hp]. exists p, None. exact Hp.
    + assert (Hin : (i, Some j) ∈ pairs).
      { apply left_join_pairs_spec. exists pid. split; [ exact Hpid | ].
        rewrite Hm. apply list_elem_of_here. }
      apply list_elem_of_lookup_1 in Hin as [p Hp]. exists p, (Some j). exact Hp.
  - intros Hnot p m Hp. rewrite (Hrow p i m Hp). f_equal.
    unfold backfilled. cbn [fst snd]. rewrite Hnth, Hnot. reflexivity.
  - intros Hnull j id inherited Hid Hmatch Hinh Hnot.
    assert (Hin : (i, Some j) ∈ pairs).
    { apply left_join_pairs_spec. exists pid. split; [ exact Hpid | ].
      apply matches_spec. exists id. split; assumption. }
    assert (Hval : backfilled names (i, Some j) = inherited).
    { unfold backfilled. cbn [fst snd]. rewrite Hnth, Hnull.
      rewrite (nth_lookup_Some names j NaN inherited Hinh), Hnot. reflexivity. }
    split.
    + apply list_elem_of_lookup_1 in Hin as [p Hp]. exists p.
      split; [ exact Hp | ]. rewrite (Hrow p i (Some j) Hp), Hval. reflexivity.
    + intros Honly p m Hp. rewrite (Hrow p i m Hp). f_equal.
      apply list_elem_of_lookup_2 in Hp.
      apply left_join_pairs_spec in Hp as (a & Ha & Hm).
      rewrite Hpid in Ha. injection Ha as <-.
      destruct m as [j'|].
      * apply matches_spec in Hm as (b & Hb & Hmatch').
        rewrite (Honly j' b Hb Hmatch'). exact Hval.
      * exfalso.
        assert (Hj : j ∈ matches pid ids).
        { apply matches_spec. exists id. split; assumption. }
        rewrite Hm in Hj. inversion Hj.
  - intros Hnull Hnone p m Hp.
    assert (Hm : m = None).
    { apply list_elem_of_lookup_2 in Hp.
      apply left_join_pairs_spec in Hp as (a & Ha & Hm).
      rewrite Hpid in Ha. injection Ha as <-.
      destruct m as [j|]; [ | reflexivity ].
      apply matches_spec in Hm as (b & Hb & Hmatch).
      rewrite (Hnone j b Hb) in Hmatch. discriminate Hmatch. }
    subst m. split; [ reflexivity | ].
    rewrite (Hrow p i None Hp). f_equal.
    unfold backfilled. cbn [fst snd]. rewrite Hnth, Hnull. reflexivity.
Qed.


(** C4, as amended.  On a table that carries the renamer's labels, has
    the columns [issue_id], [parent_id], [epic_name] and [epic_color], and
    holds Jira's ids (issue ids that are strings, parent ids that are
    strings or missing, one at least present) the epic lines succeed and
    keep every issue row.  A row whose own epic name is not null keeps
    it.  A row whose own epic name is null and whose [parent_id] is the
    [issue_id] of a row with an epic name (such as ['Feature X']) has an
    output row with that name, and has that name in all its output rows
    when no other row has that [issue_id].  A row whose own epic name is
    null and which has no parent, or a parent id that is no row's
    [issue_id], gets the literal ['No Epic']. *)
Theorem epic_backfill_cases (df : DataFrame) (ids parents names colors : list cell) :
  (forall n, n ∈ columns df -> n ∈ OUTPUT_NAMES) ->
  getitem_col "issue_id" df = Returned ids ->
  getitem_col "parent_id" df = Returned parents ->
  getitem_col "epic_name" df = Returned names ->
  getitem_col "epic_color" df = Returned colors ->
  jira_ids ids parents ->
  exists out out_names,
    epic_backfill df = Returned out
    /\ getitem_col "epic_name" out = Returned out_names
    /\ let pairs := left_join_pairs parents ids in
       nrows out = length pairs
       /\ length out_names = length pairs
       /\ forall i pid own,
            parents !! i = Some pid ->
            names !! i = Some own ->
            (exists p m, pairs !! p = Some (i, m))
            /\ (isnull own = false ->
                forall p m, pairs !! p = Some (i, m) -> out_names !! p = Some own)
            /\ (isnull own = true ->
                forall j inherited,
                  ids !! j = Some pid ->
                  names !! j = Some inherited ->
                  isnull inherited = false ->
                  (exists p, pairs !! p = Some (i, Some j)
                             /\ out_names !! p = Some inherited)
                  /\ ((forall j', ids !! j' = Some pid -> j' = j) ->
                      forall p m, pairs !! p = Some (i, m) ->
                                  out_names !! p = Some inherited))
            /\ (isnull own = true ->
                isnull pid = true \/ pid ∉ ids ->
                forall p m, pairs !! p = Some (i, m) ->
                  m = None /\ out_names !! p = Some (str_cell "No Epic")).
Proof.
  intros Hlabels Hids Hparents Hnames Hcolors Hjira.
  destruct (epic_name_rows df ids parents names colors Hlabels Hids Hparents Hnames
              Hcolors (jira_ids_compatible ids parents Hjira))
    as (out & out_names & Hout & Hcol & Hrows & Hlen & Hcases).
  exists out, out_names. split; [ exact Hout | ]. split; [ exact Hcol | ].
  cbn zeta in *. split; [ exact Hrows | ]. split; [ exact Hlen | ].
  destruct Hjira as (Hstr & _ & _).
  assert (Hid : forall j id, ids !! j = Some id -> exists s, id = str_cell s).
  { intros j id Hj. apply is_str_cell_spec. rewrite Forall_forall in Hstr.
    apply Hstr. exact (list_elem_of_lookup_2 _ _ _ Hj). }
  intros i pid own Hpid Hown.
  destruct (Hcases i pid own Hpid Hown) as (Hkept & Hown_name & Hinherit & Hnone).
  split; [ exact Hkept | ]. split; [ exact Hown_name | ]. split.
  - intros Hnull j inherited Hj Hinh Hfilled.
    destruct (Hid j pid Hj) as (s & ->).
    destruct (Hinherit Hnull j (str_cell s) inherited Hj
                (proj2 (key_match_string (str_cell s) s) eq_refl) Hinh Hfilled)
      as [Hrow Hall].
    split; [ exact Hrow | ]. intros Honly. apply Hall.
    intros j' id' Hj' Hmatch. apply Honly.
    destruct (Hid j' id' Hj') as (s' & ->).
    apply key_match_string in Hmatch. rewrite Hmatch. exact Hj'.
  - intros Hnull Habsent. apply (Hnone Hnull).
    intros j id Hj. destruct (Hid j id Hj) as (s & ->).
    apply Bool.not_true_is_false. intros Hmatch.
    apply key_match_string in Hmatch. subst pid.
    destruct Habsent as [Hmissing | Habsent]; [ discriminate Hmissing | ].
    exact (Habsent (list_elem_of_lookup_2 _ _ _ Hj)).
Qed.

Lemma epic_backfill_cases_witness :
  exists out out_names,
    epic_backfill epic_table = Returned out
    /\ getitem_col "epic_name" out = Returned out_names
    /\ out_names !! 0%nat = Some (str_cell "Feature X")
    /\ out_names !! 1%nat = Some (str_cell "Feature X")
    /\ out_names !! 2%nat = Some (str_cell "No Epic")
    /\ out_names !! 3%nat = Some (str_cell "Own Epic").
Proof.
  destruct (epic_backfill_cases epic_table
              [str_cell "10000"; str_cell "10001"; str_cell "10002"; str_cell "10003"]
              [NaN; str_cell "10000"; NaN; str_cell "10000"]
              [str_cell "Feature X"; NaN; NaN; str_cell "Own Epic"]
              [str_cell "purple"; NaN; NaN; str_cell "green"])
    as (out & out_names & Hout & Hcol & _ & _ & Hcases).
  - apply Forall_forall. apply (bool_decide_unpack _). vm_compute. exact I.
  - reflexivity.
  - reflexivity.
  - reflexivity.
  - reflexivity.
  - split; [ | split ].
    + repeat constructor.
    + repeat constructor.
    + apply Exists_cons_tl. apply Exists_cons_hd. reflexivity.
  - exists out, out_names. split; [ exact Hout | ]. split; [ exact Hcol | ].
    cbn zeta in Hcases.
    destruct (Hcases 0%nat NaN (str_cell "Feature X") eq_refl eq_refl)
      as (_ & Hepic & _).
    destruct (Hcases 1%nat (str_cell "10000") NaN eq_refl eq_refl)
      as (_ & _ & Hstory & _).
    destruct (Hcases 2%nat NaN NaN eq_refl eq_refl) as (_ & _ & _ & Htask).
    destruct (Hcases 3%nat (str_cell "10000") (str_cell "Own Epic") eq_refl eq_refl)
      as (_ & Hown & _).
    split; [ exact (Hepic eq_refl 0%nat None eq_refl) | ].
    split.
    { destruct (Hstory eq_refl 0%nat (str_cell "Feature X") eq_refl eq_refl eq_refl)
        as [_ Hall].
      apply (Hall ltac:(intros [|[|[|[|j']]]] Hj'; try discriminate Hj'; reflexivity)
               1%nat (Some 0%nat)).
      reflexivity. }
    split; [ exact (proj2 (Htask eq_refl (or_introl eq_refl) 2%nat None eq_refl)) | ].
    exact (Hown eq_refl 3%nat (Some 0%nat) eq_refl).
Defined.

(** The claim as first stated fails for the issue without parent: in a
    table where no issue has a parent there is no [parent_id] column, and
    the epic lines raise [KeyError] instead of giving the issue the
    literal ['No Epic']. *)
Lemma epic_lines_raise_without_parents :
  let lone_task :=
    mkDF 1 [ ("issue_id", [str_cell "10002"]);
             ("issuetype", [str_cell "Task"]);
             ("epic_name", [NaN]);
             ("epic_color", [NaN]) ] in
  ~ returns (epic_backfill lone_task)
  /\ epic_backfill lone_task = Raised (KeyError "parent_id").
Proof.
  cbn zeta. split; [ | vm_compute; reflexivity ].
  intros [out Hout]. vm_compute in Hout. discriminate Hout.
Qed.

(** The table of the four sample issues after the whole cell: the epic
    and the story with a name of its own keep their names, the story
    below the epic takes the epic's name, the task without parent gets
    ["No Epic"]; the colours are translated. *)
Lemma enhance_epic_table :
  obind (obind (epic_backfill epic_table) replace_colors)
        (fun out => obind (getitem_col "epic_name" out) (fun names =>
                    obind (getitem_col "epic_color" out) (fun colors =>
                    Returned (names, colors))))
  = Returned ([ str_cell "Feature X"; str_cell "Feature X"; str_cell "No Epic";
                str_cell "Own Epic" ],
              [ str_cell "purple"; str_cell "purple"; str_cell "white";
                str_cell "green" ]).
Proof. vm_compute. reflexivity. Qed.

(** The projector's output carries the renamer's labels: the hypothesis
    of the backfill statement holds of every table the first two lines of
    the cell produce. *)
Lemma project_rename_labels (df : DataFrame) :
  exists out,
    project_rename df = Returned out
    /\ forall n, n ∈ columns out -> n ∈ OUTPUT_NAMES.
Proof.
  unfold project_rename, project_fields, getitem_list.
  rewrite own_labels_present.
  cbn [obind]. eexists. split; [ reflexivity | ]. intros n Hn.
  unfold columns, rename in Hn. cbn [cols] in Hn.
  apply list_elem_of_In in Hn. apply in_map_iff in Hn as (c1 & Hn & Hin).
  apply in_map_iff in Hin as ([n0 c0] & <- & Hin).
  cbn [fst] in Hn. subst n.
  apply in_flat_map in Hin as (k & Hk & Hin).
  apply list_elem_of_In in Hin. apply list_elem_of_filter in Hin as [Hlabel _].
  cbn [fst] in Hlabel. subst k.
  apply list_elem_of_In in Hk. apply list_elem_of_filter in Hk as [Hk _].
  revert n0 Hk. apply Forall_forall.
  apply (bool_decide_unpack _). vm_compute. exact I.
Qed.

(** * Further properties of the fetchers *)






Lemma fetch_pages_error_step (cfg : config) (requests_get : request -> http_reply)
    (fuel : nat) (guarded : bool) (path key : string)
    (extra : list (string * json)) (N k : Z) (acc : list json) (e : exn) :
  result (jira_auth_get_connect cfg requests_get path
            (Some (page_params extra N k)) None) = Returned (ExcObj e) ->
  result (fetch_pages cfg requests_get (S fuel) guarded true path key extra N acc k)
  = (if guarded && is_requests_HTTPError (ExcObj e) then Returned acc
     else Raised AttributeError).
Proof.
  intros Hres. cbn [fetch_pages]. fold (page_params extra N k).
  destruct (jira_auth_get_connect cfg requests_get path
              (Some (page_params extra N k)) None) as [res log].
  cbn [result fst] in Hres. subst res. cbn [bind].
  destruct (guarded && is_requests_HTTPError (ExcObj e)); reflexivity.
Qed.

(** Through a run of non-empty pages the loop only accumulates: it ends
    up where a loop started after them, with their records appended,
    would. *)
Lemma fetch_pages_through (cfg : config) (requests_get : request -> http_reply)
    (guarded : bool) (path key : string) (extra : list (string * json)) (N : Z)
    (pages : list (list json)) :
  forall (k : Z) (acc : list json) (fuel : nat),
    Forall (fun p => p <> []) pages ->
    (forall i p, pages !! i = Some p ->
       replies_with cfg requests_get path key extra N (k + Z.of_nat i * N) p) ->
    let rest := fetch_pages cfg requests_get fuel guarded true path key extra N
                  (acc ++ concat pages) (k + Z.of_nat (length pages) * N) in
    let run := fetch_pages cfg requests_get (length pages + fuel) guarded true path
                 key extra N acc k in
    result run = result rest
    /\ length (exchanges run) = (length pages + length (exchanges rest))%nat.
Proof.
  induction pages as [|p pages IH]; intros k acc fuel Hne Hreplies.
  - cbn [length concat Nat.add]. rewrite app_nil_r.
    replace (k + Z.of_nat 0 * N) with k by lia. split; reflexivity.
  - apply Forall_cons in Hne as [Hp Hne].
    destruct (Hreplies 0%nat p eq_refl) as (r & doc & Hres & Htext & Hget).
    replace (k + Z.of_nat 0 * N) with k in Hres by lia.
    destruct (connect_one_exchange cfg requests_get _ _ _ _ Hres)
      as (req & rep & Hex & _ & _).
    cbn [length Nat.add]. cbn zeta.
    rewrite (fetch_pages_nonempty cfg requests_get guarded path key extra
               (length pages + fuel) N k acc r doc p Hres Htext Hget Hp).
    cbn [result exchanges fst snd].
    destruct (IH (k + N) (acc ++ p) fuel Hne) as [Hresult Hlen].
    { intros i q Hq.
      replace (k + N + Z.of_nat i * N) with (k + Z.of_nat (S i) * N) by lia.
      apply Hreplies. exact Hq. }
    cbn zeta in Hresult, Hlen.
    replace (k + N + Z.of_nat (length pages) * N)
      with (k + Z.of_nat (S (length pages)) * N) in Hresult, Hlen by lia.
    cbn [concat]. rewrite app_assoc. split.
    + exact Hresult.
    + rewrite Hex. cbn [app length]. rewrite Hlen. reflexivity.
Qed.

(** The records a fetch returns are the pages the server sent, in the
    order of the requests, whatever their lengths: when the replies at
    offsets 0, N, 2N, ... are the non-empty pages [pages] and the next
    reply is an empty page, the loop returns their concatenation after
    one request per page and one more. *)
Theorem fetch_returns_pages_in_order (cfg : config)
    (requests_get : request -> http_reply) (guarded : bool) (path key : string)
    (extra : list (string * json)) (N : Z) (pages : list (list json)) (fuel : nat) :
  Forall (fun p => p <> []) pages ->
  (forall i p, pages !! i = Some p ->
     replies_with cfg requests_get path key extra N (Z.of_nat i * N) p) ->
  replies_with cfg requests_get path key extra N (Z.of_nat (length pages) * N) [] ->
  (length pages < fuel)%nat ->
  let run := fetch_pages cfg requests_get fuel guarded true path key extra N [] 0 in
  result run = Returned (concat pages)
  /\ length (exchanges run) = S (length pages).
Proof.
  intros Hne Hreplies (r & doc & Hres & Htext & Hget) Hfuel run. subst run.
  replace fuel with (length pages + S (fuel - length pages - 1))%nat by lia.
  destruct (fetch_pages_through cfg requests_get guarded path key extra N pages
              0 [] (S (fuel - length pages - 1)) Hne) as [Hresult Hlen].
  { intros i p Hp. rewrite Z.add_0_l. apply Hreplies. exact Hp. }
  cbn zeta in Hresult, Hlen. rewrite Z.add_0_l in Hresult, Hlen.
  rewrite Hresult, Hlen.
  rewrite (fetch_pages_empty cfg requests_get guarded path key extra _ N _ _ r doc
             Hres Htext Hget).
  destruct (connect_one_exchange cfg requests_get _ _ _ _ Hres)
    as (req & rep & Hex & _ & _).
  cbn [result exchanges fst snd]. rewrite Hex.
  cbn [length app]. split; [ reflexivity | lia ].
Qed.

(** An error value after some pages: a fetcher with the [HTTPError] test
    returns the pages fetched so far when the error value is a
    [requests.exceptions.HTTPError]; without the test, or for another
    error value, the fetcher raises [AttributeError] and the pages
    fetched so far are lost. *)
Theorem late_error_keeps_or_loses_pages (cfg : config)
    (requests_get : request -> http_reply) (guarded : bool) (path key : string)
    (extra : list (string * json)) (N : Z) (pages : list (list json)) (fuel : nat)
    (e : exn) :
  Forall (fun p => p <> []) pages ->
  (forall i p, pages !! i = Some p ->
     replies_with cfg requests_get path key extra N (Z.of_nat i * N) p) ->
  result (jira_auth_get_connect cfg requests_get path
            (Some (page_params extra N (Z.of_nat (length pages) * N))) None)
    = Returned (ExcObj e) ->
  (length pages < fuel)%nat ->
  result (fetch_pages cfg requests_get fuel guarded true path key extra N [] 0)
  = (if guarded && is_requests_HTTPError (ExcObj e)
     then Returned (concat pages)
     else Raised AttributeError).
Proof.
  intros Hne Hreplies Herr Hfuel.
  replace fuel with (length pages + S (fuel - length pages - 1))%nat by lia.
  destruct (fetch_pages_through cfg requests_get guarded path key extra N pages
              0 [] (S (fuel - length pages - 1)) Hne) as [Hresult _].
  { intros i p Hp. rewrite Z.add_0_l. apply Hreplies. exact Hp. }
  cbn zeta in Hresult. rewrite Z.add_0_l in Hresult. rewrite Hresult.
  exact (fetch_pages_error_step cfg requests_get _ guarded path key extra N _ _ e Herr).
Qed.

(** Against a server that never sends an empty page the loop does not
    end: whatever the fuel, it uses all of it, one request per unit, and
    has no answer. *)
Theorem fetch_never_ends_without_empty_page (cfg : config)
    (requests_get : request -> http_reply) (guarded : bool) (path key : string)
    (extra : list (string * json)) (N : Z) :
  (forall i : nat, exists p,
     p <> [] /\ replies_with cfg requests_get path key extra N (Z.of_nat i * N) p) ->
  forall fuel,
    let run := fetch_pages cfg requests_get fuel guarded true path key extra N [] 0 in
    result run = OutOfFuel /\ length (exchanges run) = fuel.
Proof.
  intros Hserver fuel.
  assert (Hgen : forall fuel (j : nat) acc,
             let run := fetch_pages cfg requests_get fuel guarded true path key extra N
                          acc (Z.of_nat j * N) in
             result run = OutOfFuel /\ length (exchanges run) = fuel).
  { clear fuel. induction fuel as [|fuel IH]; intros j acc; [ split; reflexivity | ].
    destruct (Hserver j) as (p & Hp & r & doc & Hres & Htext & Hget).
    destruct (connect_one_exchange cfg requests_get _ _ _ _ Hres)
      as (req & rep & Hex & _ & _).
    cbn zeta.
    rewrite (fetch_pages_nonempty cfg requests_get guarded path key extra fuel N _ acc
               r doc p Hres Htext Hget Hp).
    replace (Z.of_nat j * N + N) with (Z.of_nat (S j) * N) by lia.
    destruct (IH (S j) (acc ++ p)) as [Hresult Hlen]. cbn zeta in Hresult, Hlen.
    cbn [result exchanges fst snd]. rewrite Hex.
    cbn [app length]. rewrite Hlen. split; [ exact Hresult | reflexivity ]. }
  exact (Hgen fuel 0%nat []).
Qed.

Lemma fetch_returns_pages_in_order_witness :
  result (fetch_pages demo_config (paging_server "issues" three_issues) 5 false true
            "/rest/api/latest/search" "issues" [] 100 [] 0)
  = Returned three_issues.
Proof.
  destruct (fetch_returns_pages_in_order demo_config
              (paging_server "issues" three_issues) false
              "/rest/api/latest/search" "issues" [] 100 [three_issues] 5)
    as [Hresult _].
  - repeat constructor. discriminate.
  - intros [|i] p Hp; [ | discriminate Hp ].
    injection Hp as <-. eexists _, _. repeat split; reflexivity.
  - eexists _, _. repeat split; reflexivity.
  - cbn. lia.
  - exact Hresult.
Defined.

Lemma late_error_keeps_or_loses_pages_witness :
  result (fetch_pages demo_config flaky_server 5 true true
            "/rest/agile/1.0/board/7/sprint" "values" [] 100 [] 0)
  = Returned (replicate 100 (JObj [("id", JNum 1)]))
  /\ result (fetch_pages demo_config flaky_server 5 false true
               "/rest/api/latest/project/search" "values" [] 100 [] 0)
     = Raised AttributeError.
Proof.
  split.
  - apply (late_error_keeps_or_loses_pages demo_config flaky_server true
             "/rest/agile/1.0/board/7/sprint" "values" [] 100
             [replicate 100 (JObj [("id", JNum 1)])] 5 (RequestsHTTPError 503)).
    + repeat constructor. discriminate.
    + intros [|i] p Hp; [ | discriminate Hp ].
      injection Hp as <-. eexists _, _. repeat split; reflexivity.
    + reflexivity.
    + cbn. lia.
  - apply (late_error_keeps_or_loses_pages demo_config flaky_server false
             "/rest/api/latest/project/search" "values" [] 100
             [replicate 100 (JObj [("id", JNum 1)])] 5 (RequestsHTTPError 503)).
    + repeat constructor. discriminate.
    + intros [|i] p Hp; [ | discriminate Hp ].
      injection Hp as <-. eexists _, _. repeat split; reflexivity.
    + reflexivity.
    + cbn. lia.
Defined.

Lemma fetch_never_ends_without_empty_page_witness :
  let run := fetch_pages demo_config stubborn_server 7 false true
               "/rest/api/latest/search" "issues" [] 100 [] 0 in
  result run = OutOfFuel /\ length (exchanges run) = 7%nat.
Proof.
  apply (fetch_never_ends_without_empty_page demo_config stubborn_server false
           "/rest/api/latest/search" "issues" [] 100).
  intros i. exists [JObj [("id", JStr "10001")]]. split; [ discriminate | ].
  eexists _, _. repeat split; reflexivity.
Defined.

(** [jira_get_backlog_issues] cannot parse a reply: when its first
    request comes back with a response, of whatever content, it raises
    [NameError] for [json]; the only table it ever returns is the empty
    one. *)
Theorem backlog_fetch_needs_json (cfg : config) (requests_get : request -> http_reply)
    (fuel : nat) (board_id : cell) :
  let run := jira_get_backlog_issues cfg requests_get (S fuel) board_id in
  let first :=
    result (jira_auth_get_connect cfg requests_get
              ("/rest/agile/1.0/board/" +:+ py_format board_id +:+ "/backlog")
              (Some (page_params [] 100 0)) None) in
  (forall r, first = Returned (RespObj r) -> result run = Raised (NameError "json"))
  /\ (forall df, result run = Returned df -> df = empty_frame).
Proof.
  cbn zeta. unfold jira_get_backlog_issues, fetch_frame. cbn [fetch_pages].
  fold (page_params [] 100 0).
  destruct (jira_auth_get_connect cfg requests_get
              ("/rest/agile/1.0/board/" +:+ py_format board_id +:+ "/backlog")
              (Some (page_params [] 100 0)) None) as [[[r|e]|e|] log];
    cbn [result fst bind andb is_requests_HTTPError lift ret].
  - split; [ reflexivity | discriminate ].
  - split; [ discriminate | ].
    destruct e; cbn [bind lift ret result fst json_normalize];
      intros df; try discriminate.
    intros [= <-]. reflexivity.
  - split; discriminate.
  - split; discriminate.
Qed.

Lemma backlog_fetch_needs_json_witness :
  result (jira_get_backlog_issues demo_config (paging_server "issues" three_issues)
            5 (Val (JNum 7)))
  = Raised (NameError "json").
Proof.
  destruct (backlog_fetch_needs_json demo_config (paging_server "issues" three_issues)
              4 (Val (JNum 7))) as [Hparse _].
  eapply Hparse. reflexivity.
Defined.

Lemma traverse_length {A B} (f : A -> outcome B) (l : list A) (l' : list B) :
  traverse f l = Returned l' -> length l' = length l.
Proof.
  revert l'. induction l as [|x l IH]; intros l'.
  - intros [= <-]. reflexivity.
  - cbn [traverse]. destruct (f x) as [y|e|]; try discriminate. cbn [obind].
    destruct (traverse f l) as [ys|e|]; try discriminate. cbn [obind].
    intros [= <-]. cbn [length]. f_equal. apply IH. reflexivity.
Qed.

Lemma json_normalize_nrows (data : list json) (df : DataFrame) :
  json_normalize data = Returned df -> nrows df = length data.
Proof.
  unfold json_normalize. destruct data as [|j data].
  - intros [= <-]. reflexivity.
  - destruct (traverse as_record (j :: data)) as [records| |] eqn:Hrec;
      try discriminate.
    cbn [obind]. intros [= <-]. cbn [frame_of_records nrows].
    exact (traverse_length _ _ _ Hrec).
Qed.

(** Every table a fetcher returns has one row per accumulated record,
    distinct column labels, and columns of full length. *)
Theorem fetched_table_shape (cfg : config) (requests_get : request -> http_reply)
    (fuel : nat) (guarded json_bound : bool) (path key : string)
    (extra : list (string * json)) (N : Z) (df : DataFrame) :
  result (fetch_frame cfg requests_get fuel guarded json_bound path key extra N)
    = Returned df ->
  exists items,
    result (fetch_pages cfg requests_get fuel guarded json_bound path key extra N [] 0)
      = Returned items
    /\ nrows df = length items
    /\ NoDup (columns df)
    /\ well_formed df.
Proof.
  rewrite fetch_frame_result.
  destruct (result (fetch_pages cfg requests_get fuel guarded json_bound path key
                      extra N [] 0)) as [items|e|]; try discriminate.
  cbn [obind]. intros Hdf. exists items. split; [ reflexivity | ].
  split; [ exact (json_normalize_nrows items df Hdf) | ].
  exact (json_normalize_labels items df Hdf).
Qed.

Lemma fetched_table_shape_witness :
  exists df,
    result (jira_get_issues demo_config (paging_server "issues" three_issues) 5 "")
      = Returned df
    /\ nrows df = 3%nat /\ NoDup (columns df).
Proof.
  exists (mkDF 3 [("id", [str_cell "10001"; str_cell "10002"; str_cell "10003"])]).
  destruct (fetched_table_shape demo_config (paging_server "issues" three_issues) 5
              false true "/rest/api/latest/search" "issues" [] 100
              (mkDF 3 [("id", [str_cell "10001"; str_cell "10002"; str_cell "10003"])])
              ltac:(vm_compute; reflexivity))
    as (items & Hitems & Hrows & Hnd & _).
  split; [ vm_compute; reflexivity | ]. split; [ reflexivity | exact Hnd ].
Defined.

(** * Further properties of the projector *)

(** The projector never fails and never touches a cell: on every table it
    returns a table with the same number of rows; every column whose
    label is in the whitelist is kept, cells unchanged, under its new
    name; every column of the result is such a column; and every label
    of the result is one of the renamer's output names.  A field that
    the table lacks is simply absent from the result. *)
Theorem projector_keeps_whitelisted_columns (df : DataFrame) :
  exists out,
    project_rename df = Returned out
    /\ nrows out = nrows df
    /\ (forall c, c ∈ cols df -> fst c ∈ RELEVANT_FIELDS ->
          (default (fst c) (COLUMN_NAME_DICT !! fst c), snd c) ∈ cols out)
    /\ (forall c', c' ∈ cols out ->
          exists c, c ∈ cols df /\ fst c ∈ RELEVANT_FIELDS
                    /\ c' = (default (fst c) (COLUMN_NAME_DICT !! fst c), snd c))
    /\ (forall n, n ∈ columns out -> n ∈ OUTPUT_NAMES).
Proof.
  destruct (project_rename_labels df) as (out & Hout & Hlabels).
  exists out. split; [ exact Hout | ].
  revert Hout. unfold project_rename, project_fields, getitem_list.
  rewrite own_labels_present. cbn [obind]. intros Hout.
  assert (Hcols : cols out
            = map (fun c => (default (fst c) (COLUMN_NAME_DICT !! fst c), snd c))
                (flat_map (fun n => filter (fun c => fst c = n) (cols df))
                   (filter (fun n => n ∈ RELEVANT_FIELDS) (columns df)))).
  { apply (f_equal (fun o => match o with Returned d => cols d | _ => [] end)) in Hout.
    symmetry. exact Hout. }
  assert (Hrows : nrows out = nrows df).
  { apply (f_equal (fun o => match o with Returned d => nrows d | _ => 0%nat end)) in Hout.
    symmetry. exact Hout. }
  split; [ exact Hrows | ]. split; [ | split; [ | exact Hlabels ] ].
  - intros c Hc Hwhite. rewrite Hcols.
    apply list_elem_of_In.
    apply (in_map (fun c => (default (fst c) (COLUMN_NAME_DICT !! fst c), snd c))).
    apply in_flat_map. exists (fst c). split.
    + apply list_elem_of_In. apply list_elem_of_filter. split; [ exact Hwhite | ].
      apply label_of_member. exact Hc.
    + apply list_elem_of_In. apply list_elem_of_filter. split; [ reflexivity | exact Hc ].
  - intros c' Hc'. rewrite Hcols in Hc'.
    apply list_elem_of_In in Hc'. apply in_map_iff in Hc' as (c & Heq & Hc).
    apply in_flat_map in Hc as (n & Hn & Hc).
    apply list_elem_of_In in Hc. apply list_elem_of_filter in Hc as [Hlabel Hc].
    apply list_elem_of_In in Hn. apply list_elem_of_filter in Hn as [Hwhite _].
    exists c. split; [ exact Hc | ]. split; [ rewrite Hlabel; exact Hwhite | ].
    symmetry. exact Heq.
Qed.

Lemma projector_keeps_whitelisted_columns_witness :
  exists out,
    project_rename mixed_resolution_table = Returned out
    /\ nrows out = 2%nat
    /\ ("issue_id", [str_cell "10001"; str_cell "10002"]) ∈ cols out.
Proof.
  destruct (projector_keeps_whitelisted_columns mixed_resolution_table)
    as (out & Hout & Hrows & Hkept & _).
  exists out. split; [ exact Hout | ]. split; [ exact Hrows | ].
  apply (Hkept ("id", [str_cell "10001"; str_cell "10002"])).
  - apply list_elem_of_here.
  - apply (bool_decide_unpack _). vm_compute. exact I.
Defined.

(** * Further properties of the join and of the epic lines *)

Lemma filter_imap_at_most_one {A} (P : A -> Prop) `{forall x, Decision (P x)}
    (l : list A) :
  forall g : nat -> nat,
    (forall j j' b b',
       l !! j = Some b -> l !! j' = Some b' -> P b -> P b' -> j = j') ->
    (length (filter (fun jb : nat * A => P (snd jb))
               (imap (fun j b => (g j, b)) l)) <= 1)%nat.
Proof.
  induction l as [|x l IH]; intros g Hone; [ cbn; lia | ].
  cbn [imap]. rewrite filter_cons. cbn [snd].
  destruct (decide (P x)) as [Hx | Hx].
  - assert (Hnil : filter (fun jb : nat * A => P (snd jb))
                     (imap (fun j b => (g (S j), b)) l) = []).
    { apply elem_of_nil_inv. intros [j b] Hin.
      apply list_elem_of_filter in Hin as [Hb Hin]. cbn [snd] in Hb.
      apply elem_of_lookup_imap in Hin as (i & b' & Heq & Hlook).
      injection Heq as _ ->.
      discriminate (Hone 0%nat (S i) x b' eq_refl Hlook Hx Hb). }
    change (imap ((fun (j : nat) (b : A) => (g j, b)) ∘ S) l)
      with (imap (fun j b => (g (S j), b)) l).
    rewrite Hnil. cbn. lia.
  - apply (IH (fun j => g (S j))).
    intros j j' b b' Hj Hj' Hb Hb'.
    assert (S j = S j') by (apply (Hone (S j) (S j') b b'); assumption).
    lia.
Qed.

Lemma matches_at_most_one (a : cell) (right_keys : list cell) :
  (forall j j' b b',
     right_keys !! j = Some b -> right_keys !! j' = Some b' ->
     key_match a b = true -> key_match a b' = true -> j = j') ->
  (length (matches a right_keys) <= 1)%nat.
Proof.
  intros Hone. unfold matches. rewrite length_map.
  exact (filter_imap_at_most_one (fun b => key_match a b = true) right_keys
           (fun j => j) Hone).
Qed.

Lemma left_join_rows (right_keys : list cell) (left_keys : list cell) :
  (forall i a, left_keys !! i = Some a ->
     (length (matches a right_keys) <= 1)%nat) ->
  map fst (left_join_pairs left_keys right_keys) = seq 0 (length left_keys).
Proof.
  unfold left_join_pairs.
  assert (Hgen : forall (g : nat -> nat) lk,
             (forall i a, lk !! i = Some a ->
                (length (matches a right_keys) <= 1)%nat) ->
             map fst (flat_map
                        (fun ia : nat * cell =>
                           match matches (snd ia) right_keys with
                           | [] => [(fst ia, None)]
                           | js => map (fun j => (fst ia, Some j)) js
                           end)
                        (imap (fun i a => (g i, a)) lk))
             = map g (seq 0 (length lk))).
  { intros g lk. revert g. induction lk as [|x lk IH]; intros g Hone; [ reflexivity | ].
    cbn [imap flat_map length seq map]. rewrite map_app.
    rewrite <- seq_shift, map_map.
    rewrite <- (IH (fun i => g (S i)))
      by (intros i a Hi; apply (Hone (S i) a Hi)).
    f_equal. cbn [fst snd].
    pose proof (Hone 0%nat x eq_refl) as Hx.
    destruct (matches x right_keys) as [|j [|j' js]]; cbn in Hx |- *;
      [ reflexivity | reflexivity | lia ]. }
  intros Hone. rewrite (Hgen (fun i => i) left_keys Hone). apply map_id.
Qed.

Lemma map_nth_seq_id (c : list cell) :
  map (fun i => nth i c NaN) (seq 0 (length c)) = c.
Proof.
  induction c as [|x c IH]; [ reflexivity | ].
  cbn [length seq map nth]. f_equal.
  rewrite <- seq_shift, map_map. exact IH.
Qed.

Lemma take_left_all_rows (pairs : list (nat * option nat)) (c : list cell) :
  map fst pairs = seq 0 (length c) -> take_left pairs c = c.
Proof.
  intros Hrows. unfold take_left.
  rewrite <- (map_map fst (fun i => nth i c NaN)), Hrows.
  apply map_nth_seq_id.
Qed.

(** A left join keeps every left row, in order: the left rows of the
    joined pairs are the row numbers [0, 1, ...] of the left table, each
    at least once, and exactly once each when no left key joins more than
    one right key.  A left row that joins nothing appears exactly once,
    without a partner. *)
Theorem left_join_keeps_left_rows (left_keys right_keys : list cell) :
  (forall i a, left_keys !! i = Some a ->
     exists m, (i, m) ∈ left_join_pairs left_keys right_keys)
  /\ (forall i a, left_keys !! i = Some a ->
        matches a right_keys = [] ->
        filter (fun p => fst p = i) (left_join_pairs left_keys right_keys)
        = [(i, None)])
  /\ ((forall i a, left_keys !! i = Some a ->
         (length (matches a right_keys) <= 1)%nat) ->
      map fst (left_join_pairs left_keys right_keys) = seq 0 (length left_keys)).
Proof.
  split; [ | split ].
  - intros i a Hi. destruct (matches a right_keys) as [|j js] eqn:Hm.
    + exists None. apply left_join_pairs_spec. exists a. split; assumption.
    + exists (Some j). apply left_join_pairs_spec. exists a. split; [ exact Hi | ].
      rewrite Hm. apply list_elem_of_here.
  - intros i a Hi Hnone. unfold left_join_pairs.
    assert (Hgen : forall (g : nat -> nat) lk,
               (forall x y, g x = g y -> x = y) ->
               forall i a, lk !! i = Some a -> matches a right_keys = [] ->
               filter (fun p : nat * option nat => fst p = g i)
                 (flat_map
                    (fun ia : nat * cell =>
                       match matches (snd ia) right_keys with
                       | [] => [(fst ia, None)]
                       | js => map (fun j => (fst ia, Some j)) js
                       end)
                    (imap (fun i a => (g i, a)) lk))
               = [(g i, None)]).
    { clear i a Hi Hnone. intros g lk. revert g.
      induction lk as [|x lk IH]; intros g Hinj i a Hi Hnone; [ discriminate Hi | ].
      cbn [imap flat_map]. rewrite filter_app. cbn [fst snd].
      destruct i as [|i].
      - injection Hi as ->. rewrite Hnone.
        rewrite filter_cons_True by reflexivity. rewrite filter_nil. cbn [app].
        f_equal. apply elem_of_nil_inv. intros [i' m'] Hin.
        apply list_elem_of_filter in Hin as [Heq Hin]. cbn [fst] in Heq.
        apply list_elem_of_In in Hin. apply in_flat_map in Hin as ([i0 a0] & Hia & Hin).
        apply list_elem_of_In in Hia.
        apply elem_of_lookup_imap in Hia as (i1 & a1 & Hpair & _).
        injection Hpair as -> ->. cbn [fst snd] in Hin.
        assert (Hfst : i' = g (S i1)).
        { destruct (matches a1 right_keys) as [|j js].
          - destruct Hin as [Hin | []]. injection Hin as <- _. reflexivity.
          - apply in_map_iff in Hin as (j0 & Hj0 & _). injection Hj0 as <- _.
            reflexivity. }
        rewrite Hfst in Heq. apply Hinj in Heq. discriminate Heq.
      - replace (filter (fun p : nat * option nat => fst p = g (S i))
                   match matches x right_keys with
                   | [] => [(g 0%nat, None)]
                   | j :: js => map (fun j0 => (g 0%nat, Some j0)) (j :: js)
                   end) with (@nil (nat * option nat)).
        + cbn [app].
          refine (IH (fun i => g (S i)) _ i a Hi Hnone).
          intros x0 y0 Hxy. apply Hinj in Hxy. lia.
        + symmetry. apply elem_of_nil_inv. intros [i' m'] Hin.
          apply list_elem_of_filter in Hin as [Heq Hin]. cbn [fst] in Heq.
          assert (Hfst : i' = g 0%nat).
          { destruct (matches x right_keys) as [|j js].
            - apply list_elem_of_singleton in Hin. injection Hin as -> _. reflexivity.
            - apply list_elem_of_In in Hin.
              apply in_map_iff in Hin as (j0 & Hj0 & _). injection Hj0 as <- _.
              reflexivity. }
          rewrite Hfst in Heq. apply Hinj in Heq. discriminate Heq. }
    exact (Hgen (fun i => i) left_keys (fun x y H => H) i a Hi Hnone).
  - apply left_join_rows.
Qed.

Lemma left_join_keeps_left_rows_witness :
  map fst (left_join_pairs [NaN; str_cell "10000"]
                           [str_cell "10000"; str_cell "10001"])
  = [0; 1]%nat.
Proof.
  destruct (left_join_keeps_left_rows [NaN; str_cell "10000"]
              [str_cell "10000"; str_cell "10001"]) as (_ & _ & Hrows).
  apply Hrows. intros [|[|i]] a Ha; try discriminate Ha;
    injection Ha as <-; vm_compute; lia.
Defined.

(** What the join and the renaming that follows make of two of the
    renamer's labels. *)
Lemma label_pair_facts (k c : string) :
  k ∈ OUTPUT_NAMES -> c ∈ OUTPUT_NAMES ->
  (left_label c = left_label k <-> c = k)
  /\ (k ∉ EPIC_FIELDS ->
      (default (left_label c) (EPIC_RENAMES !! left_label c) = k
       <-> left_label c = k)).
Proof.
  assert (H : Forall (fun k => Forall (fun c =>
              (left_label c = left_label k <-> c = k)
              /\ (k ∉ EPIC_FIELDS ->
                  (default (left_label c) (EPIC_RENAMES !! left_label c) = k
                   <-> left_label c = k))) OUTPUT_NAMES) OUTPUT_NAMES).
  { apply (bool_decide_unpack _). vm_compute. exact I. }
  intros Hk Hc.
  rewrite Forall_forall in H. specialize (H k Hk).
  rewrite Forall_forall in H. exact (H c Hc).
Qed.

Lemma label_facts (k : string) :
  k ∈ OUTPUT_NAMES ->
  (forall n, n ∈ EPIC_FIELDS -> right_label n <> left_label k)
  /\ (default (left_label k) (EPIC_RENAMES !! left_label k) = "issue_id"
      <-> left_label k = "issue_id_x")
  /\ (default (left_label k) (EPIC_RENAMES !! left_label k) = "epic_color"
      <-> left_label k = "epic_color_x")
  /\ (k ∉ EPIC_FIELDS ->
      left_label k = k /\ k <> "epic_name_x" /\ k <> "epic_color_x"
      /\ k <> "epic_name" /\ (k ∉ EPIC_DROPPED)).
Proof.
  revert k. apply Forall_forall.
  assert (H : Forall (fun k =>
              Forall (fun n => right_label n <> left_label k) EPIC_FIELDS
              /\ (default (left_label k) (EPIC_RENAMES !! left_label k) = "issue_id"
                  <-> left_label k = "issue_id_x")
              /\ (default (left_label k) (EPIC_RENAMES !! left_label k) = "epic_color"
                  <-> left_label k = "epic_color_x")
              /\ (k ∉ EPIC_FIELDS ->
                  left_label k = k /\ k <> "epic_name_x" /\ k <> "epic_color_x"
                  /\ k <> "epic_name" /\ (k ∉ EPIC_DROPPED))) OUTPUT_NAMES).
  { apply (bool_decide_unpack _). vm_compute. exact I. }
  eapply Forall_impl; [ exact H | ].
  intros k (Hright & Hrest). split; [ | exact Hrest ].
  intros n Hn. rewrite Forall_forall in Hright. exact (Hright n Hn).
Qed.

Section EpicColumns.

Variable df : DataFrame.
Variables ids parents names colors : list cell.

Hypothesis Hlabels : forall n, n ∈ columns df -> n ∈ OUTPUT_NAMES.
Hypothesis Hids : assoc "issue_id" (cols df) = Some ids.
Hypothesis Hparents : assoc "parent_id" (cols df) = Some parents.
Hypothesis Hnames : assoc "epic_name" (cols df) = Some names.
Hypothesis Hcolors : assoc "epic_color" (cols df) = Some colors.
Hypothesis Hcompatible : merge_keys_compatible parents ids = true.

Local Abbreviation pairs := (left_join_pairs parents ids).

Local Abbreviation epic_cols :=
  (flat_map (fun n => filter (fun c => fst c = n) (cols df)) EPIC_FIELDS).

Local Abbreviation merged_cols :=
  (map (fun c => (left_label (fst c), take_left pairs (snd c))) (cols df)
   ++ map (fun c => (right_label (fst c), take_right pairs (snd c))) epic_cols).

(** A left column is found after the join under its left label. *)
Lemma merged_left_column (k : string) :
  k ∈ OUTPUT_NAMES ->
  assoc (left_label k) merged_cols = take_left pairs <$> assoc k (cols df).
Proof.
  intros Hk. rewrite assoc_app.
  rewrite (assoc_relabel left_label (take_left pairs) (left_label k) k (cols df)).
  - destruct (assoc k (cols df)) as [v|]; [ reflexivity | ].
    cbn [fmap option_fmap option_map]. apply assoc_None.
    intros c Hc. apply list_elem_of_In in Hc.
    apply in_map_iff in Hc as (c0 & <- & Hc0). apply list_elem_of_In in Hc0.
    cbn [fst]. apply epic_cols_member in Hc0 as [_ Hc0].
    destruct (label_facts k Hk) as (Hright & _). exact (Hright (fst c0) Hc0).
  - intros c Hc.
    apply (label_pair_facts k (fst c) Hk). exact (left_label_of df Hlabels c Hc).
Qed.

(** The result of the epic lines, column by column: the epic name and
    the epic colour are backfilled, and every other column is the left
    column, row for row of the join. *)
Lemma epic_backfill_columns :
  exists out,
    epic_backfill df = Returned out
    /\ nrows out = length pairs
    /\ assoc "epic_name" (cols out) = Some (map (backfilled names) pairs)
    /\ assoc "epic_color" (cols out)
       = Some (zip_with (fun t s => if isnull t then s else t)
                 (take_left pairs colors) (take_right pairs colors))
    /\ assoc "issue_id" (cols out) = Some (take_left pairs ids)
    /\ forall n, n ∈ OUTPUT_NAMES -> n ∉ EPIC_FIELDS ->
         assoc n (cols out) = take_left pairs <$> assoc n (cols df).
Proof.
  unfold epic_backfill.
  rewrite (df_epics_selected df ids names colors Hids Hnames Hcolors). cbn [obind].
  rewrite (df_merged df ids parents names colors Hids Hparents Hnames Hcolors
             Hcompatible).
  cbn [obind].
  set (df1 := mkDF (length pairs) merged_cols).
  assert (Hname_x : assoc "epic_name_x" (cols df1) = Some (take_left pairs names)).
  { apply (merged_left_lookup df ids parents Hlabels "epic_name" names);
      [ | exact Hnames ].
    apply (bool_decide_unpack _). reflexivity. }
  assert (Hname_y : assoc "epic_name_y" (cols df1) = Some (take_right pairs names)).
  { apply (merged_right_lookup df ids parents names colors Hlabels Hids Hnames Hcolors
             "epic_name" names); [ | exact Hnames ].
    apply (bool_decide_unpack _). reflexivity. }
  assert (Hcolor_x : assoc "epic_color_x" (cols df1) = Some (take_left pairs colors)).
  { apply (merged_left_lookup df ids parents Hlabels "epic_color" colors);
      [ | exact Hcolors ].
    apply (bool_decide_unpack _). reflexivity. }
  assert (Hcolor_y : assoc "epic_color_y" (cols df1) = Some (take_right pairs colors)).
  { apply (merged_right_lookup df ids parents names colors Hlabels Hids Hnames Hcolors
             "epic_color" colors); [ | exact Hcolors ].
    apply (bool_decide_unpack _). reflexivity. }
  assert (Hid_y : assoc "issue_id_y" (cols df1) = Some (take_right pairs ids)).
  { apply (merged_right_lookup df ids parents names colors Hlabels Hids Hnames Hcolors
             "issue_id" ids); [ | exact Hids ].
    apply (bool_decide_unpack _). reflexivity. }
  unfold loc_fill_from at 1. unfold getitem_col.
  rewrite Hname_x, Hname_y. cbn [obind].
  set (new_names := zip_with (fun t s => if isnull t then s else t)
                      (take_left pairs names) (take_right pairs names)).
  destruct (setitem_present "epic_name_x" new_names df1
              (assoc_label _ _ _ Hname_x)) as (Hrows2 & Hcols2 & Hset2 & Hkeep2).
  set (df2 := setitem "epic_name_x" new_names df1) in *.
  unfold loc_fill_from. unfold getitem_col.
  rewrite (Hkeep2 "epic_color_x"), (Hkeep2 "epic_color_y") by discriminate.
  rewrite Hcolor_x, Hcolor_y. cbn [obind].
  set (new_colors := zip_with (fun t s => if isnull t then s else t)
                       (take_left pairs colors) (take_right pairs colors)).
  destruct (setitem_present "epic_color_x" new_colors df2) as
    (Hrows3 & Hcols3 & Hset3 & Hkeep3).
  { rewrite Hcols2. exact (assoc_label _ _ _ Hcolor_x). }
  set (df3 := setitem "epic_color_x" new_colors df2) in *.
  unfold drop.
  replace (filter (fun n => n ∉ columns df3) EPIC_DROPPED) with (@nil string).
  2:{ symmetry. apply elem_of_nil_inv. intros n Hn.
      apply list_elem_of_filter in Hn as [Hout Hn]. apply Hout.
      rewrite Hcols3, Hcols2. unfold EPIC_DROPPED in Hn.
      repeat (apply elem_of_cons in Hn as [-> | Hn];
              [ eapply assoc_label; eassumption | ]).
      inversion Hn. }
  cbn [obind].
  set (df4 := mkDF (nrows df3) (filter (fun c => fst c ∉ EPIC_DROPPED) (cols df3))).
  (* a label of the result comes from one label kept after the join *)
  assert (Htrack : forall t x,
             x ∉ EPIC_DROPPED ->
             (forall k, k ∈ OUTPUT_NAMES ->
                default (left_label k) (EPIC_RENAMES !! left_label k) = t
                <-> left_label k = x) ->
             assoc t (cols (rename EPIC_RENAMES df4)) = assoc x (cols df3)).
  { intros t x Hx Hren.
    rewrite (assoc_renamed EPIC_RENAMES t x df4).
    - subst df4. cbn [cols].
      exact (assoc_filter_kept (fun n => n ∉ EPIC_DROPPED) x (cols df3) Hx).
    - intros c Hc. subst df4. cbn [cols] in Hc.
      apply list_elem_of_filter in Hc as [Hkept Hc].
      apply label_of_member in Hc. fold (columns df3) in Hc.
      rewrite Hcols3, Hcols2 in Hc.
      apply member_of_label in Hc as (c1 & Hc1 & Hlabel).
      apply (merged_member df ids parents Hlabels) in Hc1
        as [(n & Hn & Hc1) | (n & Hn & Hc1)].
      + rewrite <- Hlabel, Hc1. apply Hren. exact Hn.
      + exfalso. apply Hkept. rewrite <- Hlabel, Hc1.
        destruct (right_label_facts n Hn) as (_ & _ & _ & Hdropped & _).
        exact Hdropped. }
  assert (Hepic : assoc "epic_name" (cols (rename EPIC_RENAMES df4)) = Some new_names).
  { rewrite (Htrack "epic_name" "epic_name_x").
    - rewrite (Hkeep3 "epic_name_x") by discriminate. exact Hset2.
    - apply (bool_decide_unpack _). reflexivity.
    - intros k Hk. destruct (left_label_facts k Hk) as (_ & _ & _ & Hren). exact Hren. }
  unfold fillna_attr, getattr_col. rewrite Hepic. cbn [obind].
  eexists. split; [ reflexivity | ].
  destruct (setitem_present "epic_name"
              (map (fun x => if isnull x then str_cell "No Epic" else x) new_names)
              (rename EPIC_RENAMES df4) (assoc_label _ _ _ Hepic))
    as (Hrows5 & _ & Hset5 & Hkeep5).
  split; [ | split; [ | split; [ | split ] ] ].
  - rewrite Hrows5. cbn [rename nrows df4]. rewrite Hrows3, Hrows2. reflexivity.
  - rewrite Hset5. f_equal.
    subst new_names. unfold take_left, take_right.
    rewrite zip_with_maps, map_map. apply map_ext. intros [i m].
    unfold backfilled. cbn [fst snd].
    destruct (isnull (nth i names NaN)) eqn:Hown; [ reflexivity | ].
    rewrite Hown. reflexivity.
  - rewrite (Hkeep5 "epic_color") by discriminate.
    rewrite (Htrack "epic_color" "epic_color_x").
    + exact Hset3.
    + apply (bool_decide_unpack _). reflexivity.
    + intros k Hk. destruct (label_facts k Hk) as (_ & _ & Hren & _). exact Hren.
  - rewrite (Hkeep5 "issue_id") by discriminate.
    rewrite (Htrack "issue_id" "issue_id_x").
    + rewrite (Hkeep3 "issue_id_x"), (Hkeep2 "issue_id_x") by discriminate.
      assert (Hid : "issue_id" ∈ OUTPUT_NAMES)
        by (apply (bool_decide_unpack _); reflexivity).
      pose proof (merged_left_column "issue_id" Hid) as Hcol.
      rewrite Hids in Hcol. exact Hcol.
    + apply (bool_decide_unpack _). reflexivity.
    + intros k Hk. destruct (label_facts k Hk) as (_ & Hren & _). exact Hren.
  - intros n Hn Hother.
    destruct (label_facts n Hn) as (_ & _ & _ & Hfacts).
    destruct (Hfacts Hother) as (Hsame & Hnx & Hcx & Hne & Hkept).
    rewrite (Hkeep5 n) by exact Hne.
    rewrite (Htrack n n).
    + rewrite (Hkeep3 n), (Hkeep2 n) by assumption.
      pose proof (merged_left_column n Hn) as Hcol. rewrite Hsame in Hcol. exact Hcol.
    + exact Hkept.
    + intros k Hk. destruct (label_pair_facts n k Hn Hk) as (_ & Hren).
      exact (Hren Hother).
Qed.

End EpicColumns.

Lemma assoc_member {V} (k : string) (l : list (string * V)) (v : V) :
  assoc k l = Some v -> (k, v) ∈ l.
Proof.
  induction l as [|[n w] l IH]; [ discriminate | ].
  cbn [assoc]. destruct (String.eqb_spec k n) as [-> | Hne].
  - intros [= ->]. apply list_elem_of_here.
  - intros Hk. apply list_elem_of_further. exact (IH Hk).
Qed.

Lemma getitem_col_Returned (k : string) (df : DataFrame) (c : list cell) :
  getitem_col k df = Returned c -> assoc k (cols df) = Some c.
Proof.
  unfold getitem_col. destruct (assoc k (cols df)) as [c'|]; [ | discriminate ].
  intros [= ->]. reflexivity.
Qed.

(** On a table that carries the renamer's labels, has the four columns
    of the epic lines and holds Jira's ids, the epic colour is backfilled
    like the epic name, but has no default: an issue with a colour of its
    own keeps it; an issue without takes the epic colour cell of the
    issue its parent id joins, null or not; and with no joining issue its
    colour stays null. *)
Theorem epic_color_backfill (df : DataFrame) (ids parents names colors : list cell) :
  (forall n, n ∈ columns df -> n ∈ OUTPUT_NAMES) ->
  getitem_col "issue_id" df = Returned ids ->
  getitem_col "parent_id" df = Returned parents ->
  getitem_col "epic_name" df = Returned names ->
  getitem_col "epic_color" df = Returned colors ->
  jira_ids ids parents ->
  exists out out_colors,
    epic_backfill df = Returned out
    /\ getitem_col "epic_color" out = Returned out_colors
    /\ let pairs := left_join_pairs parents ids in
       length out_colors = length pairs
       /\ forall p i m own,
            pairs !! p = Some (i, m) ->
            colors !! i = Some own ->
            (isnull own = false -> out_colors !! p = Some own)
            /\ (isnull own = true -> m = None -> out_colors !! p = Some NaN)
            /\ (isnull own = true ->
                forall j inherited,
                  m = Some j -> colors !! j = Some inherited ->
                  out_colors !! p = Some inherited).
Proof.
  intros Hlabels Hids Hparents Hnames Hcolors Hjira.
  apply getitem_col_Returned in Hids, Hparents, Hnames, Hcolors.
  destruct (epic_backfill_columns df ids parents names colors Hlabels
              Hids Hparents Hnames Hcolors (jira_ids_compatible ids parents Hjira))
    as (out & Hout & _ & _ & Hcol & _).
  eexists out, _. split; [ exact Hout | ].
  split; [ unfold getitem_col; rewrite Hcol; reflexivity | ].
  cbn zeta. unfold take_left, take_right. rewrite zip_with_maps.
  split; [ apply length_map | ].
  intros p i m own Hp Hown.
  assert (Hnth : nth i colors NaN = own) by (apply nth_lookup_Some; exact Hown).
  match goal with
  | |- context [map ?f ?l] => change (map f l) with (f <$> l)
  end.
  rewrite list_lookup_fmap, Hp. cbn [fmap option_fmap option_map fst snd].
  rewrite Hnth.
  split; [ | split ].
  - intros Hnull. rewrite Hnull. reflexivity.
  - intros Hnull ->. rewrite Hnull. reflexivity.
  - intros Hnull j inherited -> Hj. rewrite Hnull.
    f_equal. apply nth_lookup_Some. exact Hj.
Qed.

Lemma epic_color_backfill_witness :
  exists out,
    epic_backfill epic_table = Returned out
    /\ getitem_col "epic_color" out
       = Returned [str_cell "purple"; str_cell "purple"; NaN; str_cell "green"].
Proof.
  destruct (epic_color_backfill epic_table
              [str_cell "10000"; str_cell "10001"; str_cell "10002"; str_cell "10003"]
              [NaN; str_cell "10000"; NaN; str_cell "10000"]
              [str_cell "Feature X"; NaN; NaN; str_cell "Own Epic"]
              [str_cell "purple"; NaN; NaN; str_cell "green"])
    as (out & out_colors & Hout & _).
  - apply Forall_forall. apply (bool_decide_unpack _). vm_compute. exact I.
  - reflexivity.
  - reflexivity.
  - reflexivity.
  - reflexivity.
  - split; [ | split ].
    + repeat constructor.
    + repeat constructor.
    + apply Exists_cons_tl. apply Exists_cons_hd. reflexivity.
  - exists out. split; [ exact Hout | ].
    vm_compute in Hout. injection Hout as <-. vm_compute. reflexivity.
Defined.

(** On a well-formed table that carries the renamer's labels, has the
    four columns of the epic lines and holds Jira's ids, with no issue id
    occurring twice, the epic lines keep the table's rows: the result has
    as many rows as the table, the issue ids in their order, and every
    column other than the epic name and the epic colour with its cells
    unchanged. *)
Theorem epic_lines_keep_issue_rows (df : DataFrame)
    (ids parents names colors : list cell) :
  well_formed df ->
  (forall n, n ∈ columns df -> n ∈ OUTPUT_NAMES) ->
  getitem_col "issue_id" df = Returned ids ->
  getitem_col "parent_id" df = Returned parents ->
  getitem_col "epic_name" df = Returned names ->
  getitem_col "epic_color" df = Returned colors ->
  jira_ids ids parents ->
  NoDup ids ->
  exists out,
    epic_backfill df = Returned out
    /\ nrows out = nrows df
    /\ getitem_col "issue_id" out = Returned ids
    /\ forall n, n ∈ OUTPUT_NAMES -> n <> "epic_name" -> n <> "epic_color" ->
         getitem_col n out = getitem_col n df.
Proof.
  intros Hwf Hlabels Hids Hparents Hnames Hcolors Hjira Hdistinct.
  apply getitem_col_Returned in Hids, Hparents, Hnames, Hcolors.
  destruct (epic_backfill_columns df ids parents names colors Hlabels
              Hids Hparents Hnames Hcolors (jira_ids_compatible ids parents Hjira))
    as (out & Hout & Hrows & _ & _ & Hid & Hother).
  assert (Hunique : forall (a : cell) j j' b b',
             ids !! j = Some b -> ids !! j' = Some b' ->
             key_match a b = true -> key_match a b' = true -> j = j').
  { intros a j j' b b' Hb Hb' Hmatch Hmatch'.
    destruct Hjira as (Hstr & _ & _). rewrite Forall_forall in Hstr.
    destruct (is_str_cell_spec b (Hstr b (list_elem_of_lookup_2 _ _ _ Hb)))
      as (s & ->).
    destruct (is_str_cell_spec b' (Hstr b' (list_elem_of_lookup_2 _ _ _ Hb')))
      as (s' & ->).
    apply key_match_string in Hmatch, Hmatch'. subst a.
    rewrite <- Hmatch' in Hb'.
    exact (NoDup_lookup ids j j' (str_cell s) Hdistinct Hb Hb'). }
  assert (Hlen : forall k c, assoc k (cols df) = Some c -> length c = nrows df).
  { intros k c Hk. apply assoc_member in Hk.
    unfold well_formed in Hwf. rewrite Forall_forall in Hwf.
    exact (Hwf (k, c) Hk). }
  assert (Hseq : map fst (left_join_pairs parents ids) = seq 0 (nrows df)).
  { rewrite <- (Hlen "parent_id" parents Hparents).
    apply left_join_rows. intros i a Ha.
    apply matches_at_most_one. exact (Hunique a). }
  assert (Hsame : forall k c, assoc k (cols df) = Some c ->
             take_left (left_join_pairs parents ids) c = c).
  { intros k c Hk. apply take_left_all_rows.
    rewrite (Hlen k c Hk). exact Hseq. }
  exists out. split; [ exact Hout | ]. split; [ | split ].
  - rewrite Hrows. rewrite <- (length_map fst), Hseq. apply length_seq.
  - unfold getitem_col. rewrite Hid, (Hsame "issue_id" ids Hids). reflexivity.
  - intros n Hn Hname Hcolor.
    destruct (decide (n = "issue_id")) as [-> | Hne].
    + unfold getitem_col. rewrite Hid, Hids, (Hsame "issue_id" ids Hids). reflexivity.
    + unfold getitem_col. rewrite (Hother n Hn).
      * destruct (assoc n (cols df)) as [c|] eqn:Hc; [ | reflexivity ].
        cbn [fmap option_fmap option_map]. rewrite (Hsame n c Hc). reflexivity.
      * unfold EPIC_FIELDS. intros Hin.
        apply elem_of_cons in Hin as [-> | Hin]; [ contradiction | ].
        apply elem_of_cons in Hin as [-> | Hin]; [ contradiction | ].
        apply elem_of_cons in Hin as [-> | Hin]; [ contradiction | ].
        inversion Hin.
Qed.

Lemma epic_lines_keep_issue_rows_witness :
  exists out,
    epic_backfill epic_table = Returned out
    /\ nrows out = 4%nat
    /\ getitem_col "issuetype" out = getitem_col "issuetype" epic_table.
Proof.
  destruct (epic_lines_keep_issue_rows epic_table
              [str_cell "10000"; str_cell "10001"; str_cell "10002"; str_cell "10003"]
              [NaN; str_cell "10000"; NaN; str_cell "10000"]
              [str_cell "Feature X"; NaN; NaN; str_cell "Own Epic"]
              [str_cell "purple"; NaN; NaN; str_cell "green"])
    as (out & Hout & Hrows & _ & Hother).
  - apply (bool_decide_unpack _). vm_compute. exact I.
  - apply Forall_forall. apply (bool_decide_unpack _). vm_compute. exact I.
  - reflexivity.
  - reflexivity.
  - reflexivity.
  - reflexivity.
  - split; [ | split ].
    + repeat constructor.
    + repeat constructor.
    + apply Exists_cons_tl. apply Exists_cons_hd. reflexivity.
  - repeat (apply NoDup_cons; split;
            [ intros Hin;
              repeat (apply elem_of_cons in Hin as [Hin | Hin]; [ discriminate Hin | ]);
              inversion Hin | ]).
    apply NoDup_nil_2.
  - exists out. split; [ exact Hout | ]. split; [ exact Hrows | ].
    apply Hother; [ | discriminate | discriminate ].
    apply (bool_decide_unpack _). vm_compute. exact I.
Defined.

(** The epic lines raise [KeyError] when one of the four columns they
    read is missing. *)
Lemma epic_backfill_missing_column (df : DataFrame) (n : string) :
  n ∈ "parent_id" :: EPIC_FIELDS -> n ∉ columns df ->
  exists k, k ∈ "parent_id" :: EPIC_FIELDS /\ (k ∉ columns df)
            /\ epic_backfill df = Raised (KeyError k)
            /\ ((forall c, c ∈ EPIC_FIELDS -> c ∈ columns df) -> k = "parent_id").
Proof.
  intros Hn Hout. unfold epic_backfill.
  destruct (getitem_list_cases EPIC_FIELDS df)
    as [[[df_epics Hsel] Hall] | (c & Hc & Hmiss & Hraise)].
  - rewrite Hsel. cbn [obind].
    assert (Hparent : "parent_id" ∉ columns df).
    { apply elem_of_cons in Hn as [-> | Hn]; [ exact Hout | ].
      exfalso. exact (Hout (Hall n Hn)). }
    exists "parent_id". split; [ apply list_elem_of_here | ].
    split; [ exact Hparent | ]. split; [ | reflexivity ].
    unfold merge_left, getitem_col.
    rewrite (assoc_None "parent_id" (cols df)); [ reflexivity | ].
    intros c Hc Heq. apply Hparent. rewrite <- Heq. apply label_of_member. exact Hc.
  - rewrite Hraise. cbn [obind]. exists c.
    split; [ apply list_elem_of_further; exact Hc | ].
    split; [ exact Hmiss | ]. split; [ reflexivity | ].
    intros Hall. exfalso. exact (Hmiss (Hall c Hc)).
Qed.

(** The only whitelisted field that the renamer calls [parent_id]. *)
Lemma parent_id_source (n : string) :
  n ∈ RELEVANT_FIELDS ->
  default n (COLUMN_NAME_DICT !! n) = "parent_id" -> n = "fields.parent.id".
Proof.
  intros Hn.
  assert (H : Forall (fun n => default n (COLUMN_NAME_DICT !! n) = "parent_id"
                               -> n = "fields.parent.id") RELEVANT_FIELDS).
  { apply (bool_decide_unpack _). vm_compute. exact I. }
  rewrite Forall_forall in H. exact (H n Hn).
Qed.

(** The enhancement cell needs the parent column: on a fetched table
    without the column [fields.parent.id] the cell raises [KeyError]; the
    key is [parent_id] when the id, epic-name and epic-colour fields are
    there. *)
Theorem enhancement_needs_parent_column (df : DataFrame) :
  "fields.parent.id" ∉ columns df ->
  exists k,
    enhance_issues df = Raised (KeyError k)
    /\ k ∈ "parent_id" :: EPIC_FIELDS
    /\ ("id" ∈ columns df -> "fields.customfield_10011" ∈ columns df ->
        "fields.customfield_10017" ∈ columns df -> k = "parent_id").
Proof.
  intros Hparent. unfold enhance_issues.
  assert (Hcols : project_rename df
            = Returned (mkDF (nrows df)
                (map (fun c => (default (fst c) (COLUMN_NAME_DICT !! fst c), snd c))
                   (flat_map (fun n => filter (fun c => fst c = n) (cols df))
                      (filter (fun n => n ∈ RELEVANT_FIELDS) (columns df)))))).
  { unfold project_rename, project_fields, getitem_list.
    rewrite own_labels_present. reflexivity. }
  rewrite Hcols. cbn [obind].
  set (out := mkDF _ _).
  assert (Hkept : forall n, n ∈ columns df -> n ∈ RELEVANT_FIELDS ->
             default n (COLUMN_NAME_DICT !! n) ∈ columns out).
  { intros n Hn Hwhite. apply member_of_label in Hn as (c & Hc & <-).
    unfold columns. subst out. cbn [cols].
    apply list_elem_of_In. apply in_map_iff.
    exists (default (fst c) (COLUMN_NAME_DICT !! fst c), snd c).
    split; [ reflexivity | ].
    apply (in_map (fun c => (default (fst c) (COLUMN_NAME_DICT !! fst c), snd c))).
    apply in_flat_map. exists (fst c). split.
    - apply list_elem_of_In. apply list_elem_of_filter. split; [ exact Hwhite | ].
      apply label_of_member. exact Hc.
    - apply list_elem_of_In. apply list_elem_of_filter.
      split; [ reflexivity | exact Hc ]. }
  assert (Hmiss : "parent_id" ∉ columns out).
  { intros Hin. apply member_of_label in Hin as (c' & Hc' & Hlabel).
    subst out. cbn [cols] in Hc'.
    apply list_elem_of_In in Hc'. apply in_map_iff in Hc' as (c & <- & Hc).
    cbn [fst] in Hlabel.
    apply in_flat_map in Hc as (n & Hn & Hc).
    apply list_elem_of_In in Hc. apply list_elem_of_filter in Hc as [Hfst Hc].
    apply list_elem_of_In in Hn. apply list_elem_of_filter in Hn as [Hwhite Hn].
    apply Hparent. rewrite <- (parent_id_source (fst c)).
    - apply label_of_member. exact Hc.
    - rewrite Hfst. exact Hwhite.
    - exact Hlabel. }
  destruct (epic_backfill_missing_column out "parent_id" (list_elem_of_here _ _) Hmiss)
    as (k & Hk & _ & Hraise & Hwhich).
  exists k. rewrite Hraise. cbn [obind].
  split; [ reflexivity | ]. split; [ exact Hk | ].
  intros Hid Hname Hcolor. apply Hwhich.
  intros c Hc. unfold EPIC_FIELDS in Hc.
  apply elem_of_cons in Hc as [-> | Hc].
  { apply (Hkept "id" Hid). apply (bool_decide_unpack _). vm_compute. exact I. }
  apply elem_of_cons in Hc as [-> | Hc].
  { apply (Hkept "fields.customfield_10011" Hname).
    apply (bool_decide_unpack _). vm_compute. exact I. }
  apply elem_of_cons in Hc as [-> | Hc].
  { apply (Hkept "fields.customfield_10017" Hcolor).
    apply (bool_decide_unpack _). vm_compute. exact I. }
  inversion Hc.
Qed.

Lemma enhancement_needs_parent_column_witness :
  enhance_issues
    (mkDF 1 [ ("id", [str_cell "10001"]);
              ("fields.customfield_10011", [NaN]);
              ("fields.customfield_10017", [NaN]) ])
  = Raised (KeyError "parent_id").
Proof.
  destruct (enhancement_needs_parent_column
              (mkDF 1 [ ("id", [str_cell "10001"]);
                        ("fields.customfield_10011", [NaN]);
                        ("fields.customfield_10017", [NaN]) ]))
    as (k & Hraise & _ & Hk).
  - apply (bool_decide_unpack _). vm_compute. exact I.
  - rewrite Hraise. f_equal. f_equal. apply Hk.
    + apply (bool_decide_unpack _). vm_compute. exact I.
    + apply (bool_decide_unpack _). vm_compute. exact I.
    + apply (bool_decide_unpack _). vm_compute. exact I.
Defined.

(** * Properties of the colour lines *)

Lemma COLOR_DICT_range (k v : string) :
  COLOR_DICT !! k = Some v -> v ∈ DISPLAY_COLORS.
Proof.
  unfold COLOR_DICT, dict_literal. intros H.
  apply elem_of_list_to_map_2 in H. apply elem_of_reverse in H.
  repeat (apply elem_of_cons in H as [[= -> ->] | H];
          [ apply (bool_decide_unpack _); vm_compute; exact I | ]).
  inversion H.
Qed.

Lemma color_replace_cases (x : cell) :
  (hashable x
   /\ exists s, s ∈ DISPLAY_COLORS /\ color_replace x = Returned (str_cell s))
  \/ (~ hashable x /\ color_replace x = Raised TypeError).
Proof.
  assert (Hwhite : "white" ∈ DISPLAY_COLORS)
    by (apply (bool_decide_unpack _); vm_compute; exact I).
  unfold color_replace.
  destruct x as [|[| b | z | s | l | o]]; cbn [color_get obind hashable];
    try (left; split; [ exact I | ]; exists "white";
         split; [ exact Hwhite | reflexivity ]);
    try (right; split; [ intros [] | reflexivity ]).
  left. split; [ exact I | ].
  destruct (COLOR_DICT !! s) as [v|] eqn:Hs.
  - exists v. split; [ exact (COLOR_DICT_range s v Hs) | reflexivity ].
  - exists "white". split; [ exact Hwhite | reflexivity ].
Qed.

Lemma traverse_color_replace (c : list cell) :
  (Forall hashable c
   /\ exists c', traverse color_replace c = Returned c'
                 /\ Forall (fun x => exists s, s ∈ DISPLAY_COLORS /\ x = str_cell s) c')
  \/ (~ Forall hashable c /\ traverse color_replace c = Raised TypeError).
Proof.
  induction c as [|x c IH].
  - left. split; [ constructor | ]. exists []. split; [ reflexivity | constructor ].
  - cbn [traverse].
    destruct (color_replace_cases x) as [[Hx (s & Hs & ->)] | [Hx ->]]; cbn [obind].
    + destruct IH as [[Hc (c' & -> & Hc')] | [Hc ->]]; cbn [obind].
      * left. split; [ constructor; assumption | ].
        exists (str_cell s :: c'). split; [ reflexivity | ].
        constructor; [ exists s; split; [ exact Hs | reflexivity ] | exact Hc' ].
      * right. split; [ | reflexivity ].
        intros Hall. apply Forall_cons in Hall as [_ Hall]. exact (Hc Hall).
    + right. split; [ | reflexivity ].
      intros Hall. apply Forall_cons in Hall as [Hx' _]. exact (Hx Hx').
Qed.

Lemma apply_col_Returned (name : string) (f : cell -> outcome cell)
    (df out : DataFrame) :
  apply_col name f df = Returned out ->
  exists c c', assoc name (cols df) = Some c
               /\ traverse f c = Returned c'
               /\ out = setitem name c' df.
Proof.
  unfold apply_col, getitem_col.
  destruct (assoc name (cols df)) as [c|]; [ | discriminate ]. cbn [obind].
  destruct (traverse f c) as [c'| |] eqn:Ht; cbn [obind]; try discriminate.
  intros [= <-]. exists c, c'. split; [ reflexivity | ]. split; [ exact Ht | reflexivity ].
Qed.

Lemma apply_col_present (name : string) (f : cell -> outcome cell)
    (df : DataFrame) (c c' : list cell) :
  assoc name (cols df) = Some c -> traverse f c = Returned c' ->
  apply_col name f df = Returned (setitem name c' df).
Proof.
  intros Hc Hf. unfold apply_col, getitem_col. rewrite Hc. cbn [obind].
  rewrite Hf. reflexivity.
Qed.

(** What a run of the colour lines that returns has done, column by
    column. *)
Lemma replace_colors_Returned (df out : DataFrame) :
  replace_colors df = Returned out ->
  nrows out = nrows df
  /\ columns out = columns df
  /\ (forall n, n ∈ COLOR_COLUMNS ->
        exists c c', assoc n (cols df) = Some c
                     /\ assoc n (cols out) = Some c'
                     /\ traverse color_replace c = Returned c')
  /\ (forall n, n ∉ COLOR_COLUMNS -> assoc n (cols out) = assoc n (cols df)).
Proof.
  unfold replace_colors.
  destruct (apply_col "epic_color" color_replace df) as [df1| |] eqn:H1;
    try discriminate. cbn [obind].
  destruct (apply_col "status_cat_color" color_replace df1) as [df2| |] eqn:H2;
    try discriminate. cbn [obind].
  intros H3.
  apply apply_col_Returned in H1 as (c1 & c1' & Ha1 & Ht1 & ->).
  apply apply_col_Returned in H2 as (c2 & c2' & Ha2 & Ht2 & ->).
  apply apply_col_Returned in H3 as (c3 & c3' & Ha3 & Ht3 & ->).
  destruct (setitem_present "epic_color" c1' df (assoc_label _ _ _ Ha1))
    as (Hrows1 & Hcols1 & Hset1 & Hkeep1).
  set (df1 := setitem "epic_color" c1' df) in *.
  destruct (setitem_present "status_cat_color" c2' df1 (assoc_label _ _ _ Ha2))
    as (Hrows2 & Hcols2 & Hset2 & Hkeep2).
  set (df2 := setitem "status_cat_color" c2' df1) in *.
  destruct (setitem_present "parent_status_cat_color" c3' df2 (assoc_label _ _ _ Ha3))
    as (Hrows3 & Hcols3 & Hset3 & Hkeep3).
  set (out := setitem "parent_status_cat_color" c3' df2) in *.
  split; [ rewrite Hrows3, Hrows2; exact Hrows1 | ].
  split; [ rewrite Hcols3, Hcols2; exact Hcols1 | ].
  split.
  - intros n Hn. unfold COLOR_COLUMNS in Hn.
    apply elem_of_cons in Hn as [-> | Hn].
    { exists c1, c1'. split; [ exact Ha1 | ]. split; [ | exact Ht1 ].
      rewrite (Hkeep3 "epic_color"), (Hkeep2 "epic_color") by discriminate.
      exact Hset1. }
    apply elem_of_cons in Hn as [-> | Hn].
    { exists c2, c2'. split; [ | split; [ | exact Ht2 ] ].
      - rewrite <- (Hkeep1 "status_cat_color") by discriminate. exact Ha2.
      - rewrite (Hkeep3 "status_cat_color") by discriminate. exact Hset2. }
    apply elem_of_cons in Hn as [-> | Hn]; [ | inversion Hn ].
    exists c3, c3'. split; [ | split; [ exact Hset3 | exact Ht3 ] ].
    rewrite <- (Hkeep1 "parent_status_cat_color"),
            <- (Hkeep2 "parent_status_cat_color") by discriminate.
    exact Ha3.
  - intros n Hn.
    assert (Hne : n <> "epic_color" /\ n <> "status_cat_color"
                  /\ n <> "parent_status_cat_color").
    { repeat split; intros ->; apply Hn;
        apply (bool_decide_unpack _); vm_compute; exact I. }
    destruct Hne as (Hn1 & Hn2 & Hn3).
    rewrite (Hkeep3 n Hn3), (Hkeep2 n Hn2). exact (Hkeep1 n Hn1).
Qed.

(** The colour lines only rewrite cells: a run that returns keeps the
    rows and the labels, leaves every other column as it was, and in each
    of the three colour columns writes, cell for cell, the translation of
    the cell that was there; every cell it writes is one of the nine
    display colours. *)
Theorem replaced_colors_are_display_colors (df out : DataFrame) :
  replace_colors df = Returned out ->
  nrows out = nrows df
  /\ columns out = columns df
  /\ (forall n, n ∈ COLOR_COLUMNS ->
        exists c c',
          getitem_col n df = Returned c
          /\ getitem_col n out = Returned c'
          /\ traverse color_replace c = Returned c'
          /\ length c' = length c
          /\ Forall (fun x => exists s, s ∈ DISPLAY_COLORS /\ x = str_cell s) c')
  /\ (forall n, n ∉ COLOR_COLUMNS -> getitem_col n out = getitem_col n df).
Proof.
  intros Hret.
  destruct (replace_colors_Returned df out Hret) as (Hrows & Hcols & Hcolor & Hother).
  split; [ exact Hrows | ]. split; [ exact Hcols | ]. split.
  - intros n Hn. destruct (Hcolor n Hn) as (c & c' & Hc & Hc' & Ht).
    exists c, c'. unfold getitem_col. rewrite Hc, Hc'.
    split; [ reflexivity | ]. split; [ reflexivity | ]. split; [ exact Ht | ].
    split; [ exact (traverse_length _ _ _ Ht) | ].
    destruct (traverse_color_replace c) as [[_ (c'' & Ht' & Hall)] | [_ Hraise]].
    + rewrite Ht in Ht'. injection Ht' as <-. exact Hall.
    + rewrite Ht in Hraise. discriminate.
  - intros n Hn. unfold getitem_col. rewrite (Hother n Hn). reflexivity.
Qed.

Lemma replaced_colors_are_display_colors_witness :
  exists out,
    replace_colors epic_table = Returned out
    /\ getitem_col "status_cat_color" out
       = Returned [str_cell "green"; str_cell "orange"; str_cell "dodgerblue";
                   str_cell "green"]
    /\ getitem_col "issue_id" out = getitem_col "issue_id" epic_table.
Proof.
  eexists. split; [ vm_compute; reflexivity | ].
  match goal with
  | |- getitem_col _ ?out = _ /\ _ =>
      destruct (replaced_colors_are_display_colors epic_table out
                  ltac:(vm_compute; reflexivity)) as (_ & _ & _ & Hother)
  end.
  split; [ vm_compute; reflexivity | ].
  apply Hother. apply (bool_decide_unpack _). vm_compute. exact I.
Defined.

Lemma apply_color_cases (name : string) (d : DataFrame) :
  (exists c c', assoc name (cols d) = Some c /\ Forall hashable c
                /\ traverse color_replace c = Returned c'
                /\ apply_col name color_replace d
                   = Returned (setitem name c' d))
  \/ (exists c, assoc name (cols d) = Some c /\ ~ Forall hashable c
                /\ apply_col name color_replace d = Raised TypeError)
  \/ (assoc name (cols d) = None
      /\ apply_col name color_replace d = Raised (KeyError name)).
Proof.
  unfold apply_col, getitem_col.
  destruct (assoc name (cols d)) as [c|]; cbn [obind].
  - destruct (traverse_color_replace c) as [[Hc (c' & Ht & _)] | [Hc Ht]];
      rewrite Ht; cbn [obind].
    + left. exists c, c'. repeat split; assumption.
    + right. left. exists c. repeat split; assumption.
  - right. right. split; reflexivity.
Qed.

(** The three ways in which the colour lines end. *)
Lemma replace_colors_cases (df : DataFrame) :
  (exists out, replace_colors df = Returned out
    /\ forall n, n ∈ COLOR_COLUMNS ->
         exists c, assoc n (cols df) = Some c /\ Forall hashable c)
            \/ (replace_colors df = Raised TypeError
     /\ exists n c, n ∈ COLOR_COLUMNS /\ assoc n (cols df) = Some c
                    /\ ~ Forall hashable c)
            \/ (exists k, k ∈ COLOR_COLUMNS /\ assoc k (cols df) = None
               /\ replace_colors df = Raised (KeyError k)).
Proof.
  unfold replace_colors.
  destruct (apply_color_cases "epic_color" df)
    as [(c1 & c1' & Ha1 & Hh1 & Ht1 & ->) | [(c1 & Ha1 & Hh1 & ->) | [Ha1 ->]]];
    cbn [obind].
  2:{ right. left. split; [ reflexivity | ]. exists "epic_color", c1.
      split; [ apply (bool_decide_unpack _); vm_compute; exact I | ].
      split; assumption. }
  2:{ right. right. exists "epic_color".
      split; [ apply (bool_decide_unpack _); vm_compute; exact I | ].
      split; [ exact Ha1 | reflexivity ]. }
  destruct (setitem_present "epic_color" c1' df (assoc_label _ _ _ Ha1))
    as (_ & _ & _ & Hkeep1).
  set (df1 := setitem "epic_color" c1' df) in *.
  destruct (apply_color_cases "status_cat_color" df1)
    as [(c2 & c2' & Ha2 & Hh2 & Ht2 & ->) | [(c2 & Ha2 & Hh2 & ->) | [Ha2 ->]]];
    cbn [obind].
  2:{ right. left. split; [ reflexivity | ]. exists "status_cat_color", c2.
      split; [ apply (bool_decide_unpack _); vm_compute; exact I | ].
      split; [ | exact Hh2 ].
      rewrite <- (Hkeep1 "status_cat_color") by discriminate. exact Ha2. }
  2:{ right. right. exists "status_cat_color".
      split; [ apply (bool_decide_unpack _); vm_compute; exact I | ].
      split; [ | reflexivity ].
      rewrite <- (Hkeep1 "status_cat_color") by discriminate. exact Ha2. }
  destruct (setitem_present "status_cat_color" c2' df1 (assoc_label _ _ _ Ha2))
    as (_ & _ & _ & Hkeep2).
  set (df2 := setitem "status_cat_color" c2' df1) in *.
  assert (Hsame : assoc "parent_status_cat_color" (cols df2)
                  = assoc "parent_status_cat_color" (cols df)).
  { rewrite (Hkeep2 "parent_status_cat_color"),
            (Hkeep1 "parent_status_cat_color") by discriminate. reflexivity. }
  destruct (apply_color_cases "parent_status_cat_color" df2)
    as [(c3 & c3' & Ha3 & Hh3 & Ht3 & ->) | [(c3 & Ha3 & Hh3 & ->) | [Ha3 ->]]];
    cbn [obind].
  2:{ right. left. split; [ reflexivity | ]. exists "parent_status_cat_color", c3.
      split; [ apply (bool_decide_unpack _); vm_compute; exact I | ].
      split; [ | exact Hh3 ]. rewrite <- Hsame. exact Ha3. }
  2:{ right. right. exists "parent_status_cat_color".
      split; [ apply (bool_decide_unpack _); vm_compute; exact I | ].
      split; [ | reflexivity ]. rewrite <- Hsame. exact Ha3. }
  left. eexists. split; [ reflexivity | ].
  intros n Hn. unfold COLOR_COLUMNS in Hn.
  apply elem_of_cons in Hn as [-> | Hn]; [ exists c1; split; assumption | ].
  apply elem_of_cons in Hn as [-> | Hn].
  { exists c2. split; [ | exact Hh2 ].
    rewrite <- (Hkeep1 "status_cat_color") by discriminate. exact Ha2. }
  apply elem_of_cons in Hn as [-> | Hn]; [ | inversion Hn ].
  exists c3. split; [ | exact Hh3 ]. rewrite <- Hsame. exact Ha3.
Qed.

(** The colour lines return exactly when the table has the three colour
    columns and none of their cells is a list or a dict; a missing column
    raises [KeyError], an unhashable cell [TypeError]. *)
Theorem replace_colors_returns_iff (df : DataFrame) :
  (returns (replace_colors df)
   <-> forall n, n ∈ COLOR_COLUMNS ->
         exists c, getitem_col n df = Returned c /\ Forall hashable c)
  /\ (forall e, replace_colors df = Raised e ->
        (e = TypeError
         /\ exists n c, n ∈ COLOR_COLUMNS /\ getitem_col n df = Returned c
                        /\ ~ Forall hashable c)
        \/ (exists k, k ∈ COLOR_COLUMNS /\ (k ∉ columns df) /\ e = KeyError k)).
Proof.
  pose proof (replace_colors_cases df) as Hcases.
  split; [ split | ].
  - intros [out Hout]. destruct Hcases as [(out' & _ & Hall) | [[Hr _] | (k & _ & _ & Hr)]].
    + intros n Hn. destruct (Hall n Hn) as (c & Hc & Hh). exists c.
      unfold getitem_col. rewrite Hc. split; [ reflexivity | exact Hh ].
    + rewrite Hr in Hout. discriminate.
    + rewrite Hr in Hout. discriminate.
  - intros Hall.
    destruct Hcases as [(out & Hout & _) | [(_ & n & c & Hn & Hc & Hh) | (k & Hk & Hnone & _)]].
    + exists out. exact Hout.
    + exfalso. destruct (Hall n Hn) as (c0 & Hc0 & Hh0).
      apply getitem_col_Returned in Hc0. rewrite Hc in Hc0.
      injection Hc0 as <-. exact (Hh Hh0).
    + exfalso. destruct (Hall k Hk) as (c0 & Hc0 & _).
      apply getitem_col_Returned in Hc0. rewrite Hnone in Hc0. discriminate.
  - intros e He.
    destruct Hcases as [(out & Hout & _) | [(Hr & n & c & Hn & Hc & Hh) | (k & Hk & Hnone & Hr)]].
    + rewrite Hout in He. discriminate.
    + left. rewrite Hr in He. injection He as <-. split; [ reflexivity | ].
      exists n, c. split; [ exact Hn | ]. split; [ | exact Hh ].
      unfold getitem_col. rewrite Hc. reflexivity.
    + right. rewrite Hr in He. injection He as <-. exists k.
      split; [ exact Hk | ]. split; [ | reflexivity ].
      intros Hin. destruct (assoc_is_Some k (cols df) Hin) as (v & Hv).
      rewrite Hnone in Hv. discriminate.
Qed.

Lemma replace_colors_returns_iff_witness :
  returns (replace_colors epic_table).
Proof.
  apply (proj1 (replace_colors_returns_iff epic_table)).
  intros n Hn. unfold COLOR_COLUMNS in Hn.
  apply elem_of_cons in Hn as [-> | Hn];
    [ eexists; split; [ reflexivity | repeat constructor ] | ].
  apply elem_of_cons in Hn as [-> | Hn];
    [ eexists; split; [ reflexivity | repeat constructor ] | ].
  apply elem_of_cons in Hn as [-> | Hn];
    [ eexists; split; [ reflexivity | repeat constructor ] | inversion Hn ].
Defined.

(** * Properties of the aggregation cells *)

Lemma assoc_map_cells {V W} (h : V -> W) (k : string) (l : list (string * V)) :
  assoc k (map (fun c => (fst c, h (snd c))) l) = h <$> assoc k l.
Proof.
  induction l as [|[n v] l IH]; [ reflexivity | ].
  cbn [map assoc fst snd]. destruct (String.eqb k n); [ reflexivity | exact IH ].
Qed.

Lemma assoc_selected (k : string) (names : list string)
    (cs : list (string * list cell)) :
  assoc k (flat_map (fun n => filter (fun c => fst c = n) cs) names)
  = if bool_decide (k ∈ names) then assoc k cs else None.
Proof.
  assert (Hother : forall n, k <> n ->
             assoc k (filter (fun c => fst c = n) cs) = None).
  { intros n Hne. apply assoc_None. intros c Hc.
    apply list_elem_of_filter in Hc as [Hc _]. rewrite Hc.
    intros Heq. apply Hne. symmetry. exact Heq. }
  assert (Hown : assoc k (filter (fun c => fst c = k) cs) = assoc k cs).
  { clear Hother. induction cs as [|[m v] cs IH]; [ reflexivity | ].
    rewrite filter_cons. cbn [fst assoc].
    destruct (decide (m = k)) as [-> | Hm].
    - cbn [assoc]. destruct (String.eqb k k); [ reflexivity | exact IH ].
    - destruct (String.eqb_spec k m) as [-> | _]; [ contradiction | exact IH ]. }
  induction names as [|n names IH]; [ reflexivity | ].
  cbn [flat_map]. rewrite assoc_app.
  destruct (decide (k = n)) as [<- | Hne].
  - rewrite Hown.
    rewrite bool_decide_eq_true_2 by apply list_elem_of_here.
    destruct (assoc k cs) as [v|]; [ reflexivity | ].
    rewrite IH. destruct (bool_decide (k ∈ names)); reflexivity.
  - rewrite (Hother n Hne), IH.
    destruct (decide (k ∈ names)) as [Hin | Hout].
    + rewrite !bool_decide_eq_true_2;
        [ reflexivity | apply list_elem_of_further; exact Hin | exact Hin ].
    + rewrite !bool_decide_eq_false_2; [ reflexivity | | exact Hout ].
      intros Hin. apply elem_of_cons in Hin as [Heq | Hin]; contradiction.
Qed.

Lemma traverse_lookup {A B} (f : A -> outcome B) (l : list A) (l' : list B)
    (j : nat) (x : A) :
  traverse f l = Returned l' -> l !! j = Some x ->
  exists y, l' !! j = Some y /\ f x = Returned y.
Proof.
  revert l' j. induction l as [|a l IH]; intros l' j; [ intros _ Hj; discriminate | ].
  cbn [traverse]. destruct (f a) as [b| |] eqn:Hfa; cbn [obind]; try discriminate.
  destruct (traverse f l) as [bs| |]; cbn [obind]; try discriminate.
  intros [= <-] Hj. destruct j as [|j].
  - injection Hj as <-. exists b. split; [ reflexivity | exact Hfa ].
  - exact (IH bs j eq_refl Hj).
Qed.

Lemma pick_mask_member {A} (f : A -> bool) (x : A) (l : list A) :
  x ∈ pick (map f l) l -> x ∈ l /\ f x = true.
Proof.
  induction l as [|a l IH]; cbn [map pick]; [ intros H; inversion H | ].
  destruct (f a) eqn:Hfa.
  - intros Hx. apply elem_of_cons in Hx as [-> | Hx].
    + split; [ apply list_elem_of_here | exact Hfa ].
    + destruct (IH Hx) as [Hin Hfx]. split; [ apply list_elem_of_further | ]; assumption.
  - intros Hx. destruct (IH Hx) as [Hin Hfx].
    split; [ apply list_elem_of_further | ]; assumption.
Qed.

Lemma pick_member {A} (x : A) (mask : list bool) (l : list A) :
  x ∈ pick mask l -> x ∈ l.
Proof.
  revert mask. induction l as [|a l IH]; intros [|[|] mask]; cbn [pick];
    try (intros H; inversion H; fail).
  - intros Hx. apply elem_of_cons in Hx as [-> | Hx].
    + apply list_elem_of_here.
    + apply list_elem_of_further. exact (IH mask Hx).
  - intros Hx. apply list_elem_of_further. exact (IH mask Hx).
Qed.

Lemma insert_key_member (k g : list cell) (sorted : list (list cell)) :
  g ∈ insert_key k sorted -> g = k \/ g ∈ sorted.
Proof.
  induction sorted as [|k' rest IH]; cbn [insert_key].
  - intros Hg. apply elem_of_cons in Hg as [-> | Hg]; [ left; reflexivity | inversion Hg ].
  - destruct (keys_eqb k k'); [ intros Hg; right; exact Hg | ].
    destruct (keys_leb k k').
    + intros Hg. apply elem_of_cons in Hg as [-> | Hg];
        [ left; reflexivity | right; exact Hg ].
    + intros Hg. apply elem_of_cons in Hg as [-> | Hg].
      * right. apply list_elem_of_here.
      * destruct (IH Hg) as [-> | Hin]; [ left; reflexivity | ].
        right. apply list_elem_of_further. exact Hin.
Qed.

(** Every group key is the key of some row. *)
Lemma group_keys_member (g : list cell) (keys : list (list cell)) :
  g ∈ group_keys keys -> g ∈ keys.
Proof.
  unfold group_keys.
  assert (H : forall acc, g ∈ foldl (fun acc k => insert_key k acc) acc keys ->
                          g ∈ acc \/ g ∈ keys).
  { induction keys as [|k keys IH]; intros acc; cbn [foldl].
    - intros Hg. left. exact Hg.
    - intros Hg. destruct (IH _ Hg) as [Hin | Hin].
      + destruct (insert_key_member k g acc Hin) as [-> | Hacc].
        * right. apply list_elem_of_here.
        * left. exact Hacc.
      + right. apply list_elem_of_further. exact Hin. }
  intros Hg. destruct (H [] Hg) as [Hnil | Hin]; [ inversion Hnil | exact Hin ].
Qed.

(** The key columns of a grouped table: column [j] of the result has the
    label of key [j], and each of its cells is a cell of that column of
    the grouped table that is not null. *)
Lemma groupby_key_columns (keys : list string) (value sum_name count_name : string)
    (df out : DataFrame) :
  groupby_sum_count keys value sum_name count_name df = Returned out ->
  forall j k, keys !! j = Some k ->
    exists src c,
      getitem_col k df = Returned src
      /\ cols out !! j = Some (k, c)
      /\ length c = nrows out
      /\ Forall (fun x => x ∈ src /\ isnull x = false) c.
Proof.
  unfold groupby_sum_count.
  destruct (traverse (fun k => getitem_col k df) keys) as [key_cols| |] eqn:Hkeys;
    cbn [obind]; try discriminate.
  destruct (getitem_col value df) as [vals| |]; cbn [obind]; try discriminate.
  cbn zeta.
  set (rows := filter _ _).
  set (groups := group_keys (map fst rows)).
  destruct (traverse _ groups) as [sums| |]; cbn [obind]; try discriminate.
  intros [= <-] j k Hj.
  destruct (traverse_lookup _ keys key_cols j k Hkeys Hj) as (src & Hsrc & Hcol).
  exists src, (map (fun g => nth j g NaN) groups).
  split; [ exact Hcol | ]. cbn [cols nrows].
  split; [ | split; [ apply length_map | ] ].
  - rewrite lookup_app_l.
    + rewrite list_lookup_imap, Hj. reflexivity.
    + rewrite length_imap. apply lookup_lt_is_Some. eexists. exact Hj.
  - apply Forall_forall. intros x Hx.
    apply list_elem_of_In in Hx. apply in_map_iff in Hx as (g & <- & Hg).
    apply list_elem_of_In in Hg. apply group_keys_member in Hg.
    apply list_elem_of_In in Hg. apply in_map_iff in Hg as ([g' v] & Heq & Hrow).
    cbn [fst] in Heq. subst g'.
    apply list_elem_of_In in Hrow. subst rows.
    apply list_elem_of_filter in Hrow as [Hfull Hrow]. cbn [fst] in Hfull.
    apply list_elem_of_In in Hrow. apply in_map_iff in Hrow as (i & [= <- _] & _).
    assert (Hcell : row_key key_cols i !! j = Some (nth i src NaN)).
    { unfold row_key.
      change (map (fun c => nth i c NaN) key_cols)
        with ((fun c => nth i c NaN) <$> key_cols).
      rewrite list_lookup_fmap, Hsrc. reflexivity. }
    rewrite (nth_lookup_Some _ _ NaN _ Hcell).
    assert (Hfilled : isnull (nth i src NaN) = false).
    { rewrite forallb_forall in Hfull.
      apply Bool.negb_true_iff. apply Hfull.
      apply list_elem_of_In. exact (list_elem_of_lookup_2 _ _ _ Hcell). }
    split; [ | exact Hfilled ].
    destruct (nth_in_or_default i src NaN) as [Hin | Hdef].
    + apply list_elem_of_In. exact Hin.
    + rewrite Hdef in Hfilled. discriminate.
Qed.

(** The three aggregation cells never list an epic and never a group
    with a missing key: in a table they return, key column [j] carries
    the label of key [j], each of its cells is a cell of that column of
    [df_issues_enhanced] that is not null, and no cell of the issue type
    column is ['Epic']. *)
Theorem aggregates_list_no_epic_and_no_null_key (fields keys : list string)
    (df out : DataFrame) :
  storypoints_per fields keys df = Returned out ->
  forall j k, keys !! j = Some k ->
    exists src c,
      getitem_col k df = Returned src
      /\ cols out !! j = Some (k, c)
      /\ length c = nrows out
      /\ Forall (fun x => x ∈ src /\ isnull x = false) c
      /\ (k = "issuetype" -> Forall (fun x => x <> str_cell "Epic") c).
Proof.
  unfold storypoints_per, query_ne.
  destruct (assoc "issuetype" (cols df)) as [types|] eqn:Htypes; [ | discriminate ].
  cbn [obind].
  set (mask := map (fun x => negb (cell_eqb x (str_cell "Epic"))) types).
  unfold getitem_list.
  destruct (filter (fun n => n ∉ columns (filter_rows mask df)) fields);
    [ | discriminate ].
  cbn [obind]. intros Hret j k Hj.
  destruct (groupby_key_columns _ _ _ _ _ _ Hret j k Hj)
    as (src' & c & Hsrc' & Hcol & Hlen & Hcells).
  apply getitem_col_Returned in Hsrc'. cbn [cols filter_rows] in Hsrc'.
  rewrite assoc_selected in Hsrc'.
  destruct (bool_decide (k ∈ fields)); [ | discriminate ].
  rewrite (assoc_map_cells (pick mask) k (cols df)) in Hsrc'.
  destruct (assoc k (cols df)) as [src|] eqn:Hsrc; [ | discriminate ].
  injection Hsrc' as <-.
  exists src, c. unfold getitem_col. rewrite Hsrc.
  split; [ reflexivity | ]. split; [ exact Hcol | ]. split; [ exact Hlen | ].
  split.
  - eapply Forall_impl; [ exact Hcells | ].
    intros x [Hx Hfilled]. split; [ exact (pick_member x mask src Hx) | exact Hfilled ].
  - intros ->. rewrite Htypes in Hsrc. injection Hsrc as <-.
    eapply Forall_impl; [ exact Hcells | ].
    intros x [Hx _] ->. subst mask.
    apply pick_mask_member in Hx as [_ Hx]. discriminate Hx.
Qed.

Lemma aggregates_list_no_epic_and_no_null_key_witness :
  exists out c,
    df_issues_per_project epic_project_table = Returned out
    /\ cols out !! 1%nat = Some ("issuetype", c)
    /\ Forall (fun x => x <> str_cell "Epic") c.
Proof.
  eexists.
  match goal with
  | |- exists c, ?run = Returned ?out /\ _ =>
      destruct (aggregates_list_no_epic_and_no_null_key
                  ["project_name"; "issuetype"; "status_cat_name"; "storypoints"]
                  ["project_name"; "issuetype"; "status_cat_name"]
                  epic_project_table out ltac:(vm_compute; reflexivity)
                  1%nat "issuetype" eq_refl)
        as (src & c & _ & Hcol & _ & _ & Hepic)
  end.
  exists c. split; [ vm_compute; reflexivity | ].
  split; [ exact Hcol | exact (Hepic eq_refl) ].
Defined.

(** * The enhancement cell as a whole *)

Lemma enhancement_input_source (src dst n : string) :
  (src, dst) ∈ ENHANCEMENT_INPUTS -> n ∈ RELEVANT_FIELDS ->
  src ∈ RELEVANT_FIELDS
  /\ (default n (COLUMN_NAME_DICT !! n) = dst <-> n = src).
Proof.
  intros Hpair Hn.
  assert (H : Forall (fun p => Forall (fun n =>
                fst p ∈ RELEVANT_FIELDS
                /\ (default n (COLUMN_NAME_DICT !! n) = snd p <-> n = fst p))
                RELEVANT_FIELDS) ENHANCEMENT_INPUTS).
  { apply (bool_decide_unpack _). vm_compute. exact I. }
  rewrite Forall_forall in H. specialize (H (src, dst) Hpair).
  rewrite Forall_forall in H. exact (H n Hn).
Qed.

(** The projector's result, read by the names of the enhancement cell. *)
Lemma project_rename_inputs (df : DataFrame) :
  exists out,
    project_rename df = Returned out
    /\ nrows out = nrows df
    /\ (forall n, n ∈ columns out -> n ∈ OUTPUT_NAMES)
    /\ forall src dst, (src, dst) ∈ ENHANCEMENT_INPUTS ->
         assoc dst (cols out) = assoc src (cols df).
Proof.
  destruct (project_rename_labels df) as (out & Hout & Hlabels).
  exists out. split; [ exact Hout | ].
  revert Hout. unfold project_rename, project_fields, getitem_list.
  rewrite own_labels_present. cbn [obind]. intros Hout.
  set (sel := flat_map (fun n => filter (fun c => fst c = n) (cols df))
                (filter (fun n => n ∈ RELEVANT_FIELDS) (columns df))) in *.
  assert (Hcols : cols out
            = map (fun c => (default (fst c) (COLUMN_NAME_DICT !! fst c), snd c)) sel).
  { apply (f_equal (fun o => match o with Returned d => cols d | _ => [] end)) in Hout.
    symmetry. exact Hout. }
  assert (Hrows : nrows out = nrows df).
  { apply (f_equal (fun o => match o with Returned d => nrows d | _ => 0%nat end)) in Hout.
    symmetry. exact Hout. }
  split; [ exact Hrows | ]. split; [ exact Hlabels | ].
  intros src dst Hpair. rewrite Hcols.
  assert (Hsrc : src ∈ RELEVANT_FIELDS).
  { refine (proj1 (enhancement_input_source src dst "id" Hpair _)).
    apply (bool_decide_unpack _). vm_compute. exact I. }
  transitivity ((fun v : list cell => v) <$> assoc src sel).
  - apply (assoc_relabel (fun n => default n (COLUMN_NAME_DICT !! n))
             (fun v : list cell => v) dst src sel).
    intros c Hc. apply (enhancement_input_source src dst (fst c) Hpair).
    subst sel. apply list_elem_of_In in Hc. apply in_flat_map in Hc as (n & Hn & Hc).
    apply list_elem_of_In in Hc. apply list_elem_of_filter in Hc as [-> _].
    apply list_elem_of_In in Hn. apply list_elem_of_filter in Hn as [Hn _]. exact Hn.
  - subst sel. rewrite assoc_selected.
    destruct (assoc src (cols df)) as [v|] eqn:Hv.
    + rewrite bool_decide_eq_true_2; [ reflexivity | ].
      apply list_elem_of_filter. split; [ exact Hsrc | ].
      exact (assoc_label _ _ _ Hv).
    + destruct (bool_decide _); reflexivity.
Qed.

Lemma take_left_hashable (pairs : list (nat * option nat)) (c : list cell) :
  Forall hashable c -> Forall hashable (take_left pairs c).
Proof.
  intros Hc. unfold take_left. apply Forall_forall. intros x Hx.
  apply list_elem_of_In in Hx. apply in_map_iff in Hx as (p & <- & _).
  destruct (nth_in_or_default (fst p) c NaN) as [Hin | ->]; [ | exact I ].
  rewrite Forall_forall in Hc. apply Hc. apply list_elem_of_In. exact Hin.
Qed.

Lemma take_right_hashable (pairs : list (nat * option nat)) (c : list cell) :
  Forall hashable c -> Forall hashable (take_right pairs c).
Proof.
  intros Hc. unfold take_right. apply Forall_forall. intros x Hx.
  apply list_elem_of_In in Hx. apply in_map_iff in Hx as ([i [j|]] & <- & _);
    cbn [snd]; [ | exact I ].
  destruct (nth_in_or_default j c NaN) as [Hin | ->]; [ | exact I ].
  rewrite Forall_forall in Hc. apply Hc. apply list_elem_of_In. exact Hin.
Qed.

Lemma fill_hashable (a b : list cell) :
  Forall hashable a -> Forall hashable b ->
  Forall hashable (zip_with (fun t s => if isnull t then s else t) a b).
Proof.
  intros Ha. revert b. induction Ha as [|x a Hx Ha IH]; intros b Hb;
    [ constructor | ].
  destruct Hb as [|y b Hy Hb]; [ constructor | ].
  cbn [zip_with]. constructor; [ | exact (IH b Hb) ].
  destruct (isnull x); assumption.
Qed.

(** The enhancement cell succeeds on every fetched table that has the six
    fields it reads, holds Jira's ids (issue ids that are strings, parent
    ids that are strings or missing, one at least present) and has no
    list or dict in a colour field.  Its result has one row per pair of
    the join of the parent ids with the issue ids; it has the issue ids
    of the left rows, the backfilled epic names, and in each of the three
    colour columns one display colour per row. *)
Theorem enhancement_returns (df : DataFrame)
    (ids parents names colors status_colors parent_colors : list cell) :
  getitem_col "id" df = Returned ids ->
  getitem_col "fields.parent.id" df = Returned parents ->
  getitem_col "fields.customfield_10011" df = Returned names ->
  getitem_col "fields.customfield_10017" df = Returned colors ->
  getitem_col "fields.status.statusCategory.colorName" df = Returned status_colors ->
  getitem_col "fields.parent.fields.status.statusCategory.colorName" df
    = Returned parent_colors ->
  jira_ids ids parents ->
  Forall hashable colors -> Forall hashable status_colors ->
  Forall hashable parent_colors ->
  exists out,
    enhance_issues df = Returned out
    /\ let pairs := left_join_pairs parents ids in
       nrows out = length pairs
       /\ getitem_col "issue_id" out = Returned (take_left pairs ids)
       /\ getitem_col "epic_name" out = Returned (map (backfilled names) pairs)
       /\ forall n, n ∈ COLOR_COLUMNS ->
            exists c, getitem_col n out = Returned c
                      /\ length c = length pairs
                      /\ Forall (fun x => exists s, s ∈ DISPLAY_COLORS
                                                    /\ x = str_cell s) c.
Proof.
  intros Hids Hparents Hnames Hcolors Hstatus Hparent Hjira Hh1 Hh2 Hh3.
  apply getitem_col_Returned in Hids, Hparents, Hnames, Hcolors, Hstatus, Hparent.
  destruct (project_rename_inputs df) as (out1 & Hout1 & _ & Hlabels1 & Hlook).
  assert (Hin : forall src dst, bool_decide ((src, dst) ∈ ENHANCEMENT_INPUTS) = true ->
                  assoc dst (cols out1) = assoc src (cols df)).
  { intros src dst Hb. apply Hlook. exact (bool_decide_eq_true_1 _ Hb). }
  pose proof (Hin "id" "issue_id" eq_refl) as Hids1.
  pose proof (Hin "fields.parent.id" "parent_id" eq_refl) as Hparents1.
  pose proof (Hin "fields.customfield_10011" "epic_name" eq_refl) as Hnames1.
  pose proof (Hin "fields.customfield_10017" "epic_color" eq_refl) as Hcolors1.
  pose proof (Hin "fields.status.statusCategory.colorName" "status_cat_color" eq_refl)
    as Hstatus1.
  pose proof (Hin "fields.parent.fields.status.statusCategory.colorName"
                "parent_status_cat_color" eq_refl) as Hparent1.
  rewrite Hids in Hids1. rewrite Hparents in Hparents1. rewrite Hnames in Hnames1.
  rewrite Hcolors in Hcolors1. rewrite Hstatus in Hstatus1. rewrite Hparent in Hparent1.
  clear Hin Hlook.
  destruct (epic_backfill_columns out1 ids parents names colors Hlabels1
              Hids1 Hparents1 Hnames1 Hcolors1 (jira_ids_compatible ids parents Hjira))
    as (out2 & Hout2 & Hrows2 & Hname2 & Hcolor2 & Hid2 & Hother2).
  set (pairs := left_join_pairs parents ids) in *.
  assert (Hstatus2 : assoc "status_cat_color" (cols out2)
                     = Some (take_left pairs status_colors)).
  { rewrite (Hother2 "status_cat_color"), Hstatus1; [ reflexivity | | ];
      apply (bool_decide_unpack _); vm_compute; exact I. }
  assert (Hparent2 : assoc "parent_status_cat_color" (cols out2)
                     = Some (take_left pairs parent_colors)).
  { rewrite (Hother2 "parent_status_cat_color"), Hparent1; [ reflexivity | | ];
      apply (bool_decide_unpack _); vm_compute; exact I. }
  assert (Hready : forall n, n ∈ COLOR_COLUMNS ->
             exists c, assoc n (cols out2) = Some c /\ Forall hashable c
                       /\ length c = length pairs).
  { intros n Hn. unfold COLOR_COLUMNS in Hn.
    apply elem_of_cons in Hn as [-> | Hn].
    { eexists. split; [ exact Hcolor2 | ]. split.
      - apply fill_hashable;
          [ apply take_left_hashable | apply take_right_hashable ]; exact Hh1.
      - unfold take_left, take_right. rewrite zip_with_maps. apply length_map. }
    apply elem_of_cons in Hn as [-> | Hn].
    { eexists. split; [ exact Hstatus2 | ].
      split; [ apply take_left_hashable; exact Hh2 | apply length_map ]. }
    apply elem_of_cons in Hn as [-> | Hn]; [ | inversion Hn ].
    eexists. split; [ exact Hparent2 | ].
    split; [ apply take_left_hashable; exact Hh3 | apply length_map ]. }
  unfold enhance_issues. rewrite Hout1. cbn [obind]. rewrite Hout2. cbn [obind].
  destruct (replace_colors_cases out2)
    as [(out & Hout & _) | [(_ & n & c & Hn & Hc & Hbad) | (k & Hk & Hnone & _)]].
  - exists out. split; [ exact Hout | ]. cbn zeta.
    destruct (replace_colors_Returned out2 out Hout) as (Hrows & _ & Hcolor & Hothers).
    split; [ rewrite Hrows; exact Hrows2 | ].
    split; [ | split ].
    + unfold getitem_col. rewrite (Hothers "issue_id"), Hid2; [ reflexivity | ].
      apply (bool_decide_unpack _). vm_compute. exact I.
    + unfold getitem_col. rewrite (Hothers "epic_name"), Hname2; [ reflexivity | ].
      apply (bool_decide_unpack _). vm_compute. exact I.
    + intros n Hn. destruct (Hcolor n Hn) as (c & c' & Hc & Hc' & Ht).
      destruct (Hready n Hn) as (c0 & Hc0 & _ & Hlen).
      rewrite Hc in Hc0. injection Hc0 as <-.
      exists c'. unfold getitem_col. rewrite Hc'.
      split; [ reflexivity | ].
      split; [ rewrite (traverse_length _ _ _ Ht); exact Hlen | ].
      destruct (traverse_color_replace c) as [[_ (c'' & Ht' & Hall)] | [_ Hraise]].
      * rewrite Ht in Ht'. injection Ht' as <-. exact Hall.
      * rewrite Ht in Hraise. discriminate.
  - exfalso. destruct (Hready n Hn) as (c0 & Hc0 & Hgood & _).
    rewrite Hc in Hc0. injection Hc0 as <-. exact (Hbad Hgood).
  - exfalso. destruct (Hready k Hk) as (c0 & Hc0 & _).
    rewrite Hnone in Hc0. discriminate.
Qed.

Lemma enhancement_returns_witness :
  exists out,
    enhance_issues fetched_epic_table = Returned out
    /\ nrows out = 2%nat
    /\ getitem_col "epic_name" out = Returned [str_cell "Feature X"; str_cell "Feature X"]
    /\ getitem_col "epic_color" out = Returned [str_cell "darkblue"; str_cell "darkblue"].
Proof.
  destruct (enhancement_returns fetched_epic_table
              [str_cell "10000"; str_cell "10001"]
              [NaN; str_cell "10000"]
              [str_cell "Feature X"; NaN]
              [str_cell "dark_blue"; NaN]
              [str_cell "green"; str_cell "yellow"]
              [NaN; str_cell "green"])
    as (out & Hout & Hrows & _ & Hnames & _).
  - reflexivity.
  - reflexivity.
  - reflexivity.
  - reflexivity.
  - reflexivity.
  - reflexivity.
  - split; [ | split ].
    + repeat constructor.
    + repeat constructor.
    + apply Exists_cons_tl. apply Exists_cons_hd. reflexivity.
  - repeat constructor.
  - repeat constructor.
  - repeat constructor.
  - exists out. split; [ exact Hout | ].
    split; [ exact Hrows | ]. split; [ exact Hnames | ].
    vm_compute in Hout. injection Hout as <-. vm_compute. reflexivity.
Defined.

(** * The board-issues assembly on a board without sprints *)

(** A board without sprints cannot be assembled.  When the first request
    for the board's sprints comes back with an empty page, or with an
    HTTP error, [jira_get_sprints] returns the empty table in both cases
    alike, and [jira_get_board_issues] raises [AttributeError] on its
    [id] column, having made that one request. *)
Theorem board_issues_need_a_sprint (cfg : config)
    (requests_get : request -> http_reply) (fuel : nat) (board_id : cell) :
  let path := "/rest/agile/1.0/board/" +:+ py_format board_id +:+ "/sprint" in
  let first :=
    jira_auth_get_connect cfg requests_get path (Some (page_params [] 100 0)) None in
  (exists status, result first = Returned (ExcObj (RequestsHTTPError status)))
  \/ replies_with cfg requests_get path "values" [] 100 0 [] ->
  result (jira_get_sprints cfg requests_get (S fuel) board_id) = Returned empty_frame
  /\ result (jira_get_board_issues cfg requests_get (S fuel) board_id)
     = Raised AttributeError
  /\ exchanges (jira_get_board_issues cfg requests_get (S fuel) board_id)
     = exchanges first.
Proof.
  cbn zeta. set (path := "/rest/agile/1.0/board/" +:+ py_format board_id +:+ "/sprint").
  intros Hfirst.
  assert (Hpages :
            fetch_pages cfg requests_get (S fuel) true true path "values" [] 100 [] 0
            = (Returned [],
               exchanges (jira_auth_get_connect cfg requests_get path
                            (Some (page_params [] 100 0)) None))).
  { destruct Hfirst as [[status Herr] | (r & doc & Hr & Htext & Hget)].
    - cbn [fetch_pages]. fold (page_params [] 100 0).
      destruct (jira_auth_get_connect cfg requests_get path
                  (Some (page_params [] 100 0)) None) as [res log].
      cbn [result fst] in Herr. subst res.
      cbn [bind andb is_requests_HTTPError ret exchanges snd].
      rewrite app_nil_r. reflexivity.
    - exact (fetch_pages_empty cfg requests_get true path "values" [] fuel 100 0 []
               r doc Hr Htext Hget). }
  assert (Hnorm : json_normalize [] = Returned empty_frame) by reflexivity.
  assert (Hsprints :
            jira_get_sprints cfg requests_get (S fuel) board_id
            = (Returned empty_frame,
               exchanges (jira_auth_get_connect cfg requests_get path
                            (Some (page_params [] 100 0)) None))).
  { unfold jira_get_sprints, fetch_frame. fold path. rewrite Hpages.
    cbn [bind lift]. rewrite Hnorm, app_nil_r. reflexivity. }
  split; [ rewrite Hsprints; reflexivity | ].
  unfold jira_get_board_issues. rewrite Hsprints.
  cbn [bind lift getattr_col assoc cols empty_frame result exchanges fst snd].
  rewrite app_nil_r. split; reflexivity.
Qed.

Lemma board_issues_need_a_sprint_witness :
  result (jira_get_board_issues demo_config (failing_server 400) 5 (Val (JNum 7)))
  = Raised AttributeError.
Proof.
  destruct (board_issues_need_a_sprint demo_config (failing_server 400) 4 (Val (JNum 7)))
    as (_ & Hraise & _).
  - left. exists 400. vm_compute. reflexivity.
  - exact Hraise.
Defined.

(** * A reply that cannot be read *)

Lemma fetch_pages_unreadable_step (cfg : config) (requests_get : request -> http_reply)
    (fuel : nat) (guarded : bool) (path key : string)
    (extra : list (string * json)) (N k : Z) (acc : list json)
    (r : Response) (e : exn) :
  result (jira_auth_get_connect cfg requests_get path
            (Some (page_params extra N k)) None) = Returned (RespObj r) ->
  obind (json_loads (text r)) (fun doc => getitem doc key) = Raised e ->
  result (fetch_pages cfg requests_get (S fuel) guarded true path key extra N acc k)
  = Raised e.
Proof.
  intros Hres Hparse. cbn [fetch_pages]. fold (page_params extra N k).
  destruct (jira_auth_get_connect cfg requests_get path
              (Some (page_params extra N k)) None) as [res log].
  cbn [result fst] in Hres. subst res. cbn [bind].
  replace (guarded && is_requests_HTTPError (RespObj r)) with false
    by (destruct guarded; reflexivity).
  cbn [get_text obind]. rewrite Hparse. reflexivity.
Qed.

(** No fetcher keeps what it has when a reply cannot be read.  When,
    after some pages, a response arrives whose body is not JSON, or is
    not an object, or lacks the key of the result array, the fetch raises
    the exception of the parsing line ([JSONDecodeError], [TypeError],
    [KeyError]) whether or not it tests for [HTTPError], and the pages
    fetched so far are lost. *)
Theorem unreadable_page_loses_pages (cfg : config)
    (requests_get : request -> http_reply) (guarded : bool) (path key : string)
    (extra : list (string * json)) (N : Z) (pages : list (list json)) (fuel : nat)
    (r : Response) :
  Forall (fun p => p <> []) pages ->
  (forall i p, pages !! i = Some p ->
     replies_with cfg requests_get path key extra N (Z.of_nat i * N) p) ->
  result (jira_auth_get_connect cfg requests_get path
            (Some (page_params extra N (Z.of_nat (length pages) * N))) None)
    = Returned (RespObj r) ->
  (length pages < fuel)%nat ->
  let run := result (fetch_pages cfg requests_get fuel guarded true path key extra N
                       [] 0) in
  (forall raw, text r = Garbage raw -> run = Raised JSONDecodeError)
  /\ (forall fields, text r = Json (JObj fields) -> assoc key fields = None ->
        run = Raised (KeyError key))
  /\ (forall doc, text r = Json doc -> (forall fields, doc <> JObj fields) ->
        run = Raised TypeError).
Proof.
  intros Hne Hreplies Hres Hfuel. cbn zeta.
  assert (Hrun : forall e,
             obind (json_loads (text r)) (fun doc => getitem doc key) = Raised e ->
             result (fetch_pages cfg requests_get fuel guarded true path key extra N
                       [] 0) = Raised e).
  { intros e Hparse.
    replace fuel with (length pages + S (fuel - length pages - 1))%nat by lia.
    destruct (fetch_pages_through cfg requests_get guarded path key extra N pages
                0 [] (S (fuel - length pages - 1)) Hne) as [Hresult _].
    { intros i p Hp. rewrite Z.add_0_l. apply Hreplies. exact Hp. }
    cbn zeta in Hresult. rewrite Z.add_0_l in Hresult. rewrite Hresult.
    exact (fetch_pages_unreadable_step cfg requests_get _ guarded path key extra N _ _
             r e Hres Hparse). }
  split; [ | split ].
  - intros raw Htext. apply Hrun. rewrite Htext. reflexivity.
  - intros fields Htext Hkey. apply Hrun. rewrite Htext.
    cbn [json_loads obind getitem]. rewrite Hkey. reflexivity.
  - intros doc Htext Hdoc. apply Hrun. rewrite Htext. cbn [json_loads obind].
    destruct doc as [| b | z | s | l | fields]; try reflexivity.
    exfalso. exact (Hdoc fields eq_refl).
Qed.

Lemma unreadable_page_loses_pages_witness :
  result (jira_get_sprints demo_config garbled_server 5 (Val (JNum 7)))
  = Raised JSONDecodeError.
Proof.
  unfold jira_get_sprints. rewrite fetch_frame_result.
  destruct (unreadable_page_loses_pages demo_config garbled_server true
              "/rest/agile/1.0/board/7/sprint" "values" [] 100
              [replicate 100 (JObj [("id", JNum 1)])] 5
              (mkResponse 200 (Garbage "<html>Maintenance</html>")))
    as (Hgarbage & _).
  - repeat constructor. discriminate.
  - intros [|i] p Hp; [ | discriminate Hp ].
    injection Hp as <-. eexists _, _. repeat split; vm_compute; reflexivity.
  - vm_compute. reflexivity.
  - cbn. lia.
  - cbn zeta in Hgarbage. 
    change ("/rest/agile/1.0/board/" +:+ py_format (Val (JNum 7)) +:+ "/sprint")
      with "/rest/agile/1.0/board/7/sprint".
    rewrite (Hgarbage "<html>Maintenance</html>" eq_refl). reflexivity.
Defined.

(** * Shape and failures of the aggregation cells *)

Lemma insert_key_length (k : list cell) (sorted : list (list cell)) :
  (length (insert_key k sorted) <= S (length sorted))%nat.
Proof.
  induction sorted as [|k' rest IH]; cbn [insert_key length]; [ lia | ].
  destruct (keys_eqb k k'); [ cbn [length]; lia | ].
  destruct (keys_leb k k'); cbn [length]; lia.
Qed.

Lemma group_keys_length (keys : list (list cell)) :
  (length (group_keys keys) <= length keys)%nat.
Proof.
  unfold group_keys.
  assert (H : forall acc,
             (length (foldl (fun acc k => insert_key k acc) acc keys)
              <= length acc + length keys)%nat).
  { induction keys as [|k keys IH]; intros acc; cbn [foldl length]; [ lia | ].
    specialize (IH (insert_key k acc)).
    pose proof (insert_key_length k acc). lia. }
  exact (H []).
Qed.

Lemma pick_length {A} (mask : list bool) (l : list A) :
  (length (pick mask l) <= length l)%nat.
Proof.
  revert mask. induction l as [|a l IH]; intros [|[|] mask]; cbn [pick length];
    try lia; specialize (IH mask); lia.
Qed.

Lemma filter_rows_columns (mask : list bool) (df : DataFrame) :
  columns (filter_rows mask df) = columns df.
Proof.
  unfold columns, filter_rows. cbn [cols]. rewrite map_map. reflexivity.
Qed.

(** A table that one of the aggregation cells returns has the key
    columns in the order of the keys, then [storypoints] and
    [issue_count]; every column is filled to the number of rows; and
    there are at most as many rows as the table of issues has. *)
Theorem aggregated_table_shape (fields keys : list string) (df out : DataFrame) :
  storypoints_per fields keys df = Returned out ->
  columns out = keys ++ ["storypoints"; "issue_count"]
  /\ well_formed out
  /\ (nrows out <= nrows df)%nat.
Proof.
  unfold storypoints_per, query_ne.
  destruct (assoc "issuetype" (cols df)) as [types|]; [ | discriminate ].
  cbn [obind].
  set (mask := map (fun x => negb (cell_eqb x (str_cell "Epic"))) types).
  unfold getitem_list.
  destruct (filter (fun n => n ∉ columns (filter_rows mask df)) fields);
    [ | discriminate ].
  cbn [obind]. unfold groupby_sum_count.
  destruct (traverse _ keys) as [key_cols| |]; cbn [obind]; try discriminate.
  destruct (getitem_col "storypoints" _) as [vals| |]; cbn [obind]; try discriminate.
  cbn zeta. cbn [nrows filter_rows].
  set (rows := filter _ _).
  set (groups := group_keys (map fst rows)).
  destruct (traverse _ groups) as [sums| |] eqn:Hsums; cbn [obind]; try discriminate.
  intros [= <-]. split; [ | split ].
  - unfold columns. cbn [cols]. rewrite map_app. f_equal.
    apply list_eq. intros j.
    match goal with
    | |- map fst ?l !! j = _ => change (map fst l) with (fst <$> l)
    end.
    rewrite list_lookup_fmap, list_lookup_imap.
    destruct (keys !! j); reflexivity.
  - unfold well_formed. cbn [cols nrows]. apply Forall_app. split.
    + apply Forall_forall. intros c Hc.
      apply list_elem_of_lookup in Hc as (j & Hj).
      rewrite list_lookup_imap in Hj.
      destruct (keys !! j) as [k|]; [ | discriminate ].
      injection Hj as <-. cbn [snd]. apply length_map.
    + repeat constructor; cbn [snd]; rewrite length_map;
        [ exact (traverse_length _ _ _ Hsums) | reflexivity ].
  - cbn [nrows]. subst groups.
    etransitivity; [ apply group_keys_length | ].
    rewrite length_map. subst rows.
    etransitivity; [ apply length_filter | ].
    rewrite length_map, length_seq.
    etransitivity; [ apply pick_length | ]. rewrite length_seq. reflexivity.
Qed.

Lemma aggregated_table_shape_witness :
  exists out,
    df_issues_per_project epic_project_table = Returned out
    /\ columns out = ["project_name"; "issuetype"; "status_cat_name";
                      "storypoints"; "issue_count"]
    /\ (nrows out <= 4)%nat.
Proof.
  eexists. split; [ vm_compute; reflexivity | ].
  match goal with
  | |- columns ?out = _ /\ _ =>
      destruct (aggregated_table_shape
                  ["project_name"; "issuetype"; "status_cat_name"; "storypoints"]
                  ["project_name"; "issuetype"; "status_cat_name"]
                  epic_project_table out ltac:(vm_compute; reflexivity))
        as (Hcols & _ & Hrows)
  end.
  split; [ exact Hcols | exact Hrows ].
Defined.

(** The aggregation cells need their columns.  Without an issue type
    column the query raises [NameError]; with it, a selected field that
    the table lacks raises [KeyError]; and a cell that returns has found
    the issue type, every selected field, and every key and the story
    points among the selected fields. *)
Theorem aggregation_needs_columns (fields keys : list string) (df : DataFrame) :
  ("issuetype" ∉ columns df ->
   storypoints_per fields keys df = Raised (NameError "issuetype"))
  /\ ("issuetype" ∈ columns df ->
      (exists n, n ∈ fields /\ n ∉ columns df) ->
      exists k, k ∈ fields /\ (k ∉ columns df)
                /\ storypoints_per fields keys df = Raised (KeyError k))
  /\ (returns (storypoints_per fields keys df) ->
      "issuetype" ∈ columns df
      /\ (forall n, n ∈ fields -> n ∈ columns df)
      /\ (forall k, k ∈ "storypoints" :: keys -> k ∈ fields)).
Proof.
  unfold storypoints_per, query_ne.
  destruct (assoc "issuetype" (cols df)) as [types|] eqn:Htypes.
  - cbn [obind].
    set (mask := map (fun x => negb (cell_eqb x (str_cell "Epic"))) types).
    pose proof (assoc_label _ _ _ Htypes) as Hpresent. fold (columns df) in Hpresent.
    split; [ intros Habsent; contradiction | ].
    destruct (getitem_list_cases fields (filter_rows mask df))
      as [[[selected Hsel] Hall] | (c & Hc & Hmiss & Hraise)].
    + rewrite Hsel. cbn [obind]. split.
      { intros _ (n & Hn & Hout). exfalso. apply Hout.
        rewrite <- (filter_rows_columns mask df). exact (Hall n Hn). }
      intros [out Hout]. split; [ exact Hpresent | ].
      split; [ intros n Hn; rewrite <- (filter_rows_columns mask df); exact (Hall n Hn) | ].
      assert (Hcols : cols selected
                = flat_map (fun n => filter (fun c => fst c = n)
                                       (cols (filter_rows mask df))) fields).
      { revert Hsel. unfold getitem_list.
        destruct (filter _ fields); [ | discriminate ]. intros [= <-]. reflexivity. }
      assert (Hfield : forall k v, assoc k (cols selected) = Some v -> k ∈ fields).
      { intros k v. rewrite Hcols, assoc_selected.
        destruct (bool_decide (k ∈ fields)) eqn:Hk; [ | discriminate ].
        intros _. exact (bool_decide_eq_true_1 _ Hk). }
      revert Hout. unfold groupby_sum_count.
      destruct (traverse (fun k => getitem_col k selected) keys) as [key_cols| |] eqn:Hkeys;
        cbn [obind]; try discriminate.
      destruct (getitem_col "storypoints" selected) as [vals| |] eqn:Hvals;
        cbn [obind]; try discriminate.
      intros _ k Hk. apply elem_of_cons in Hk as [-> | Hk].
      * apply getitem_col_Returned in Hvals. exact (Hfield _ _ Hvals).
      * apply list_elem_of_lookup in Hk as (j & Hj).
        destruct (traverse_lookup _ keys key_cols j k Hkeys Hj) as (v & _ & Hv).
        apply getitem_col_Returned in Hv. exact (Hfield _ _ Hv).
    + rewrite Hraise. cbn [obind]. split.
      { intros _ _. exists c. split; [ exact Hc | ].
        split; [ rewrite <- (filter_rows_columns mask df); exact Hmiss | reflexivity ]. }
      intros [out Hout]. discriminate Hout.
  - cbn [obind]. split; [ reflexivity | ]. split.
    + intros Hpresent. exfalso.
      destruct (assoc_is_Some "issuetype" (cols df) Hpresent) as (v & Hv).
      rewrite Htypes in Hv. discriminate.
    + intros [out Hout]. discriminate Hout.
Qed.

Lemma aggregation_needs_columns_witness :
  df_issues_per_type epic_project_table = Raised (KeyError "prio").
Proof.
  destruct (aggregation_needs_columns
              ["issuetype"; "status_cat_name"; "storypoints"; "prio"]
              ["issuetype"; "status_cat_name"; "prio"] epic_project_table)
    as (_ & Hmissing & _).
  destruct Hmissing as (k & Hk & Hout & Hraise).
  - apply (bool_decide_unpack _). vm_compute. exact I.
  - exists "prio". split; apply (bool_decide_unpack _); vm_compute; exact I.
  - vm_compute. reflexivity.
Defined.

(** * The requests of the board-issues assembly *)

Lemma sprint_rows_exchanges (cfg : config) (requests_get : request -> http_reply)
    (fuel : nat) (sprint_ids : list cell) :
  forall issue_rows,
    returns (result (sprint_rows cfg requests_get fuel sprint_ids issue_rows)) ->
    exchanges (sprint_rows cfg requests_get fuel sprint_ids issue_rows)
    = flat_map (fun sid => exchanges (jira_get_sprint_issues cfg requests_get fuel sid))
               sprint_ids.
Proof.
  induction sprint_ids as [|sid0 rest IH]; intros issue_rows Hret; [ reflexivity | ].
  cbn [sprint_rows flat_map] in *.
  destruct (jira_get_sprint_issues cfg requests_get fuel sid0)
    as [[df0|e|] log] eqn:Hfetch; cbn [bind] in *;
    try (destruct Hret as [v Hv]; discriminate Hv).
  destruct (getitem_list BOARD_ISSUE_FIELDS df0) as [sel|e|]; cbn [lift bind] in *;
    try (destruct Hret as [v Hv]; discriminate Hv).
  match type of Hret with
  | context [sprint_rows _ _ _ rest ?rows] =>
      specialize (IH rows);
      destruct (sprint_rows cfg requests_get fuel rest rows) as [res' log']
  end.
  cbn [result exchanges fst snd] in *. rewrite (IH Hret). reflexivity.
Qed.

(** The assembly of a board's issues, when it returns, has fetched the
    board's sprints and then, sprint by sprint in the order of the sprint
    table, the issues of each sprint, and has made no other request. *)
Theorem board_issues_traffic (cfg : config) (requests_get : request -> http_reply)
    (fuel : nat) (board_id : cell) (df_all_sprints : DataFrame)
    (sprint_ids : list cell) :
  result (jira_get_sprints cfg requests_get fuel board_id) = Returned df_all_sprints ->
  getattr_col "id" df_all_sprints = Returned sprint_ids ->
  returns (result (jira_get_board_issues cfg requests_get fuel board_id)) ->
  exchanges (jira_get_board_issues cfg requests_get fuel board_id)
  = exchanges (jira_get_sprints cfg requests_get fuel board_id)
    ++ flat_map (fun sid => exchanges (jira_get_sprint_issues cfg requests_get fuel sid))
                sprint_ids.
Proof.
  intros Hsprints Hids. unfold jira_get_board_issues.
  destruct (jira_get_sprints cfg requests_get fuel board_id) as [res log].
  cbn [result fst] in Hsprints. subst res.
  cbn [bind]. rewrite Hids. cbn [lift bind].
  pose proof (sprint_rows_exchanges cfg requests_get fuel sprint_ids []) as Hrows.
  destruct (sprint_rows cfg requests_get fuel sprint_ids []) as [[rows|e|] rows_log];
    cbn [bind result exchanges fst snd] in *;
    try (intros [v Hv]; discriminate Hv).
  rewrite <- Hrows by (eexists; reflexivity).
  destruct (frame_of_rows BOARD_ISSUE_COLUMNS rows) as [df_board_issues|e|];
    cbn [lift bind result exchanges fst snd];
    try (intros [v Hv]; discriminate Hv).
  destruct (merge_left df_board_issues df_all_sprints "sprint_id" "id") as [merged|e|];
    cbn [lift bind result exchanges fst snd];
    try (intros [v Hv]; discriminate Hv).
  destruct (drop ["id"; "self"; "goal"] merged) as [dropped|e|];
    cbn [lift bind ret result exchanges fst snd];
    try (intros [v Hv]; discriminate Hv).
  intros _. rewrite !app_nil_r. reflexivity.
Qed.

Lemma board_issues_traffic_witness :
  length (exchanges (jira_get_board_issues demo_config busy_board_server 5
                       (Val (JNum 7)))) = 4%nat.
Proof.
  erewrite board_issues_traffic; cycle 1.
  - vm_compute. reflexivity.
  - vm_compute. reflexivity.
  - eexists. vm_compute. reflexivity.
  - vm_compute. reflexivity.
Defined.

(** * The key check of the merge in the epic lines *)


